(** * Scheduling work queue of the calendar server

    A shallow embedding of [txdav/caldav/datastore/scheduling/work.py]:
    the [ScheduleWorkMixin] behaviour shared by the five work item classes,
    the classes themselves, and the properties of the queue that follow
    from the code.

    The tables the work items live in are rows of a [World]; a transaction
    is a function from a world to a result and a world.  The job library,
    the object store and the implicit scheduler are the collaborators of
    this file: they are modelled at the calls the work items make to
    them. *)

From Stdlib Require Import ZArith Lia Ascii String.
From stdpp Require Import base decidable option list strings gmap sets sorting.

Local Open Scope Z_scope.
Local Open Scope string_scope.
Local Open Scope list_scope.

(** ** Protocol constants and configuration *)

Module iTIPRequestStatus.

(** Modelled from the spec: the request-status constants of
    [txdav.caldav.datastore.scheduling.itip.iTIPRequestStatus], a module
    that work.py imports.  The spec (section 6) fixes the "N.M" form and
    names the delivered and pending codes as protocol constants and the
    service-unavailable code as the local substitute; work.py itself calls
    the delivered code 1.2. *)
Definition MESSAGE_PENDING_CODE : string := "1.0".
Definition MESSAGE_DELIVERED_CODE : string := "1.2".
Definition SERVICE_UNAVAILABLE_CODE : string := "5.1".

End iTIPRequestStatus.

(** Modelled from the spec: the options of [twistedcaldav.config] that work.py
    reads under [config.Scheduling.Options], the configuration surface of
    section 6 (delays in seconds, the refresh batch size, the maximum of
    temporary failures and the delay of a retry). *)
Record Config := {
  RequestDelaySeconds : Z;
  ReplyDelaySeconds : Z;
  AutoReplyDelaySeconds : Z;
  AttendeeRefreshBatch : Z;
  AttendeeRefreshBatchDelaySeconds : Z;
  AttendeeRefreshBatchIntervalSeconds : Z;
  MaxTemporaryFailures : Z;
  TemporaryFailureDelay : Z
}.

(** ** Rows *)

(** [workType()] of a work item class is the name of its table. *)
Inductive WorkType :=
| SCHEDULE_ORGANIZER_WORK
| SCHEDULE_ORGANIZER_SEND_WORK
| SCHEDULE_REPLY_WORK
| SCHEDULE_REFRESH_WORK
| SCHEDULE_AUTO_REPLY_WORK.

#[global] Instance WorkType_eq_dec : EqDecision WorkType.
Proof. solve_decision. Defined.

(** Modelled from the spec: the values of the [scheduleAction] column
    ([scheduleActionToSQL] of sql_tables): create, modify and remove
    (section 3). *)
Inductive ScheduleAction := ActionCreate | ActionModify | ActionRemove.

#[global] Instance ScheduleAction_eq_dec : EqDecision ScheduleAction.
Proof. solve_decision. Defined.

(** Modelled from the spec: a property of a calendar component of
    [twistedcaldav.ical], with its value (the calendar user address of an
    ATTENDEE or ORGANIZER, by which section 4.3 matches it) and its
    parameters, the delivery status among them. *)
Record Property := {
  value : string;
  parameters : gmap string string
}.

Definition setParameter (name v : string) (p : Property) : Property :=
  {| value := value p; parameters := <[name := v]> (parameters p) |}.

(** Modelled from the spec: a calendar component of [twistedcaldav.ical], as
    far as the work items look into it (its UID, its organizer, its ORGANIZER
    and ATTENDEE properties).  The text columns of the work tables hold
    serialized components; the model keeps the component such a text parses
    to. *)
Record Component := {
  resourceUID : string;
  validOrganizerForScheduling : string;
  getOrganizerProperties : list Property;
  getAllAttendeeProperties : list Property
}.

(** The columns that differ from one work table to the next, as the
    keyword arguments of the five [txn.enqueue] calls name them (the schema
    itself is in sql_tables).  A text column that is NULL or empty is
    [None]. *)
Inductive Payload :=
| OrganizerFields (scheduleAction : ScheduleAction)
    (icalendarTextOld icalendarTextNew : option Component)
    (attendeeCount : Z) (smartMerge : bool)
| OrganizerSendFields (scheduleAction : ScheduleAction) (attendee : string)
    (itipMsg : option Component) (noRefresh : bool)
| ReplyFields (itipMsg : option Component)
| RefreshFields (attendeeCount : Z)
| AutoReplyFields (partstat : string).

Definition tableOf (p : Payload) : WorkType :=
  match p with
  | OrganizerFields _ _ _ _ _ => SCHEDULE_ORGANIZER_WORK
  | OrganizerSendFields _ _ _ _ => SCHEDULE_ORGANIZER_SEND_WORK
  | ReplyFields _ => SCHEDULE_REPLY_WORK
  | RefreshFields _ => SCHEDULE_REFRESH_WORK
  | AutoReplyFields _ => SCHEDULE_AUTO_REPLY_WORK
  end.

(** A row of one of the five work tables. *)
Record WorkRow := {
  workID : Z;
  homeResourceID : Z;
  resourceID : option Z;
  fields : Payload
}.

(** A row of SCHEDULE_WORK. *)
Record ScheduleWork := {
  sw_workID : Z;
  sw_jobID : Z;
  sw_icalendarUID : string;
  sw_workType : WorkType
}.

(** A row of JOB, as far as the work items read and write it. *)
Record JobItem := {
  job_workType : WorkType;
  notBefore : Z;
  failed : Z;
  pause : Z
}.

(** A work item in memory: its row and the base row [addBaseWork] attached. *)
Record WorkItem := {
  row : WorkRow;
  baseWork : ScheduleWork
}.

Definition jobID (self : WorkItem) : Z := sw_jobID (baseWork self).
Definition icalendarUID (self : WorkItem) : string := sw_icalendarUID (baseWork self).
Definition workType (self : WorkItem) : WorkType := tableOf (fields (row self)).

(** ** The object store *)

Record CalendarObject := {
  obj_uid : string;
  obj_component : Component
}.

Record CalendarHome := {
  home_uid : string;
  home_objects : gmap Z CalendarObject
}.

(** Modelled from the spec: a calendar object resource of the object store
    in memory, with [id()], [_home.id()], [uid()] and the component that
    [componentForUser()] gives. *)
Record Resource := {
  res_id : Z;
  res_home : Z;
  res_uid : string;
  componentForUser : Component
}.

(** The two values of [ComponentUpdateState] that work.py passes to the
    store. *)
Inductive ComponentUpdateState := ORGANIZER_ITIP_UPDATE | ATTENDEE_ITIP_UPDATE.

(** ** What a transaction does, in the order it does it *)

Inductive Table :=
| T_SCHEDULE_WORK
| T_WORK (t : WorkType)
| T_SCHEDULE_REFRESH_ATTENDEES
| T_JOB.

Inductive Event :=
| EvLog (msg : string)
| EvSelect (t : Table)
| EvInsert (t : Table)
| EvDelete (t : Table)
| EvUpdate (t : Table)
| EvTryLockGroup (uid : string) (ok : bool)
| EvTryLockRow (wid : Z) (ok : bool)
| EvNamedLock (uid : string)
| EvOrganizerSending (uid attendee : string)
| EvReplyToOrganizer (uid organizer : string)
| EvRefresh (uid : string) (only_attendees : list string)
| EvAttendeeReply (home : Z) (rid : Z)
| EvSetComponent (home : Z) (rid : Z) (state : ComponentUpdateState)
| EvPostCommit.

(** ** The world of a transaction *)

Record World := {
  config : Config;
  utcnow : Z;
  SCHEDULE_WORK : list ScheduleWork;
  WORK : list WorkRow;
  SCHEDULE_REFRESH_ATTENDEES : list (Z * string);
  JOB : gmap Z JobItem;
  homes : gmap Z CalendarHome;
  locked_elsewhere : gset Z * gset Z;
  locked : gset Z * gset Z;
  next_id : Z;
  _queued : Z;
  _allDoneCallback : bool;
  trace : list Event
}.

Definition set_trace (t : list Event) (w : World) : World :=
  {| config := config w; utcnow := utcnow w; SCHEDULE_WORK := SCHEDULE_WORK w;
     WORK := WORK w; SCHEDULE_REFRESH_ATTENDEES := SCHEDULE_REFRESH_ATTENDEES w;
     JOB := JOB w; homes := homes w; locked_elsewhere := locked_elsewhere w;
     locked := locked w; next_id := next_id w; _queued := _queued w;
     _allDoneCallback := _allDoneCallback w; trace := t |}.

Definition set_SCHEDULE_WORK (t : list ScheduleWork) (w : World) : World :=
  {| config := config w; utcnow := utcnow w; SCHEDULE_WORK := t;
     WORK := WORK w; SCHEDULE_REFRESH_ATTENDEES := SCHEDULE_REFRESH_ATTENDEES w;
     JOB := JOB w; homes := homes w; locked_elsewhere := locked_elsewhere w;
     locked := locked w; next_id := next_id w; _queued := _queued w;
     _allDoneCallback := _allDoneCallback w; trace := trace w |}.

Definition set_WORK (t : list WorkRow) (w : World) : World :=
  {| config := config w; utcnow := utcnow w; SCHEDULE_WORK := SCHEDULE_WORK w;
     WORK := t; SCHEDULE_REFRESH_ATTENDEES := SCHEDULE_REFRESH_ATTENDEES w;
     JOB := JOB w; homes := homes w; locked_elsewhere := locked_elsewhere w;
     locked := locked w; next_id := next_id w; _queued := _queued w;
     _allDoneCallback := _allDoneCallback w; trace := trace w |}.

Definition set_SCHEDULE_REFRESH_ATTENDEES (t : list (Z * string)) (w : World) : World :=
  {| config := config w; utcnow := utcnow w; SCHEDULE_WORK := SCHEDULE_WORK w;
     WORK := WORK w; SCHEDULE_REFRESH_ATTENDEES := t;
     JOB := JOB w; homes := homes w; locked_elsewhere := locked_elsewhere w;
     locked := locked w; next_id := next_id w; _queued := _queued w;
     _allDoneCallback := _allDoneCallback w; trace := trace w |}.

Definition set_JOB (t : gmap Z JobItem) (w : World) : World :=
  {| config := config w; utcnow := utcnow w; SCHEDULE_WORK := SCHEDULE_WORK w;
     WORK := WORK w; SCHEDULE_REFRESH_ATTENDEES := SCHEDULE_REFRESH_ATTENDEES w;
     JOB := t; homes := homes w; locked_elsewhere := locked_elsewhere w;
     locked := locked w; next_id := next_id w; _queued := _queued w;
     _allDoneCallback := _allDoneCallback w; trace := trace w |}.

Definition set_homes (t : gmap Z CalendarHome) (w : World) : World :=
  {| config := config w; utcnow := utcnow w; SCHEDULE_WORK := SCHEDULE_WORK w;
     WORK := WORK w; SCHEDULE_REFRESH_ATTENDEES := SCHEDULE_REFRESH_ATTENDEES w;
     JOB := JOB w; homes := t; locked_elsewhere := locked_elsewhere w;
     locked := locked w; next_id := next_id w; _queued := _queued w;
     _allDoneCallback := _allDoneCallback w; trace := trace w |}.

Definition set_locked (t : gset Z * gset Z) (w : World) : World :=
  {| config := config w; utcnow := utcnow w; SCHEDULE_WORK := SCHEDULE_WORK w;
     WORK := WORK w; SCHEDULE_REFRESH_ATTENDEES := SCHEDULE_REFRESH_ATTENDEES w;
     JOB := JOB w; homes := homes w; locked_elsewhere := locked_elsewhere w;
     locked := t; next_id := next_id w; _queued := _queued w;
     _allDoneCallback := _allDoneCallback w; trace := trace w |}.

Definition set_next_id (t : Z) (w : World) : World :=
  {| config := config w; utcnow := utcnow w; SCHEDULE_WORK := SCHEDULE_WORK w;
     WORK := WORK w; SCHEDULE_REFRESH_ATTENDEES := SCHEDULE_REFRESH_ATTENDEES w;
     JOB := JOB w; homes := homes w; locked_elsewhere := locked_elsewhere w;
     locked := locked w; next_id := t; _queued := _queued w;
     _allDoneCallback := _allDoneCallback w; trace := trace w |}.

Definition set_queued (t : Z) (w : World) : World :=
  {| config := config w; utcnow := utcnow w; SCHEDULE_WORK := SCHEDULE_WORK w;
     WORK := WORK w; SCHEDULE_REFRESH_ATTENDEES := SCHEDULE_REFRESH_ATTENDEES w;
     JOB := JOB w; homes := homes w; locked_elsewhere := locked_elsewhere w;
     locked := locked w; next_id := next_id w; _queued := t;
     _allDoneCallback := _allDoneCallback w; trace := trace w |}.


(** The attribute map of a serialized work item: what [serialize()] gives
    for the record, and the entry "_refreshAttendees" when there is one. *)
Record AttrMap := {
  attributes : WorkRow;
  refreshAttendees_entry : option (list string)
}.

(** ** Transactions: state and exceptions *)

Inductive Exc :=
| JobTemporaryError (delay : Z)
| NoSuchRecord
| AttributeError
| JobRunningError
| UnboundLocalError
| InvalidICalendarDataError.

Inductive Result (A : Type) :=
| Return (a : A)
| Raise (e : Exc).
Arguments Return {A} a.
Arguments Raise {A} e.

Definition Txn (A : Type) : Type := World -> Result A * World.

Definition ret {A} (a : A) : Txn A := fun w => (Return a, w).

Definition bind {A B} (m : Txn A) (k : A -> Txn B) : Txn B :=
  fun w => match m w with
           | (Return a, w') => k a w'
           | (Raise e, w') => (Raise e, w')
           end.

Definition raise {A} (e : Exc) : Txn A := fun w => (Raise e, w).

Definition gets {A} (f : World -> A) : Txn A := fun w => (Return (f w), w).

Definition modify (f : World -> World) : Txn unit := fun w => (Return tt, f w).

Notation "'let*' x ':=' m 'in' k" := (bind m (fun x => k))
  (at level 10, x name, m at level 100, k at level 200).
Notation "m '>>' k" := (bind m (fun _ => k))
  (at level 100, k at level 200, right associativity).

Definition emit (e : Event) : Txn unit :=
  modify (fun w => set_trace (trace w ++ [e]) w).

Definition log (msg : string) : Txn unit := emit (EvLog msg).

(** [try: body  except: log ...; raise], with the lines the handler logs. *)
Definition try_log {A} (body : Txn A) (msgs : list string) : Txn A :=
  fun w => match body w with
           | (Return a, w') => (Return a, w')
           | (Raise e, w') => (Raise e, set_trace (trace w' ++ (EvLog <$> msgs)) w')
           end.

(** A fresh value of the sequence that numbers jobs and work. *)
Definition fresh : Txn Z :=
  fun w => (Return (next_id w), set_next_id (next_id w + 1) w).

(** ** The calls into the job library and the store *)

(** [JobItem.load(txn, jobID)] of the job library: the job row, or
    [NoSuchRecord]. *)
Definition JobItem_load (jid : Z) : Txn JobItem :=
  emit (EvSelect T_JOB) >>
  let* jobs := gets JOB in
  match jobs !! jid with
  | Some j => ret j
  | None => raise NoSuchRecord
  end.

(** [job.update(notBefore=t)] *)
Definition JobItem_update_notBefore (jid : Z) (j : JobItem) (t : Z) : Txn unit :=
  emit (EvUpdate T_JOB) >>
  modify (fun w => set_JOB (<[jid := {| job_workType := job_workType j; notBefore := t;
                                        failed := failed j; pause := pause j |}]> (JOB w)) w).

(** Modelled from the spec: [transaction.calendarHomeWithResourceID(id)] of
    the object store, which resolves a home by its stored id (section 4.2). *)
Definition calendarHomeWithResourceID (hid : Z) : Txn (option (Z * CalendarHome)) :=
  let* hs := gets homes in
  ret (match hs !! hid with Some h => Some (hid, h) | None => None end).

(** Modelled from the spec: [home.objectResourceWithID(rid)] of the object
    store, which resolves a resource by its stored id and gives [None] for a
    resource that is missing (sections 4.2 and 7); [home] may be [None], and
    then the attribute access raises. *)
Definition objectResourceWithID (home : option (Z * CalendarHome)) (rid : option Z)
  : Txn (option Resource) :=
  match home with
  | None => raise AttributeError
  | Some (hid, h) =>
      ret (match rid with
           | None => None
           | Some r => match home_objects h !! r with
                       | Some o => Some {| res_id := r; res_home := hid; res_uid := obj_uid o;
                                           componentForUser := obj_component o |}
                       | None => None
                       end
           end)
  end.

(** Modelled from the spec: [Component.fromString(text)] of
    [twistedcaldav.ical]; the text may be missing, and then it raises. *)
Definition Component_fromString (text : option Component) : Txn Component :=
  match text with
  | Some c => ret c
  | None => raise InvalidICalendarDataError
  end.

(** [home.uid()] *)
Definition home_uid_of (home : option (Z * CalendarHome)) : Txn string :=
  match home with
  | None => raise AttributeError
  | Some (_, h) => ret (home_uid h)
  end.

(** [NamedLock.acquire(txn, "ImplicitUIDLock:" + md5(uid))]: the named lock
    of section 6, keyed by the hash of the UID. *)
Definition NamedLock_acquire (uid : string) : Txn unit := emit (EvNamedLock uid).

(** Modelled from the spec: [resource._setComponentInternal(calendar,
    internal_state=state)] of the object store, which persists the updated
    calendar object (section 4.3). *)
Definition _setComponentInternal (resource : Resource) (calendar : Component)
    (state : ComponentUpdateState) : Txn unit :=
  let hid := res_home resource in
  let rid := res_id resource in
  emit (EvSetComponent hid rid state) >>
  modify (fun w =>
    match homes w !! hid with
    | None => w
    | Some h =>
        match home_objects h !! rid with
        | None => w
        | Some o =>
            set_homes (<[hid := {| home_uid := home_uid h;
                                   home_objects := <[rid := {| obj_uid := obj_uid o;
                                                               obj_component := calendar |}]>
                                                     (home_objects h) |}]> (homes w)) w
        end
    end).

(** ** Tables *)

Definition rowsOf (t : WorkType) (w : World) : list WorkRow :=
  filter (fun r => tableOf (fields r) = t) (WORK w).

(** [Record.delete()] of a SCHEDULE_WORK row: the row goes, and with it, by
    cascade, the work row that refers to it. *)
Definition ScheduleWork_delete (b : ScheduleWork) : Txn unit :=
  let* rows := gets SCHEDULE_WORK in
  if bool_decide (Exists (fun r => sw_workID r = sw_workID b) rows) then
    emit (EvDelete T_SCHEDULE_WORK) >>
    modify (fun w =>
      set_WORK (filter (fun r => workID r <> sw_workID b) (WORK w))
        (set_SCHEDULE_WORK (filter (fun r => sw_workID r <> sw_workID b) (SCHEDULE_WORK w)) w))
  else raise NoSuchRecord.

(** [Record.trylock(where)]: SELECT ... FOR UPDATE NOWAIT over the selected
    rows; it fails, without waiting, when another transaction holds one of
    them. *)
Definition ScheduleWork_trylock (uid : string) : Txn bool :=
  let* rows := gets SCHEDULE_WORK in
  let* others := gets locked_elsewhere in
  let ids := sw_workID <$> filter (fun r => sw_icalendarUID r = uid) rows in
  let ok := bool_decide (Forall (fun i => i ∉ others.1) ids) in
  emit (EvTryLockGroup uid ok) >>
  (if ok then modify (fun w => set_locked ((locked w).1 ∪ list_to_set ids, (locked w).2) w)
   else ret tt) >>
  ret ok.

Definition WorkItem_trylock (wid : Z) : Txn bool :=
  let* others := gets locked_elsewhere in
  let ok := bool_decide (wid ∉ others.2) in
  emit (EvTryLockRow wid ok) >>
  (if ok then modify (fun w => set_locked ((locked w).1, (locked w).2 ∪ {[wid]}) w)
   else ret tt) >>
  ret ok.

(** ** The scheduler's answers *)

(** Modelled from the spec: one response of a [caldavxml.ScheduleResponse],
    with the recipient and the request status, a string "N.M;text" of which
    only the prefix before the semicolon is compared (section 6). *)
Record ResponseItem := {
  recipient : string;
  reqstatus : string
}.

Record ScheduleResponse := {
  responses : list ResponseItem
}.

(** Modelled from the spec: what the scheduling collaborator of section 6
    ([ImplicitScheduler]) holds after [queuedOrganizerSending]: the resource
    it worked on and the delivery responses it queued. *)
Record ImplicitScheduler := {
  sch_resource : option Resource;
  queuedResponses : list ScheduleResponse
}.

(** [status.split(";")[0]] *)
Fixpoint split_first (sep : ascii) (s : string) : string :=
  match s with
  | EmptyString => EmptyString
  | String c rest => if Ascii.eqb c sep then EmptyString else String c (split_first sep rest)
  end.

(** Modelled from the spec: the canonical calendar user address of the owner
    of a home, which the directory gives
    ([calendarUserFromCalendarUserUID(...).record.canonicalCalendarUserAddress()]);
    work.py passes it on and logs it. *)
Definition canonicalCalendarUserAddress (uid : string) : string := "urn:x-uid:" +:+ uid.

(** The order of [order=ScheduleWork.workID]. *)
Definition workID_le (a b : ScheduleWork) : Prop := sw_workID a <= sw_workID b.

#[global] Instance workID_le_dec : RelDecision workID_le.
Proof. intros a b. unfold workID_le. apply _. Defined.

(** ** ScheduleWorkMixin *)

Module ScheduleWorkMixin.

(** [create]: the SCHEDULE_WORK row first, then the work row. *)
Definition create (jid : Z) (uid : string) (hid : Z) (rid : option Z) (f : Payload)
  : Txn WorkItem :=
  let* wid := fresh in
  let base := {| sw_workID := wid; sw_jobID := jid; sw_icalendarUID := uid;
                 sw_workType := tableOf f |} in
  emit (EvInsert T_SCHEDULE_WORK) >>
  modify (fun w => set_SCHEDULE_WORK (SCHEDULE_WORK w ++ [base]) w) >>
  let r := {| workID := wid; homeResourceID := hid; resourceID := rid; fields := f |} in
  emit (EvInsert (T_WORK (tableOf f))) >>
  modify (fun w => set_WORK (WORK w ++ [r]) w) >>
  ret {| row := r; baseWork := base |}.

(** [loadForJob] *)
Definition loadForJob (cls : WorkType) (jid : Z) : Txn (list WorkItem) :=
  emit (EvSelect T_SCHEDULE_WORK) >>
  let* baseItems := gets (fun w => filter (fun b => sw_jobID b = jid) (SCHEDULE_WORK w)) in
  foldl (fun acc baseItem =>
           let* workItems := acc in
           emit (EvSelect (T_WORK cls)) >>
           let* workItem := gets (fun w => filter (fun r => workID r = sw_workID baseItem)
                                                  (rowsOf cls w)) in
           match workItem with
           | [] => ScheduleWork_delete baseItem >> ret workItems
           | r :: _ => ret (workItems ++ [{| row := r; baseWork := baseItem |}])
           end)
        (ret []) baseItems.

(** [runlock] *)
Definition runlock (self : WorkItem) : Txn bool :=
  let* locked := ScheduleWork_trylock (icalendarUID self) in
  (if locked then WorkItem_trylock (workID (row self)) >> ret tt else ret tt) >>
  ret locked.

(** [delete] *)
Definition delete (self : WorkItem) : Txn unit := ScheduleWork_delete (baseWork self).

(** [baseWork.query(txn, expr, order=ScheduleWork.workID, limit=1)] for the
    expression of [afterWork]. *)
Definition query_next (uid : string) (wid : Z) : Txn (list ScheduleWork) :=
  emit (EvSelect T_SCHEDULE_WORK) >>
  let* rows := gets SCHEDULE_WORK in
  ret (take 1 (merge_sort workID_le
                 (filter (fun r => sw_icalendarUID r = uid /\ sw_workID r <> wid) rows))).

(** [afterWork]; the hook of the base class does nothing. *)
Definition afterWork (self : WorkItem) : Txn unit :=
  if decide (workType self = SCHEDULE_ORGANIZER_SEND_WORK) then
    let* all := query_next (icalendarUID self) (workID (row self)) in
    match all with
    | [] => ret tt
    | work :: _ =>
        if decide (sw_workType work = workType self) then
          let* job := JobItem_load (sw_jobID work) in
          let* now := gets utcnow in
          JobItem_update_notBefore (sw_jobID work) job now >>
          log "ScheduleOrganizerSendWork - promoted job"
        else ret tt
    end
  else ret tt.

(** [_enqueued] *)
Definition _enqueued : Txn unit :=
  modify (fun w => set_queued (_queued w + 1) w).

(** [_dequeued] *)
Definition _dequeued : Txn unit :=
  modify (fun w => set_queued (_queued w - 1) w) >>
  let* q := gets _queued in
  let* cb := gets _allDoneCallback in
  if decide (q = 0) then (if cb then emit EvPostCommit else ret tt) else ret tt.

(** [extractSchedulingResponse] *)
Definition extractSchedulingResponse (queuedResponses : list ScheduleResponse)
  : list (string * string) * bool :=
  foldl (fun acc response =>
           foldl (fun '(results, all_delivered) item =>
                    let statusCode := split_first ";" (reqstatus item) in
                    (results ++ [(recipient item, statusCode)],
                     if decide (statusCode <> iTIPRequestStatus.MESSAGE_DELIVERED_CODE)
                     then false else all_delivered))
                 acc (responses response))
        ([], true) queuedResponses.

(** The properties [handleSchedulingResponse] indexes by value. *)
Definition propertiesFor (is_organizer : bool) (calendar : Component) : list Property :=
  if is_organizer then getAllAttendeeProperties calendar else getOrganizerProperties calendar.

Definition withProperties (is_organizer : bool) (ps : list Property) (calendar : Component)
  : Component :=
  if is_organizer then
    {| resourceUID := resourceUID calendar;
       validOrganizerForScheduling := validOrganizerForScheduling calendar;
       getOrganizerProperties := getOrganizerProperties calendar;
       getAllAttendeeProperties := ps |}
  else
    {| resourceUID := resourceUID calendar;
       validOrganizerForScheduling := validOrganizerForScheduling calendar;
       getOrganizerProperties := ps;
       getAllAttendeeProperties := getAllAttendeeProperties calendar |}.

(** [handleSchedulingResponse]: the properties are objects of the calendar,
    so setting a parameter changes the calendar; the result is the flag and
    the calendar as the loop leaves it. *)
Definition handleSchedulingResponse (response : list (string * string))
    (calendar : Component) (is_organizer : bool) : bool * Component :=
  let '(changed, ps) :=
    foldl (fun '(changed, ps) '(recipient, statusCode) =>
             if decide (statusCode <> iTIPRequestStatus.MESSAGE_DELIVERED_CODE) then
               (changed || bool_decide (Exists (fun p => value p = recipient) ps),
                (fun p => if decide (value p = recipient)
                          then setParameter "SCHEDULE-STATUS" statusCode p else p) <$> ps)
             else (changed, ps))
          (false, propertiesFor is_organizer calendar) response in
  (changed, withProperties is_organizer ps calendar).

(** [checkTemporaryFailure]: the list is changed in place, so the list as
    the call leaves it is the result. *)
Definition checkTemporaryFailure (self : WorkItem) (results : list (string * string))
  : Txn (list (string * string)) :=
  if forallb (fun result => bool_decide (result.2 = iTIPRequestStatus.MESSAGE_PENDING_CODE))
             results then
    let* job := JobItem_load (jobID self) in
    let* cfg := gets config in
    if decide (failed job >= MaxTemporaryFailures cfg) then
      ret ((fun result => (result.1, iTIPRequestStatus.SERVICE_UNAVAILABLE_CODE)) <$> results)
    else raise (JobTemporaryError (TemporaryFailureDelay cfg))
  else ret results.

(** [hasWork]: whether the table of the class has a row. *)
Definition hasWork (cls : WorkType) : Txn bool :=
  emit (EvSelect (T_WORK cls)) >>
  let* rows := gets (rowsOf cls) in
  ret (bool_decide (0 < length rows)%nat).



End ScheduleWorkMixin.

(** [txn.enqueue(cls, notBefore=..., pause=..., **kwargs)]: the job library
    files a job and has the class create its work. *)
Definition enqueue (uid : string) (hid : Z) (rid : option Z) (f : Payload)
    (nb : Z) (paused : Z) : Txn WorkItem :=
  let* jid := fresh in
  emit (EvInsert T_JOB) >>
  modify (fun w => set_JOB (<[jid := {| job_workType := tableOf f; notBefore := nb;
                                        failed := 0; pause := paused |}]> (JOB w)) w) >>
  ScheduleWorkMixin.create jid uid hid rid f.

(** [home.id()] *)
Definition home_id_of (home : option (Z * CalendarHome)) : Txn Z :=
  match home with
  | None => raise AttributeError
  | Some (hid, _) => ret hid
  end.

(** [resource.id() if resource else None] *)
Definition resource_id_or_None (resource : option Resource) : option Z :=
  res_id <$> resource.

(** The callback of [migrate]: from the resource id of the work to the home
    and the resource on the destination. *)
Definition MapIDs : Type := option Z -> option (Z * CalendarHome) * option Resource.

(** ** ScheduleOrganizerWork *)

Module ScheduleOrganizerWork.

(** [schedule] *)
Definition schedule (uid : string) (action : ScheduleAction)
    (home : option (Z * CalendarHome)) (resource : option Resource)
    (calendar_old calendar_new : option Component) (organizer : string)
    (attendee_count : Z) (smart_merge : bool) (paused : Z) : Txn unit :=
  let* now := gets utcnow in
  let* cfg := gets config in
  let notBefore := now + RequestDelaySeconds cfg in
  let* hid := home_id_of home in
  let* work := enqueue uid hid (resource_id_or_None resource)
                 (OrganizerFields action calendar_old calendar_new attendee_count smart_merge)
                 notBefore paused in
  ScheduleWorkMixin._enqueued >>
  log "ScheduleOrganizerWork - enqueued".

(** [migrate] *)
Definition migrate (self : WorkItem) (mapIDsCallback : MapIDs) : Txn bool :=
  match fields (row self) with
  | OrganizerFields scheduleAction icalendarTextOld icalendarTextNew attendeeCount smartMerge =>
      let '(new_home, new_resource) := mapIDsCallback (resourceID (row self)) in
      if bool_decide (resourceID (row self) <> None /\ new_resource = None) then ret false
      else
        let* uid :=
          match icalendarTextOld with
          | Some calendar_old => ret (resourceUID calendar_old)
          | None => let* calendar_new := Component_fromString icalendarTextNew in
                    ret (resourceUID calendar_new)
          end in
        let* organizer := home_uid_of new_home in
        schedule uid scheduleAction new_home new_resource icalendarTextOld icalendarTextNew
          organizer attendeeCount smartMerge 1 >>
        ret true
  | _ => raise AttributeError
  end.

(** [doWork]; [queuedOrganizerProcessing] is the call into the implicit
    scheduler, with the arguments work.py gives it after the transaction. *)
Definition doWork (self : WorkItem)
    (queuedOrganizerProcessing :
       ScheduleAction -> option (Z * CalendarHome) -> option Resource -> string ->
       option Component -> option Component -> bool -> Txn unit) : Txn unit :=
  match fields (row self) with
  | OrganizerFields scheduleAction icalendarTextOld icalendarTextNew attendeeCount smartMerge =>
      try_log
        (let* home := calendarHomeWithResourceID (homeResourceID (row self)) in
         let* resource := objectResourceWithID home (resourceID (row self)) in
         let* huid := home_uid_of home in
         let organizer := canonicalCalendarUserAddress huid in
         let calendar_old := icalendarTextOld in
         let calendar_new := icalendarTextNew in
         log "ScheduleOrganizerWork - running" >>
         NamedLock_acquire (icalendarUID self) >>
         queuedOrganizerProcessing scheduleAction home resource (icalendarUID self)
           calendar_old calendar_new smartMerge >>
         ScheduleWorkMixin._dequeued)
        ["ScheduleOrganizerWork - exception"; "traceback"] >>
      log "ScheduleOrganizerWork - done"
  | _ => raise AttributeError
  end.

End ScheduleOrganizerWork.

(** ** ScheduleOrganizerSendWork *)

Module ScheduleOrganizerSendWork.

(** [schedule] *)
Definition schedule (action : ScheduleAction) (home : option (Z * CalendarHome))
    (resource : option Resource) (organizer attendee : string) (itipmsg : Component)
    (no_refresh : bool) (stagger : Z) (paused : Z) : Txn unit :=
  let* now := gets utcnow in
  let* cfg := gets config in
  let notBefore := now + (RequestDelaySeconds cfg + stagger) in
  let uid := resourceUID itipmsg in
  let* hid := home_id_of home in
  let* work := enqueue uid hid (resource_id_or_None resource)
                 (OrganizerSendFields action attendee (Some itipmsg) no_refresh)
                 notBefore paused in
  ScheduleWorkMixin._enqueued >>
  log "ScheduleOrganizerSendWork - enqueued".

(** [migrate]; [itipmsg] is bound only when the column holds a text, and
    the arguments of the call are evaluated from left to right. *)
Definition migrate (self : WorkItem) (mapIDsCallback : MapIDs) : Txn bool :=
  match fields (row self) with
  | OrganizerSendFields scheduleAction attendee itipMsg noRefresh =>
      let '(new_home, new_resource) := mapIDsCallback (resourceID (row self)) in
      if bool_decide (resourceID (row self) <> None /\ new_resource = None) then ret false
      else
        let* organizer := home_uid_of new_home in
        match itipMsg with
        | None => raise UnboundLocalError
        | Some itipmsg =>
            schedule scheduleAction new_home new_resource organizer attendee itipmsg
              noRefresh 0 1 >>
            ret true
        end
  | _ => raise AttributeError
  end.

(** [doWork]; [scheduler] is the implicit scheduler after
    [queuedOrganizerSending] has returned. *)
Definition doWork (self : WorkItem) (scheduler : ImplicitScheduler) : Txn unit :=
  match fields (row self) with
  | OrganizerSendFields scheduleAction attendee itipMsg noRefresh =>
      try_log
        (let* home := calendarHomeWithResourceID (homeResourceID (row self)) in
         let* resource := objectResourceWithID home (resourceID (row self)) in
         let* itipmsg := Component_fromString itipMsg in
         let* huid := home_uid_of home in
         let organizer := canonicalCalendarUserAddress huid in
         log "ScheduleOrganizerSendWork - running" >>
         NamedLock_acquire (icalendarUID self) >>
         emit (EvOrganizerSending (icalendarUID self) attendee) >>
         (match sch_resource scheduler with
          | Some resource =>
              let '(responses, all_delivered) :=
                ScheduleWorkMixin.extractSchedulingResponse (queuedResponses scheduler) in
              if negb all_delivered then
                let* responses := ScheduleWorkMixin.checkTemporaryFailure self responses in
                let calendar := componentForUser resource in
                let '(changed, calendar) :=
                  ScheduleWorkMixin.handleSchedulingResponse responses calendar true in
                if changed then _setComponentInternal resource calendar ORGANIZER_ITIP_UPDATE
                else ret tt
              else ret tt
          | None => ret tt
          end) >>
         ScheduleWorkMixin._dequeued)
        ["ScheduleOrganizerSendWork - exception"; "traceback"] >>
      log "ScheduleOrganizerSendWork - done"
  | _ => raise AttributeError
  end.

End ScheduleOrganizerSendWork.

(** ** ScheduleReplyWork *)

Module ScheduleReplyWork.

(** [reply] *)
Definition reply (home : option (Z * CalendarHome)) (resource : option Resource)
    (itipmsg : Component) (attendee : string) (paused : Z) : Txn unit :=
  let* now := gets utcnow in
  let* cfg := gets config in
  let notBefore := now + ReplyDelaySeconds cfg in
  let uid := resourceUID itipmsg in
  let* hid := home_id_of home in
  let* work := enqueue uid hid (resource_id_or_None resource)
                 (ReplyFields (Some itipmsg)) notBefore paused in
  ScheduleWorkMixin._enqueued >>
  log "ScheduleReplyWork - enqueued".

(** [migrate] *)
Definition migrate (self : WorkItem) (mapIDsCallback : MapIDs) : Txn bool :=
  match fields (row self) with
  | ReplyFields itipMsg =>
      let '(new_home, new_resource) := mapIDsCallback (resourceID (row self)) in
      if bool_decide (resourceID (row self) <> None /\ new_resource = None) then ret false
      else
        match itipMsg with
        | None => raise UnboundLocalError
        | Some itipmsg =>
            let* attendee := home_uid_of new_home in
            reply new_home new_resource itipmsg attendee 1 >>
            ret true
        end
  | _ => raise AttributeError
  end.

(** [sendToOrganizer]; [response] is what [doSchedulingViaPUT] answers. *)
Definition sendToOrganizer (itipmsg : Component) (originator recipient : string)
    (response : ScheduleResponse) : Txn ScheduleResponse :=
  log "Implicit REPLY" >>
  emit (EvReplyToOrganizer (resourceUID itipmsg) recipient) >>
  ret response.

(** [doWork]; the handlers of the exceptions read [itipmsg], which is not
    bound when the exception comes from the two lookups before it. *)
Definition doWork (self : WorkItem) (response : ScheduleResponse) : Txn unit :=
  match fields (row self) with
  | ReplyFields itipMsg =>
      fun w =>
        match (let* home := calendarHomeWithResourceID (homeResourceID (row self)) in
               let* resource := objectResourceWithID home (resourceID (row self)) in
               let* itipmsg := Component_fromString itipMsg in
               ret (home, resource, itipmsg)) w with
        | (Raise _, w') => (Raise UnboundLocalError, w')
        | (Return (home, resource, itipmsg), w') =>
            (try_log
               (let* huid := home_uid_of home in
                let attendee := canonicalCalendarUserAddress huid in
                let organizer := validOrganizerForScheduling itipmsg in
                log "ScheduleReplyWork - running" >>
                NamedLock_acquire (resourceUID itipmsg) >>
                let* response := sendToOrganizer itipmsg attendee organizer response in
                (match resource with
                 | Some resource =>
                     let '(responses, all_delivered) :=
                       ScheduleWorkMixin.extractSchedulingResponse [response] in
                     if negb all_delivered then
                       let* responses := ScheduleWorkMixin.checkTemporaryFailure self responses in
                       let calendar := componentForUser resource in
                       let '(changed, calendar) :=
                         ScheduleWorkMixin.handleSchedulingResponse responses calendar false in
                       if changed then _setComponentInternal resource calendar ATTENDEE_ITIP_UPDATE
                       else ret tt
                     else ret tt
                 | None => ret tt
                 end) >>
                ScheduleWorkMixin._dequeued)
               ["ScheduleReplyWork - exception"] >>
             log "ScheduleReplyWork - done") w'
        end
  | _ => raise AttributeError
  end.

End ScheduleReplyWork.

(** ** Python lists *)

(** [l[:n]] and [l[n:]]; a negative [n] counts from the end. *)
Definition slice_to {A} (n : Z) (l : list A) : list A :=
  if decide (0 <= n) then take (Z.to_nat n) l
  else take (length l - Z.to_nat (- n))%nat l.

Definition slice_from {A} (n : Z) (l : list A) : list A :=
  if decide (0 <= n) then drop (Z.to_nat n) l
  else drop (length l - Z.to_nat (- n))%nat l.

(** [list(set(l))]: each value once, in the order the set gives them. *)
Definition list_of_set (l : list string) : list string :=
  elements (list_to_set l : gset string).

(** ** ScheduleRefreshWork *)

Module ScheduleRefreshWork.

(** [Select [sra.ATTENDEE] From sra Where sra.RESOURCE_ID == rid] *)
Definition select_attendees (rid : option Z) : Txn (list string) :=
  emit (EvSelect T_SCHEDULE_REFRESH_ATTENDEES) >>
  gets (fun w => snd <$> filter (fun r => Some r.1 = rid) (SCHEDULE_REFRESH_ATTENDEES w)).

(** [Insert {sra.RESOURCE_ID: rid, sra.ATTENDEE: attendee}] *)
Definition insert_attendee (rid : Z) (attendee : string) : Txn unit :=
  emit (EvInsert T_SCHEDULE_REFRESH_ATTENDEES) >>
  modify (fun w => set_SCHEDULE_REFRESH_ATTENDEES
                     (SCHEDULE_REFRESH_ATTENDEES w ++ [(rid, attendee)]) w).

(** [Delete From sra Where RESOURCE_ID == rid And ATTENDEE In batch] *)
Definition delete_attendees (rid : option Z) (batch : list string) : Txn unit :=
  emit (EvDelete T_SCHEDULE_REFRESH_ATTENDEES) >>
  modify (fun w => set_SCHEDULE_REFRESH_ATTENDEES
                     (filter (fun r => ~ (Some r.1 = rid /\ r.2 ∈ batch))
                             (SCHEDULE_REFRESH_ATTENDEES w)) w).

(** [refreshAttendees] *)
Definition refreshAttendees (organizer_resource : Resource) (attendees : list string)
    (paused : Z) : Txn unit :=
  let* pendingAttendees := select_attendees (Some (res_id organizer_resource)) in
  let attendeesToRefresh :=
    elements ((list_to_set attendees : gset string) ∖ list_to_set pendingAttendees) in
  foldl (fun acc attendee => acc >> insert_attendee (res_id organizer_resource) attendee)
        (ret tt) attendeesToRefresh >>
  let* now := gets utcnow in
  let* cfg := gets config in
  let notBefore := now + AttendeeRefreshBatchDelaySeconds cfg in
  let* work := enqueue (res_uid organizer_resource) (res_home organizer_resource)
                 (Some (res_id organizer_resource))
                 (RefreshFields (Z.of_nat (length attendees))) notBefore paused in
  ScheduleWorkMixin._enqueued >>
  log "ScheduleRefreshWork - enqueued".

(** [migrate]; [_refreshAttendees] is the attribute [deserialize] sets. *)
Definition migrate (self : WorkItem) (_refreshAttendees : list string)
    (mapIDsCallback : MapIDs) : Txn bool :=
  let '(_ignore_new_home, new_resource) := mapIDsCallback (resourceID (row self)) in
  match new_resource with
  | None => ret false
  | Some new_resource =>
      refreshAttendees new_resource _refreshAttendees 1 >>
      ret true
  end.

(** [_doRefresh] *)
Definition _doRefresh (organizer_resource : Resource) (only_attendees : list string)
  : Txn unit :=
  log "ImplicitProcessing - refreshing" >>
  emit (EvRefresh (res_uid organizer_resource) only_attendees).

(** [_doDelayedRefresh] *)
Definition _doDelayedRefresh (self : WorkItem) (attendeesToProcess : list string)
  : Txn unit :=
  let* organizer_home := calendarHomeWithResourceID (homeResourceID (row self)) in
  let* organizer_resource := objectResourceWithID organizer_home (resourceID (row self)) in
  match organizer_resource with
  | Some organizer_resource =>
      try_log
        (NamedLock_acquire (res_uid organizer_resource) >>
         _doRefresh organizer_resource attendeesToProcess)
        ["ImplicitProcessing - refresh exception"]
  | None => log "ImplicitProcessing - skipping refresh of missing ID"
  end.

(** [doWork] *)
Definition doWork (self : WorkItem) : Txn unit :=
  emit (EvSelect (T_WORK SCHEDULE_REFRESH_WORK)) >>
  let* rows := gets (fun w =>
      filter (fun r => homeResourceID r = homeResourceID (row self)
                       /\ resourceID r = resourceID (row self))
             (rowsOf SCHEDULE_REFRESH_WORK w)) in
  match rows with
  | _ :: _ => log "Schedule refresh for resource-id - ignored"
  | [] =>
      log "ScheduleRefreshWork - running" >>
      let* pendingAttendees := select_attendees (resourceID (row self)) in
      let pendingAttendees := list_of_set pendingAttendees in
      if decide (length pendingAttendees = 0%nat) then ret tt
      else
        let* cfg := gets config in
        let attendeesToProcess := slice_to (AttendeeRefreshBatch cfg) pendingAttendees in
        let pendingAttendees := slice_from (AttendeeRefreshBatch cfg) pendingAttendees in
        delete_attendees (resourceID (row self)) attendeesToProcess >>
        (if decide (length pendingAttendees <> 0%nat) then
           let* now := gets utcnow in
           let notBefore := now + AttendeeRefreshBatchIntervalSeconds cfg in
           let* work := enqueue (icalendarUID self) (homeResourceID (row self))
                          (resourceID (row self))
                          (RefreshFields (Z.of_nat (length pendingAttendees))) notBefore 0 in
           ScheduleWorkMixin._enqueued
         else ret tt) >>
        _doDelayedRefresh self attendeesToProcess >>
        ScheduleWorkMixin._dequeued >>
        log "ScheduleRefreshWork - done"
  end.

(** [serializeWithAncillaryData] *)
Definition serializeWithAncillaryData (self : WorkItem) : Txn AttrMap :=
  let result := row self in
  let* rows := select_attendees (resourceID (row self)) in
  ret {| attributes := result; refreshAttendees_entry := Some rows |}.

(** [deserialize]: the record and its [_refreshAttendees]; [None] is the
    [KeyError] of [attrmap.pop] on a map without the entry. *)
Definition deserialize (attrmap : AttrMap) : option (WorkRow * list string) :=
  match refreshAttendees_entry attrmap with
  | None => None
  | Some attendees => Some (attributes attrmap, attendees)
  end.

End ScheduleRefreshWork.

(** ** ScheduleAutoReplyWork *)

Module ScheduleAutoReplyWork.

(** [autoReply] *)
Definition autoReply (resource : Resource) (partstat : string) (paused : Z) : Txn unit :=
  let* now := gets utcnow in
  let* cfg := gets config in
  let notBefore := now + AutoReplyDelaySeconds cfg in
  let* work := enqueue (res_uid resource) (res_home resource) (Some (res_id resource))
                 (AutoReplyFields partstat) notBefore paused in
  ScheduleWorkMixin._enqueued >>
  log "ScheduleAutoReplyWork - enqueued".

(** [migrate] *)
Definition migrate (self : WorkItem) (mapIDsCallback : MapIDs) : Txn bool :=
  match fields (row self) with
  | AutoReplyFields partstat =>
      let '(_ignore_new_home, new_resource) := mapIDsCallback (resourceID (row self)) in
      match new_resource with
      | None => ret false
      | Some new_resource =>
          autoReply new_resource partstat 1 >>
          ret true
      end
  | _ => raise AttributeError
  end.

(** [_sendAttendeeAutoReply] *)
Definition _sendAttendeeAutoReply (self : WorkItem) : Txn unit :=
  let* home := calendarHomeWithResourceID (homeResourceID (row self)) in
  let* resource := objectResourceWithID home (resourceID (row self)) in
  match resource with
  | Some resource =>
      try_log
        (NamedLock_acquire (res_uid resource) >>
         log "ImplicitProcessing - recipient processing UID - auto-reply" >>
         emit (EvAttendeeReply (res_home resource) (res_id resource)))
        ["ImplicitProcessing - auto-reply exception"]
  | None => log "ImplicitProcessing - skipping auto-reply of missing ID"
  end.

(** [doWork] *)
Definition doWork (self : WorkItem) : Txn unit :=
  log "ScheduleAutoReplyWork - running" >>
  emit (EvDelete (T_WORK SCHEDULE_AUTO_REPLY_WORK)) >>
  modify (fun w =>
    set_WORK (filter (fun r => ~ (tableOf (fields r) = SCHEDULE_AUTO_REPLY_WORK
                                  /\ resourceID r = resourceID (row self)))
                     (WORK w)) w) >>
  _sendAttendeeAutoReply self >>
  ScheduleWorkMixin._dequeued >>
  log "ScheduleAutoReplyWork - done".

End ScheduleAutoReplyWork.

(** ** The job library's run of an auto-reply job *)

Module JobItem.

(** Modelled at the calls it makes into work.py: [JobItem.run] loads the
    work of the job with [loadForJob] and goes on only with exactly one
    work item; it takes the locks with [runlock], deletes the work item
    ([beforeWork]), then calls [doWork] and [afterWork]. *)
Definition run (jid : Z) : Txn unit :=
  let* workItems := ScheduleWorkMixin.loadForJob SCHEDULE_AUTO_REPLY_WORK jid in
  match workItems with
  | [workItem] =>
      let* locked := ScheduleWorkMixin.runlock workItem in
      if locked then
        ScheduleWorkMixin.delete workItem >>
        ScheduleAutoReplyWork.doWork workItem >>
        ScheduleWorkMixin.afterWork workItem
      else raise JobRunningError
  | _ => ret tt
  end.

(** The end of a transaction: the locks go; after an exception the tables
    and the store are as they were, while what was sent stays sent. *)
Definition commit (w' : World) : World := set_locked (∅, ∅) w'.

Definition rollback (w w' : World) : World :=
  set_locked (∅, ∅)
    (set_homes (homes w)
       (set_JOB (JOB w)
          (set_SCHEDULE_REFRESH_ATTENDEES (SCHEDULE_REFRESH_ATTENDEES w)
             (set_WORK (WORK w) (set_SCHEDULE_WORK (SCHEDULE_WORK w) w'))))).

Definition inTransaction (t : Txn unit) (w : World) : World :=
  match t w with
  | (Return _, w') => commit w'
  | (Raise _, w') => rollback w w'
  end.

(** The jobs of a burst, each in a transaction of its own. *)
Definition runAll (jobs : list Z) (w : World) : World :=
  foldl (fun w jid => inTransaction (run jid) w) w jobs.

End JobItem.

(** ** Migration of a work item of any class *)

(** [migrate] of the class of the work item. *)
Definition migrate (self : WorkItem) (_refreshAttendees : list string)
    (mapIDsCallback : MapIDs) : Txn bool :=
  match workType self with
  | SCHEDULE_ORGANIZER_WORK => ScheduleOrganizerWork.migrate self mapIDsCallback
  | SCHEDULE_ORGANIZER_SEND_WORK => ScheduleOrganizerSendWork.migrate self mapIDsCallback
  | SCHEDULE_REPLY_WORK => ScheduleReplyWork.migrate self mapIDsCallback
  | SCHEDULE_REFRESH_WORK => ScheduleRefreshWork.migrate self _refreshAttendees mapIDsCallback
  | SCHEDULE_AUTO_REPLY_WORK => ScheduleAutoReplyWork.migrate self mapIDsCallback
  end.

(** * The vocabulary of the properties *)

(** The replies sent for a resource, as the trace has them. *)
Definition isReplyFor (rid : Z) (e : Event) : bool :=
  match e with
  | EvAttendeeReply _ r => bool_decide (r = rid)
  | _ => false
  end.

Definition repliesSent (rid : Z) (w : World) : nat :=
  length (filter (fun e => isReplyFor rid e = true) (trace w)).

(** The attendees pending for a resource, each once. *)
Definition pendingSet (rid : Z) (w : World) : gset string :=
  list_to_set (snd <$> filter (fun r => r.1 = rid) (SCHEDULE_REFRESH_ATTENDEES w)).

(** Events that take a lock, send a scheduling message or write calendar
    data. *)
Definition touches (e : Event) : bool :=
  match e with
  | EvTryLockGroup _ _ | EvTryLockRow _ _ | EvNamedLock _
  | EvOrganizerSending _ _ | EvReplyToOrganizer _ _ | EvRefresh _ _
  | EvAttendeeReply _ _ | EvSetComponent _ _ _ => true
  | _ => false
  end.

(** The auto-reply rows queued for the resource. *)
Definition queuedFor (rid : Z) (w : World) : list WorkRow :=
  filter (fun r => tableOf (fields r) = SCHEDULE_AUTO_REPLY_WORK /\ resourceID r = Some rid)
         (WORK w).

(** A step that sends no reply for the resource and adds no work row. *)
Definition quietly (rid : Z) (w w1 : World) : Prop :=
  WORK w1 `sublist_of` WORK w /\ repliesSent rid w1 = repliesSent rid w /\
  homes w1 = homes w.

(** What [loadForJob] has in hand between two base rows. *)
Definition loading (rid : Z) (cls : WorkType) (w : World) (acc : Txn (list WorkItem)) : Prop :=
  exists r w1, acc w = (r, w1) /\ quietly rid w w1 /\
    forall items, r = Return items ->
      Forall (fun it => row it ∈ WORK w /\ tableOf (fields (row it)) = cls) items.

(** Either no reply more than [n] was sent, or one more was and no
    auto-reply is queued for the resource. *)
Definition settled (rid : Z) (n : nat) (w : World) : Prop :=
  repliesSent rid w = n \/ (repliesSent rid w = S n /\ queuedFor rid w = []).

(** The oldest other row of SCHEDULE_WORK with the iCalendar UID of the
    item: the one with the least work id, if there is any. *)
Definition oldestSibling (self : WorkItem) (w : World) (o : option ScheduleWork) : Prop :=
  let other r := sw_icalendarUID r = icalendarUID self /\ sw_workID r <> workID (row self) in
  match o with
  | None => forall r, r ∈ SCHEDULE_WORK w -> ~ other r
  | Some s =>
      s ∈ SCHEDULE_WORK w /\ other s /\
      forall r, r ∈ SCHEDULE_WORK w -> other r -> r = s \/ sw_workID s < sw_workID r
  end.

(** The world after the job [jid] has been promoted. *)
Definition promoted (jid : Z) (job : JobItem) (w : World) : World :=
  set_trace (trace w ++ [EvSelect T_SCHEDULE_WORK; EvSelect T_JOB; EvUpdate T_JOB;
                         EvLog "ScheduleOrganizerSendWork - promoted job"])
    (set_JOB (<[jid := {| job_workType := job_workType job; notBefore := utcnow w;
                          failed := failed job; pause := pause job |}]> (JOB w)) w).




(** An event that writes calendar data. *)
Definition writesCalendar (e : Event) : bool :=
  match e with
  | EvSetComponent _ _ _ => true
  | _ => false
  end.

(** From [w] to [w'] the store is the same and the trace has gained no write
    of calendar data. *)
Definition noCalendarWrite (w w' : World) : Prop :=
  homes w' = homes w /\
  exists t, trace w' = trace w ++ t /\ Forall (fun e => writesCalendar e = false) t.

(** The results with every status code replaced by the code for a service
    that is not available. *)
Definition unavailable (results : list (string * string)) : list (string * string) :=
  (fun result => (result.1, iTIPRequestStatus.SERVICE_UNAVAILABLE_CODE)) <$> results.

(** How a run that found every result pending ends: below the maximum of
    failures it raises the temporary error with the configured delay and has
    written no calendar data; from the maximum on it returns, and the
    calendar it has written, if any property matched, is the calendar with
    the rewritten codes recorded. *)
Definition retryOutcome (results : list (string * string)) (job : JobItem)
    (resource : Resource) (is_organizer : bool) (state : ComponentUpdateState)
    (w : World) (run : Result unit * World) : Prop :=
  if decide (failed job >= MaxTemporaryFailures (config w)) then
    exists w',
      run = (Return tt, w') /\
      let '(changed, calendar) :=
        ScheduleWorkMixin.handleSchedulingResponse (unavailable results)
          (componentForUser resource) is_organizer in
      if changed then
        homes w' = homes (_setComponentInternal resource calendar state w).2 /\
        EvSetComponent (res_home resource) (res_id resource) state ∈ trace w'
      else noCalendarWrite w w'
  else
    exists w',
      run = (Raise (JobTemporaryError (TemporaryFailureDelay (config w))), w') /\
      noCalendarWrite w w'.

(** The SCHEDULE-STATUS of the attendees in the stored calendar object. *)
Definition storedAttendeeStatus (w : World) (hid rid : Z) : list (string * option string) :=
  match homes w !! hid with
  | Some h =>
      match home_objects h !! rid with
      | Some o => (fun p => (value p, parameters p !! "SCHEDULE-STATUS"))
                    <$> getAllAttendeeProperties (obj_component o)
      | None => []
      end
  | None => []
  end.

(** * Example worlds *)

Definition example_config : Config :=
  {| RequestDelaySeconds := 5; ReplyDelaySeconds := 5;
     AutoReplyDelaySeconds := 5; AttendeeRefreshBatch := 5;
     AttendeeRefreshBatchDelaySeconds := 5;
     AttendeeRefreshBatchIntervalSeconds := 5;
     MaxTemporaryFailures := 10; TemporaryFailureDelay := 60 |}.

(** A world at time 1000 with nothing locked and an empty trace. *)
Definition example_world (sw : list ScheduleWork) (work : list WorkRow)
    (sra : list (Z * string)) (jobs : gmap Z JobItem) (hs : gmap Z CalendarHome) : World :=
  {| config := example_config; utcnow := 1000;
     SCHEDULE_WORK := sw; WORK := work; SCHEDULE_REFRESH_ATTENDEES := sra;
     JOB := jobs; homes := hs;
     locked_elsewhere := (∅, ∅); locked := (∅, ∅);
     next_id := 20; _queued := 2; _allDoneCallback := false; trace := [] |}.

Definition example_component : Component :=
  {| resourceUID := "uid1"; validOrganizerForScheduling := "mailto:org";
     getOrganizerProperties := [ {| value := "mailto:org"; parameters := ∅ |} ];
     getAllAttendeeProperties := [ {| value := "mailto:a"; parameters := ∅ |};
                                   {| value := "mailto:b"; parameters := ∅ |} ] |}.

(** Home 10 of user "user01" with the calendar object 1. *)
Definition example_homes : gmap Z CalendarHome :=
  {[ 10 := {| home_uid := "user01";
              home_objects := {[ 1 := {| obj_uid := "uid1";
                                         obj_component := example_component |} ]} |} ]}.

Definition refresh_world : World :=
  example_world
    [ {| sw_workID := 2; sw_jobID := 12; sw_icalendarUID := "uid1";
         sw_workType := SCHEDULE_REFRESH_WORK |} ]
    [ {| workID := 2; homeResourceID := 10; resourceID := Some 1;
         fields := RefreshFields 1 |} ]
    [(1, "mailto:a")]
    {[ 12 := {| job_workType := SCHEDULE_REFRESH_WORK; notBefore := 1005;
                failed := 0; pause := 0 |} ]}
    example_homes.

Definition refresh_item (wid jid : Z) : WorkItem :=
  {| row := {| workID := wid; homeResourceID := 10; resourceID := Some 1;
               fields := RefreshFields 1 |};
     baseWork := {| sw_workID := wid; sw_jobID := jid; sw_icalendarUID := "uid1";
                    sw_workType := SCHEDULE_REFRESH_WORK |} |}.

Definition drain_world : World :=
  example_world [] []
    [(1, "mailto:a"); (2, "mailto:a"); (1, "mailto:b"); (1, "mailto:a")]
    ∅ example_homes.

Definition last_batch_world : World :=
  example_world [] [] [(1, "mailto:a"); (1, "mailto:a")] ∅ example_homes.

(** Home 10 without the calendar object 1. *)
Definition gone_world : World :=
  example_world [] [] [(1, "mailto:a")] ∅
    {[ 10 := {| home_uid := "user01"; home_objects := ∅ |} ]}.

(** Three auto-replies queued for resource 1 of home 10, one per job. *)
Definition burst_world : World :=
  example_world
    [ {| sw_workID := 1; sw_jobID := 11; sw_icalendarUID := "uid1";
         sw_workType := SCHEDULE_AUTO_REPLY_WORK |};
      {| sw_workID := 2; sw_jobID := 12; sw_icalendarUID := "uid1";
         sw_workType := SCHEDULE_AUTO_REPLY_WORK |};
      {| sw_workID := 3; sw_jobID := 13; sw_icalendarUID := "uid1";
         sw_workType := SCHEDULE_AUTO_REPLY_WORK |} ]
    [ {| workID := 1; homeResourceID := 10; resourceID := Some 1;
         fields := AutoReplyFields "ACCEPTED" |};
      {| workID := 2; homeResourceID := 10; resourceID := Some 1;
         fields := AutoReplyFields "ACCEPTED" |};
      {| workID := 3; homeResourceID := 10; resourceID := Some 1;
         fields := AutoReplyFields "DECLINED" |} ]
    [] ∅ example_homes.

Definition send_row (wid : Z) : WorkRow :=
  {| workID := wid; homeResourceID := 10; resourceID := Some 1;
     fields := OrganizerSendFields ActionModify "mailto:a" (Some example_component) false |}.

Definition send_base (wid jid : Z) : ScheduleWork :=
  {| sw_workID := wid; sw_jobID := jid; sw_icalendarUID := "uid1";
     sw_workType := SCHEDULE_ORGANIZER_SEND_WORK |}.

Definition send_item (wid jid : Z) : WorkItem :=
  {| row := send_row wid; baseWork := send_base wid jid |}.

Definition send_job (t : Z) (failures : Z) : JobItem :=
  {| job_workType := SCHEDULE_ORGANIZER_SEND_WORK; notBefore := t;
     failed := failures; pause := 0 |}.

(** Item 1 has run and was deleted; items 3 and 2 wait, staggered. *)
Definition chain_world : World :=
  example_world [send_base 3 13; send_base 2 12] [send_row 3; send_row 2] []
    {[ 12 := send_job 5000 0; 13 := send_job 6000 0 ]} example_homes.

(** The destination knows home 50 and, in the second callback, resource 7. *)
Definition new_home : Z * CalendarHome :=
  (50, {| home_uid := "user01"; home_objects := ∅ |}).


Definition maps_to_resource : MapIDs :=
  fun _ => (Some new_home,
            Some {| res_id := 7; res_home := 50; res_uid := "uid1";
                    componentForUser := example_component |}).

Definition example_resource : Resource :=
  {| res_id := 1; res_home := 10; res_uid := "uid1"; componentForUser := example_component |}.

(** The job 11 of the running item, with its failures so far; the rows of the
    item itself were deleted before [doWork]. *)
Definition retry_world (failures : Z) : World :=
  example_world [] [] [] {[ 11 := send_job 1000 failures ]} example_homes.

Definition pending_scheduler : ImplicitScheduler :=
  {| sch_resource := Some example_resource;
     queuedResponses :=
       [ {| responses := [ {| recipient := "mailto:a"; reqstatus := "1.0;Pending" |} ] |} ] |}.

Definition mixed_scheduler : ImplicitScheduler :=
  {| sch_resource := Some example_resource;
     queuedResponses :=
       [ {| responses := [ {| recipient := "mailto:a"; reqstatus := "1.2;Delivered" |};
                           {| recipient := "mailto:b"; reqstatus := "1.0;Pending" |} ] |} ] |}.

(** * More vocabulary: responses, tables, counters *)

(** The character [c] occurs in [s]. *)
Fixpoint occurs (c : ascii) (s : string) : Prop :=
  match s with
  | EmptyString => False
  | String a rest => a = c \/ occurs c rest
  end.

(** The status code of the last result for [recipient] that is not
    delivered, if there is one. *)
Definition lastFailure (recipient : string) (response : list (string * string))
  : option string :=
  snd <$> last (filter (fun result => result.1 = recipient /\
                          result.2 <> iTIPRequestStatus.MESSAGE_DELIVERED_CODE) response).

(** A property with the delivery status [lastFailure] gives it. *)
Definition withLastFailure (response : list (string * string)) (p : Property) : Property :=
  match lastFailure (value p) response with
  | Some statusCode => setParameter "SCHEDULE-STATUS" statusCode p
  | None => p
  end.

(** What [_dequeued] adds to the trace in [w]: the post-commit hook, when the
    counter comes to zero and a callback is set. *)
Definition lastDequeue (w : World) : list Event :=
  if decide (_queued w - 1 = 0) then
    if _allDoneCallback w then [EvPostCommit] else []
  else [].

(** The world after a work item has run and was dequeued, with the events of
    the run. *)
Definition dequeuedWith (events : list Event) (w : World) : World :=
  set_queued (_queued w - 1) (set_trace (trace w ++ events) w).

(** The resource of the work item, as the two lookups of [doWork] find it in
    the home [h]. *)
Definition storedResource (self : WorkItem) (h : CalendarHome) : option Resource :=
  match resourceID (row self) with
  | None => None
  | Some r =>
      match home_objects h !! r with
      | Some o => Some {| res_id := r; res_home := homeResourceID (row self);
                          res_uid := obj_uid o; componentForUser := obj_component o |}
      | None => None
      end
  end.

(** * More example worlds *)

Definition delivered_scheduler : ImplicitScheduler :=
  {| sch_resource := Some example_resource;
     queuedResponses :=
       [ {| responses := [ {| recipient := "mailto:a"; reqstatus := "1.2;Delivered" |} ] |} ] |}.

Definition reply_item (wid jid : Z) : WorkItem :=
  {| row := {| workID := wid; homeResourceID := 10; resourceID := Some 1;
               fields := ReplyFields (Some example_component) |};
     baseWork := {| sw_workID := wid; sw_jobID := jid; sw_icalendarUID := "uid1";
                    sw_workType := SCHEDULE_REPLY_WORK |} |}.

Definition delivered_response : ScheduleResponse :=
  {| responses := [ {| recipient := "mailto:org"; reqstatus := "1.2;Delivered" |} ] |}.

Definition refused_response : ScheduleResponse :=
  {| responses := [ {| recipient := "mailto:org";
                       reqstatus := "3.7;Invalid Calendar User" |} ] |}.

(** A world without the home 10. *)
Definition homeless_world : World := example_world [] [] [] ∅ ∅.

(** The world after a run that recorded the statuses of [results] in the
    calendar of [resource]: written when a property took a status, and then
    with the one write among the events; dequeued in either case. *)
Definition recorded (results : list (string * string)) (resource : Resource)
    (is_organizer : bool) (state : ComponentUpdateState)
    (before after : list Event) (w : World) : World :=
  let '(changed, calendar) :=
    ScheduleWorkMixin.handleSchedulingResponse results (componentForUser resource)
      is_organizer in
  if changed then
    dequeuedWith (before ++ [EvSetComponent (res_home resource) (res_id resource) state]
                  ++ lastDequeue w ++ after)
      (set_homes (homes (_setComponentInternal resource calendar state w).2) w)
  else dequeuedWith (before ++ lastDequeue w ++ after) w.

Definition organizer_item (wid jid : Z) : WorkItem :=
  {| row := {| workID := wid; homeResourceID := 10; resourceID := Some 1;
               fields := OrganizerFields ActionModify (Some example_component)
                           (Some example_component) 2 false |};
     baseWork := {| sw_workID := wid; sw_jobID := jid; sw_icalendarUID := "uid1";
                    sw_workType := SCHEDULE_ORGANIZER_WORK |} |}.

(** The two ids the sequence gives next are not in the tables. *)
Definition unused (w : World) : Prop :=
  Forall (fun b => sw_jobID b <> next_id w /\ sw_workID b <> next_id w + 1)
         (SCHEDULE_WORK w) /\
  Forall (fun r => workID r <> next_id w + 1) (WORK w).

(** The job, the base row and the work row that [enqueue] files in [w]. *)
Definition filedJob (f : Payload) (nb paused : Z) : JobItem :=
  {| job_workType := tableOf f; notBefore := nb; failed := 0; pause := paused |}.

Definition filedItem (uid : string) (hid : Z) (rid : option Z) (f : Payload)
    (w : World) : WorkItem :=
  {| row := {| workID := next_id w + 1; homeResourceID := hid; resourceID := rid;
               fields := f |};
     baseWork := {| sw_workID := next_id w + 1; sw_jobID := next_id w;
                    sw_icalendarUID := uid; sw_workType := tableOf f |} |}.

(** The world after [enqueue] has filed them. *)
Definition filed (uid : string) (hid : Z) (rid : option Z) (f : Payload)
    (nb paused : Z) (w : World) : World :=
  set_WORK (WORK w ++ [row (filedItem uid hid rid f w)])
    (set_SCHEDULE_WORK (SCHEDULE_WORK w ++ [baseWork (filedItem uid hid rid f w)])
       (set_JOB (<[next_id w := filedJob f nb paused]> (JOB w))
          (set_next_id (next_id w + 2)
             (set_trace (trace w ++ [EvInsert T_JOB; EvInsert T_SCHEDULE_WORK;
                                     EvInsert (T_WORK (tableOf f))]) w)))).

(** The work item [loadForJob] makes of a base row: the first row of the
    class with the work id of the base row, if there is one. *)
Definition found (cls : WorkType) (w : World) (b : ScheduleWork) : option WorkItem :=
  (fun r => {| row := r; baseWork := b |}) <$>
    head (filter (fun r => workID r = sw_workID b) (rowsOf cls w)).

(** The work ids of the base rows among [l] that have no row of the
    class. *)
Definition orphans (cls : WorkType) (w : World) (l : list ScheduleWork) : list Z :=
  sw_workID <$> filter (fun b => found cls w b = None) l.





(** No later refresh work is queued for the home and resource of the
    item. *)
Definition notSuperseded (self : WorkItem) (w : World) : Prop :=
  filter (fun r => homeResourceID r = homeResourceID (row self)
                   /\ resourceID r = resourceID (row self))
         (rowsOf SCHEDULE_REFRESH_WORK w) = [].


(** From [w] to [w'] one work item was filed and counted: its job, its base
    row and its work row are the ones added. *)
Definition filesOne (uid : string) (hid : Z) (rid : option Z) (f : Payload)
    (nb paused : Z) (w w' : World) : Prop :=
  JOB w' = <[next_id w := filedJob f nb paused]> (JOB w) /\
  SCHEDULE_WORK w' = SCHEDULE_WORK w ++ [baseWork (filedItem uid hid rid f w)] /\
  WORK w' = WORK w ++ [row (filedItem uid hid rid f w)] /\
  _queued w' = _queued w + 1 /\
  SCHEDULE_REFRESH_ATTENDEES w' = SCHEDULE_REFRESH_ATTENDEES w /\
  homes w' = homes w.

(** * Properties *)

Lemma world_eq (a b : World) :
  config a = config b -> utcnow a = utcnow b ->
  SCHEDULE_WORK a = SCHEDULE_WORK b -> WORK a = WORK b ->
  SCHEDULE_REFRESH_ATTENDEES a = SCHEDULE_REFRESH_ATTENDEES b ->
  JOB a = JOB b -> homes a = homes b ->
  locked_elsewhere a = locked_elsewhere b -> locked a = locked b ->
  next_id a = next_id b -> _queued a = _queued b ->
  _allDoneCallback a = _allDoneCallback b -> trace a = trace b ->
  a = b.
Proof.
  destruct a, b; simpl; intros; subst; reflexivity.
Qed.

Ltac txn_unfold :=
  repeat progress (unfold log, emit, try_log, fresh, modify, gets, raise, ret, bind in *).

Ltac txn := txn_unfold; simpl.


(** ** Refresh work *)

Lemma filter_nonempty {A} (P : A -> Prop) `{!forall x, Decision (P x)} (l : list A) (x : A) :
  x ∈ l -> P x -> exists y l', filter P l = y :: l'.
Proof.
  intros Hin HP.
  destruct (filter P l) as [|y l'] eqn:E; [|eauto].
  assert (x ∈ filter P l) as Hx by (apply list_elem_of_filter; auto).
  rewrite E in Hx. inversion Hx.
Qed.

Lemma filter_none {A} (P : A -> Prop) `{!forall x, Decision (P x)} (l : list A) :
  filter P l = [] <-> forall x, x ∈ l -> ~ P x.
Proof.
  split.
  - intros E x Hin HP. eapply filter_nil_not_elem_of; eauto.
  - intros Hall. destruct (filter P l) as [|y l'] eqn:E; [reflexivity|].
    assert (y ∈ filter P l) as Hy by (rewrite E; left).
    apply list_elem_of_filter in Hy. destruct Hy as [HP Hin]. destruct (Hall y Hin HP).
Qed.

(** C3.  A refresh work item that finds a row of SCHEDULE_REFRESH_WORK for
    its home and resource does nothing but log: the world is left as it was,
    and the trace gains the query on the work table and the log line, so no
    pending attendee is read or deleted, nothing is sent and nothing is
    enqueued. *)
Theorem refresh_superseded_noop (self : WorkItem) (other : WorkRow) (w : World) :
  other ∈ rowsOf SCHEDULE_REFRESH_WORK w ->
  homeResourceID other = homeResourceID (row self) ->
  resourceID other = resourceID (row self) ->
  ScheduleRefreshWork.doWork self w =
    (Return tt,
     set_trace (trace w ++ [EvSelect (T_WORK SCHEDULE_REFRESH_WORK);
                            EvLog "Schedule refresh for resource-id - ignored"]) w).
Proof.
  intros Hin Hh Hr.
  unfold ScheduleRefreshWork.doWork. txn.
  destruct (filter_nonempty
              (fun r => homeResourceID r = homeResourceID (row self)
                        /\ resourceID r = resourceID (row self))
              (rowsOf SCHEDULE_REFRESH_WORK w) other Hin (conj Hh Hr)) as (y & l' & E).
  unfold rowsOf in *. simpl. rewrite E. txn.
  f_equal. apply world_eq; simpl; auto. rewrite <- app_assoc. reflexivity.
Qed.

Lemma refresh_superseded_noop_witness :
  ScheduleRefreshWork.doWork (refresh_item 1 11) refresh_world =
    (Return tt,
     set_trace [EvSelect (T_WORK SCHEDULE_REFRESH_WORK);
                EvLog "Schedule refresh for resource-id - ignored"] refresh_world).
Proof.
  apply (refresh_superseded_noop (refresh_item 1 11)
           {| workID := 2; homeResourceID := 10; resourceID := Some 1;
              fields := RefreshFields 1 |} refresh_world).
  - vm_compute. left.
  - reflexivity.
  - reflexivity.
Defined.

(** What [doWork] of a refresh does after it has deleted the batch leaves the
    pending attendees alone, whatever its outcome. *)
Lemma refresh_rest_keeps_attendees (self : WorkItem) (cfg : Config)
    (rest batch : list string) (w : World) :
  SCHEDULE_REFRESH_ATTENDEES
    (((if decide (length rest <> 0%nat) then
         let* now := gets utcnow in
         let notBefore := now + AttendeeRefreshBatchIntervalSeconds cfg in
         let* work := enqueue (icalendarUID self) (homeResourceID (row self))
                        (resourceID (row self))
                        (RefreshFields (Z.of_nat (length rest))) notBefore 0 in
         ScheduleWorkMixin._enqueued
       else ret tt) >>
      ScheduleRefreshWork._doDelayedRefresh self batch >>
      ScheduleWorkMixin._dequeued >>
      log "ScheduleRefreshWork - done") w).2
  = SCHEDULE_REFRESH_ATTENDEES w.
Proof.
  unfold enqueue, ScheduleWorkMixin.create, ScheduleWorkMixin._enqueued,
    ScheduleWorkMixin._dequeued, ScheduleRefreshWork._doDelayedRefresh,
    ScheduleRefreshWork._doRefresh, calendarHomeWithResourceID, objectResourceWithID,
    NamedLock_acquire.
  txn.
  repeat (case_match; txn; simplify_eq; try reflexivity).
Qed.

(** C5.  When a refresh work item that is not superseded finds attendees
    pending, the rows of SCHEDULE_REFRESH_ATTENDEES it leaves are the rows it
    found, in their order, without the rows of its resource whose attendee is
    in the batch; the batch is the first [AttendeeRefreshBatch] attendees of
    the read set with each attendee once.  Rows of another attendee or of
    another resource all stay. *)
Theorem refresh_drain_exact (self : WorkItem) (w : World) :
  let rid := resourceID (row self) in
  let n := AttendeeRefreshBatch (config w) in
  let read := list_of_set (snd <$> filter (fun r => Some r.1 = rid)
                                          (SCHEDULE_REFRESH_ATTENDEES w)) in
  let batch := take (Z.to_nat n) read in
  filter (fun r => homeResourceID r = homeResourceID (row self)
                   /\ resourceID r = resourceID (row self))
         (rowsOf SCHEDULE_REFRESH_WORK w) = [] ->
  read <> [] ->
  0 <= n ->
  exists r w',
    ScheduleRefreshWork.doWork self w = (r, w') /\
    SCHEDULE_REFRESH_ATTENDEES w' =
      filter (fun x => ~ (Some x.1 = rid /\ x.2 ∈ batch)) (SCHEDULE_REFRESH_ATTENDEES w) /\
    (forall x, x ∈ SCHEDULE_REFRESH_ATTENDEES w' <->
               x ∈ SCHEDULE_REFRESH_ATTENDEES w /\ ~ (Some x.1 = rid /\ x.2 ∈ batch)) /\
    NoDup batch /\ batch ⊆ read.
Proof.
  intros rid n read batch Hsup Hread Hn.
  destruct (ScheduleRefreshWork.doWork self w) as [r w'] eqn:E.
  exists r, w'. split; [reflexivity|].
  assert (SCHEDULE_REFRESH_ATTENDEES w' =
          filter (fun x => ~ (Some x.1 = rid /\ x.2 ∈ batch)) (SCHEDULE_REFRESH_ATTENDEES w))
    as Hsra.
  { replace w' with (ScheduleRefreshWork.doWork self w).2 by (rewrite E; reflexivity).
    clear E. unfold ScheduleRefreshWork.doWork.
    unfold bind at 1. unfold emit at 1, modify at 1.
    unfold bind at 1. unfold gets at 1. simpl.
    unfold rowsOf in *. simpl. rewrite Hsup.
    unfold bind at 1. unfold log at 1, emit at 1, modify at 1.
    unfold ScheduleRefreshWork.select_attendees.
    unfold bind at 1. unfold bind at 1. unfold emit at 1, modify at 1.
    unfold gets at 1. simpl. fold rid. fold read.
    destruct (decide (length read = 0%nat)) as [Hz|Hz].
    { destruct read; [congruence|discriminate]. }
    unfold bind at 1. unfold gets at 1. simpl. fold n.
    unfold ScheduleRefreshWork.delete_attendees.
    unfold bind at 1. unfold bind at 1. unfold emit at 1, modify at 1.
    unfold modify at 1.
    rewrite refresh_rest_keeps_attendees. simpl.
    unfold slice_to. rewrite decide_True by lia. reflexivity. }
  split; [exact Hsra|].
  split.
  - intros x. rewrite Hsra. rewrite list_elem_of_filter. tauto.
  - split.
    + eapply sublist_NoDup; [|apply sublist_take].
      unfold read, list_of_set. apply NoDup_elements.
    + apply subseteq_take.
Qed.

Lemma refresh_drain_exact_witness :
  exists r w',
    ScheduleRefreshWork.doWork (refresh_item 1 11) drain_world = (r, w') /\
    SCHEDULE_REFRESH_ATTENDEES w' = [(2, "mailto:a")].
Proof.
  destruct (refresh_drain_exact (refresh_item 1 11) drain_world)
    as (r & w' & E & Hsra & _).
  - vm_compute. reflexivity.
  - vm_compute. discriminate.
  - vm_compute. discriminate.
  - exists r, w'. split; [exact E|]. rewrite Hsra. vm_compute. reflexivity.
Defined.

Lemma refresh_tail_keeps_work (self : WorkItem) (batch : list string) (w : World) :
  WORK ((ScheduleRefreshWork._doDelayedRefresh self batch >>
         ScheduleWorkMixin._dequeued >>
         log "ScheduleRefreshWork - done") w).2 = WORK w.
Proof.
  unfold ScheduleWorkMixin._dequeued, ScheduleRefreshWork._doDelayedRefresh,
    ScheduleRefreshWork._doRefresh, calendarHomeWithResourceID, objectResourceWithID,
    NamedLock_acquire.
  txn.
  repeat (case_match; txn; simplify_eq; try reflexivity).
Qed.

Lemma refresh_enqueue_follow_up (self : WorkItem) (cfg : Config) (left : list string)
    (w : World) :
  exists w',
    (let* now := gets utcnow in
     let notBefore := now + AttendeeRefreshBatchIntervalSeconds cfg in
     let* work := enqueue (icalendarUID self) (homeResourceID (row self))
                    (resourceID (row self))
                    (RefreshFields (Z.of_nat (length left))) notBefore 0 in
     ScheduleWorkMixin._enqueued) w = (Return tt, w') /\
    WORK w' = WORK w ++
      [ {| workID := next_id w + 1; homeResourceID := homeResourceID (row self);
           resourceID := resourceID (row self);
           fields := RefreshFields (Z.of_nat (length left)) |} ].
Proof.
  unfold enqueue, ScheduleWorkMixin.create, ScheduleWorkMixin._enqueued. txn.
  eexists. split; reflexivity.
Qed.

Lemma refresh_reschedule_step (self : WorkItem) (cfg : Config)
    (left batch : list string) (w : World) :
  WORK
    (((if decide (length left <> 0%nat) then
         let* now := gets utcnow in
         let notBefore := now + AttendeeRefreshBatchIntervalSeconds cfg in
         let* work := enqueue (icalendarUID self) (homeResourceID (row self))
                        (resourceID (row self))
                        (RefreshFields (Z.of_nat (length left))) notBefore 0 in
         ScheduleWorkMixin._enqueued
       else ret tt) >>
      ScheduleRefreshWork._doDelayedRefresh self batch >>
      ScheduleWorkMixin._dequeued >>
      log "ScheduleRefreshWork - done") w).2
  = if decide (length left <> 0%nat) then
      WORK w ++
        [ {| workID := next_id w + 1; homeResourceID := homeResourceID (row self);
             resourceID := resourceID (row self);
             fields := RefreshFields (Z.of_nat (length left)) |} ]
    else WORK w.
Proof.
  unfold bind at 1.
  destruct (decide (length left <> 0%nat)) as [Hleft|Hleft].
  - destruct (refresh_enqueue_follow_up self cfg left w) as (w3 & E3 & Hwork).
    cbv zeta in E3. rewrite E3, refresh_tail_keeps_work. exact Hwork.
  - unfold ret at 1. apply refresh_tail_keeps_work.
Qed.

(** The follow-up of a refresh that ran: one more row of
    SCHEDULE_REFRESH_WORK when attendees are left after the batch, none when
    the batch was all there was. *)
Lemma refresh_follow_up_only_if_left (self : WorkItem) (w : World) :
  let rid := resourceID (row self) in
  let n := AttendeeRefreshBatch (config w) in
  let read := list_of_set (snd <$> filter (fun r => Some r.1 = rid)
                                          (SCHEDULE_REFRESH_ATTENDEES w)) in
  let left := slice_from n read in
  filter (fun r => homeResourceID r = homeResourceID (row self)
                   /\ resourceID r = resourceID (row self))
         (rowsOf SCHEDULE_REFRESH_WORK w) = [] ->
  read <> [] ->
  rowsOf SCHEDULE_REFRESH_WORK (ScheduleRefreshWork.doWork self w).2 =
    if decide (length left <> 0%nat) then
      rowsOf SCHEDULE_REFRESH_WORK w ++
        [ {| workID := next_id w + 1; homeResourceID := homeResourceID (row self);
             resourceID := rid; fields := RefreshFields (Z.of_nat (length left)) |} ]
    else rowsOf SCHEDULE_REFRESH_WORK w.
Proof.
  intros rid n read left Hsup Hread.
  unfold ScheduleRefreshWork.doWork.
  unfold bind at 1. unfold emit at 1, modify at 1.
  unfold bind at 1. unfold gets at 1. simpl.
  unfold rowsOf in *. simpl. rewrite Hsup.
  unfold bind at 1. unfold log at 1, emit at 1, modify at 1.
  unfold ScheduleRefreshWork.select_attendees.
  unfold bind at 1. unfold bind at 1. unfold emit at 1, modify at 1.
  unfold gets at 1. simpl. fold rid. fold read.
  destruct (decide (length read = 0%nat)) as [Hz|Hz].
  { destruct read; [congruence|discriminate]. }
  unfold bind at 1. unfold gets at 1. simpl. fold n. fold left.
  unfold ScheduleRefreshWork.delete_attendees.
  unfold bind at 1. unfold bind at 1. unfold emit at 1, modify at 1.
  unfold modify at 1.
  rewrite refresh_reschedule_step. simpl.
  destruct (decide (length left <> 0%nat)); [|reflexivity].
  rewrite filter_app. reflexivity.
Qed.

(** C2.  A refresh work item that is not superseded and whose batch is all
    that was pending: the attendee is refreshed and the rows are deleted, and
    no work is enqueued; the tables of work and jobs are as empty as
    before. *)
Theorem refresh_last_batch_not_rescheduled :
  exists w',
    ScheduleRefreshWork.doWork (refresh_item 1 11) last_batch_world = (Return tt, w') /\
    trace w' = [ EvSelect (T_WORK SCHEDULE_REFRESH_WORK);
                 EvLog "ScheduleRefreshWork - running";
                 EvSelect T_SCHEDULE_REFRESH_ATTENDEES;
                 EvDelete T_SCHEDULE_REFRESH_ATTENDEES;
                 EvNamedLock "uid1";
                 EvLog "ImplicitProcessing - refreshing";
                 EvRefresh "uid1" ["mailto:a"];
                 EvLog "ScheduleRefreshWork - done" ] /\
    SCHEDULE_REFRESH_ATTENDEES w' = [] /\
    WORK w' = [] /\ SCHEDULE_WORK w' = [] /\ JOB w' = ∅.
Proof.
  eexists. split; [vm_compute; reflexivity|].
  repeat split; reflexivity.
Qed.

(** The loop of [refreshAttendees]: one row and one insert per attendee. *)
Lemma insert_attendees_all (rid : Z) (l : list string) :
  forall (acc : Txn unit) (w w1 : World),
    acc w = (Return tt, w1) ->
    foldl (fun acc attendee => acc >> ScheduleRefreshWork.insert_attendee rid attendee) acc l w =
      (Return tt,
       set_SCHEDULE_REFRESH_ATTENDEES
         (SCHEDULE_REFRESH_ATTENDEES w1 ++ ((fun a => (rid, a)) <$> l))
         (set_trace (trace w1 ++ ((fun _ => EvInsert T_SCHEDULE_REFRESH_ATTENDEES) <$> l)) w1)).
Proof.
  induction l as [|a l IH]; intros acc w w1 Hacc; simpl.
  - rewrite Hacc. f_equal. apply world_eq; simpl; rewrite ?app_nil_r; reflexivity.
  - erewrite IH.
    2:{ unfold ScheduleRefreshWork.insert_attendee. txn. rewrite Hacc. reflexivity. }
    f_equal. apply world_eq; simpl; auto; rewrite <- app_assoc; reflexivity.
Qed.

Lemma filter_pairs_same (rid : Z) (l : list string) :
  filter (fun r : Z * string => r.1 = rid) ((fun a => (rid, a)) <$> l) = (fun a => (rid, a)) <$> l.
Proof.
  induction l as [|a l IH]; [reflexivity|].
  rewrite fmap_cons, filter_cons_True by reflexivity. rewrite IH. reflexivity.
Qed.

Lemma filter_pairs_other (rid other : Z) (l : list string) :
  other <> rid ->
  filter (fun r : Z * string => r.1 = other) ((fun a => (rid, a)) <$> l) = [].
Proof.
  intros Hne. induction l as [|a l IH]; [reflexivity|].
  rewrite fmap_cons, filter_cons_False by (simpl; congruence). exact IH.
Qed.

Lemma refreshAttendees_spec (organizer_resource : Resource) (attendees : list string)
    (paused : Z) (w : World) :
  let rid := res_id organizer_resource in
  let inserted := elements ((list_to_set attendees : gset string) ∖ pendingSet rid w) in
  exists w',
    ScheduleRefreshWork.refreshAttendees organizer_resource attendees paused w = (Return tt, w') /\
    SCHEDULE_REFRESH_ATTENDEES w' =
      SCHEDULE_REFRESH_ATTENDEES w ++ ((fun a => (rid, a)) <$> inserted) /\
    WORK w' = WORK w ++
      [ {| workID := next_id w + 1; homeResourceID := res_home organizer_resource;
           resourceID := Some rid;
           fields := RefreshFields (Z.of_nat (length attendees)) |} ] /\
    SCHEDULE_WORK w' = SCHEDULE_WORK w ++
      [ {| sw_workID := next_id w + 1; sw_jobID := next_id w;
           sw_icalendarUID := res_uid organizer_resource;
           sw_workType := SCHEDULE_REFRESH_WORK |} ] /\
    JOB w' = <[next_id w := {| job_workType := SCHEDULE_REFRESH_WORK;
                               notBefore := utcnow w + AttendeeRefreshBatchDelaySeconds (config w);
                               failed := 0; pause := paused |}]> (JOB w).
Proof.
  intros rid inserted.
  unfold ScheduleRefreshWork.refreshAttendees, ScheduleRefreshWork.select_attendees.
  unfold bind at 1. unfold bind at 1. unfold emit at 1, modify at 1. unfold gets at 1.
  simpl. unfold bind at 1.
  erewrite (list_filter_iff (fun r : Z * string => Some r.1 = Some (res_id organizer_resource))
              (fun r : Z * string => r.1 = rid)) by (intros x; unfold rid; split; congruence).
  erewrite insert_attendees_all by reflexivity.
  unfold enqueue, ScheduleWorkMixin.create, ScheduleWorkMixin._enqueued. txn.
  eexists. split; [reflexivity|]. simpl.
  repeat split; reflexivity.
Qed.

Lemma pendingSet_after_insert (rid other : Z) (inserted : list string) (w w' : World) :
  SCHEDULE_REFRESH_ATTENDEES w' =
    SCHEDULE_REFRESH_ATTENDEES w ++ ((fun a => (rid, a)) <$> inserted) ->
  pendingSet other w' =
    if decide (other = rid) then pendingSet rid w ∪ list_to_set inserted
    else pendingSet other w.
Proof.
  intros E. unfold pendingSet. rewrite E, filter_app, fmap_app, list_to_set_app_L.
  destruct (decide (other = rid)) as [->|Hne].
  - rewrite filter_pairs_same. rewrite <- list_fmap_compose.
    replace (snd ∘ (fun a : string => (rid, a))) with (@id string) by reflexivity.
    rewrite list_fmap_id. reflexivity.
  - rewrite filter_pairs_other by exact Hne. simpl. apply union_empty_r_L.
Qed.

(** C4.  [refreshAttendees] inserts one row for each requested attendee that
    is not pending for the resource, and for no other, so the attendees
    pending afterwards are those pending before together with those
    requested, and the rows of other resources are as before.  It always
    enqueues a refresh work item for the resource, also when it inserted
    nothing.  A second call merges in the same way: after [attendees] and then
    [attendees'] the pending set is the union of the three. *)
Theorem refreshAttendees_merges_and_enqueues (organizer_resource : Resource)
    (attendees attendees' : list string) (paused paused' : Z) (w : World) :
  let rid := res_id organizer_resource in
  let P := pendingSet rid w in
  let inserted := elements ((list_to_set attendees : gset string) ∖ P) in
  exists w' w'',
    ScheduleRefreshWork.refreshAttendees organizer_resource attendees paused w = (Return tt, w') /\
    SCHEDULE_REFRESH_ATTENDEES w' =
      SCHEDULE_REFRESH_ATTENDEES w ++ ((fun a => (rid, a)) <$> inserted) /\
    NoDup inserted /\
    (forall a, a ∈ inserted <-> a ∈ attendees /\ a ∉ P) /\
    pendingSet rid w' = P ∪ list_to_set attendees /\
    (forall other, other <> rid -> pendingSet other w' = pendingSet other w) /\
    rowsOf SCHEDULE_REFRESH_WORK w' = rowsOf SCHEDULE_REFRESH_WORK w ++
      [ {| workID := next_id w + 1; homeResourceID := res_home organizer_resource;
           resourceID := Some rid;
           fields := RefreshFields (Z.of_nat (length attendees)) |} ] /\
    JOB w' !! next_id w =
      Some {| job_workType := SCHEDULE_REFRESH_WORK;
              notBefore := utcnow w + AttendeeRefreshBatchDelaySeconds (config w);
              failed := 0; pause := paused |} /\
    ScheduleRefreshWork.refreshAttendees organizer_resource attendees' paused' w'
      = (Return tt, w'') /\
    pendingSet rid w'' = P ∪ list_to_set attendees ∪ list_to_set attendees'.
Proof.
  intros rid P inserted.
  destruct (refreshAttendees_spec organizer_resource attendees paused w)
    as (w' & E1 & Hsra & Hwork & _ & Hjob).
  destruct (refreshAttendees_spec organizer_resource attendees' paused' w')
    as (w'' & E2 & Hsra2 & _).
  fold rid in Hsra, Hsra2. fold P inserted in Hsra.
  assert (pendingSet rid w' = P ∪ list_to_set attendees) as HP1.
  { rewrite (pendingSet_after_insert rid rid inserted w w' Hsra), decide_True by reflexivity.
    fold P. unfold inserted. rewrite list_to_set_elements_L.
    apply set_eq. intros x. rewrite !elem_of_union, elem_of_difference.
    destruct (decide (x ∈ P)); tauto. }
  exists w', w''. repeat split; try assumption.
  - apply NoDup_elements.
  - unfold inserted in H. apply elem_of_elements, elem_of_difference in H.
    destruct H as [H _]. apply elem_of_list_to_set in H. exact H.
  - unfold inserted in H. apply elem_of_elements, elem_of_difference in H. tauto.
  - intros [Ha Hn]. unfold inserted. apply elem_of_elements, elem_of_difference.
    split; [apply elem_of_list_to_set; exact Ha | exact Hn].
  - intros other Hne.
    rewrite (pendingSet_after_insert rid other inserted w w' Hsra), decide_False by exact Hne.
    reflexivity.
  - unfold rowsOf. rewrite Hwork, filter_app. f_equal.
  - rewrite Hjob. apply lookup_insert_eq.
  - rewrite (pendingSet_after_insert rid rid _ w' w'' Hsra2), decide_True by reflexivity.
    rewrite list_to_set_elements_L, HP1.
    apply set_eq. intros x. rewrite !elem_of_union, elem_of_difference, !elem_of_union.
    destruct (decide (x ∈ P)); destruct (decide (x ∈ (list_to_set attendees : gset string))); tauto.
Qed.

(** The case of the two triggers {A, B} and {B, C} on a resource with
    nothing pending. *)
Example refresh_dedup_AB_BC :
  exists w' w'',
    ScheduleRefreshWork.refreshAttendees
      {| res_id := 1; res_home := 10; res_uid := "uid1"; componentForUser := example_component |}
      ["A"; "B"] 0 (example_world [] [] [] ∅ example_homes) = (Return tt, w') /\
    ScheduleRefreshWork.refreshAttendees
      {| res_id := 1; res_home := 10; res_uid := "uid1"; componentForUser := example_component |}
      ["B"; "C"] 0 w' = (Return tt, w'') /\
    pendingSet 1 w'' = {["A"; "B"; "C"]} /\
    length (SCHEDULE_REFRESH_ATTENDEES w'') = 3%nat /\
    length (rowsOf SCHEDULE_REFRESH_WORK w'') = 2%nat.
Proof.
  eexists. eexists.
  split; [vm_compute; reflexivity|].
  split; [vm_compute; reflexivity|].
  repeat split; vm_compute; reflexivity.
Qed.

(** ** A target resource that is gone *)

Ltac trace_tail :=
  simpl; rewrite <- ?app_assoc; simpl; reflexivity.

Ltac find_log :=
  first [ apply list_elem_of_here | apply list_elem_of_further; find_log ].

Ltac quiet_run :=
  eexists; eexists; split; [reflexivity|]; simpl;
  split; [trace_tail|];
  split; [repeat (constructor; [reflexivity|]); constructor|];
  split; [eexists; find_log|];
  split; reflexivity.

Lemma missing_resource_lookup (self : WorkItem) (h : CalendarHome) (w : World) :
  homes w !! homeResourceID (row self) = Some h ->
  (resourceID (row self) ≫= (fun r => home_objects h !! r)) = None ->
  (let* home := calendarHomeWithResourceID (homeResourceID (row self)) in
   objectResourceWithID home (resourceID (row self))) w = (Return None, w).
Proof.
  intros Hh Hr. unfold calendarHomeWithResourceID, objectResourceWithID. txn.
  rewrite Hh. destruct (resourceID (row self)) as [r|]; simpl in *; [|reflexivity].
  rewrite Hr. reflexivity.
Qed.

(** C9.  When the home of a refresh or auto-reply work item is there and the
    lookup of its resource gives [None], the step that would refresh or
    reply only logs and returns: the world is unchanged and the trace gains
    the one log line.  The whole of [doWork] returns as well, and nothing it
    adds to the trace takes a lock, sends a scheduling message or writes
    calendar data; the store and the locks are as before. *)
Theorem missing_resource_skipped (self : WorkItem) (batch : list string)
    (h : CalendarHome) (w : World) :
  homes w !! homeResourceID (row self) = Some h ->
  (resourceID (row self) ≫= (fun r => home_objects h !! r)) = None ->
  ScheduleRefreshWork._doDelayedRefresh self batch w =
    (Return tt,
     set_trace (trace w ++ [EvLog "ImplicitProcessing - skipping refresh of missing ID"]) w) /\
  ScheduleAutoReplyWork._sendAttendeeAutoReply self w =
    (Return tt,
     set_trace (trace w ++ [EvLog "ImplicitProcessing - skipping auto-reply of missing ID"]) w) /\
  (exists w' t,
     ScheduleRefreshWork.doWork self w = (Return tt, w') /\
     trace w' = trace w ++ t /\ Forall (fun e => touches e = false) t /\
     (exists msg, EvLog msg ∈ t) /\
     homes w' = homes w /\ locked w' = locked w) /\
  (exists w' t,
     ScheduleAutoReplyWork.doWork self w = (Return tt, w') /\
     trace w' = trace w ++ t /\ Forall (fun e => touches e = false) t /\
     (exists msg, EvLog msg ∈ t) /\
     homes w' = homes w /\ locked w' = locked w).
Proof.
  intros Hh Hr.
  assert (forall b w0, homes w0 = homes w ->
            ScheduleRefreshWork._doDelayedRefresh self b w0 =
              (Return tt,
               set_trace (trace w0 ++ [EvLog "ImplicitProcessing - skipping refresh of missing ID"]) w0))
    as Hrefresh.
  { intros b w0 E. unfold ScheduleRefreshWork._doDelayedRefresh.
    pose proof (missing_resource_lookup self h w0) as L.
    rewrite E in L. specialize (L Hh Hr).
    unfold bind in *. 
    destruct (calendarHomeWithResourceID (homeResourceID (row self)) w0) as [[home|e] w1] eqn:E1.
    - rewrite L. reflexivity.
    - discriminate. }
  assert (forall w0, homes w0 = homes w ->
            ScheduleAutoReplyWork._sendAttendeeAutoReply self w0 =
              (Return tt,
               set_trace (trace w0 ++ [EvLog "ImplicitProcessing - skipping auto-reply of missing ID"]) w0))
    as Hreply.
  { intros w0 E. unfold ScheduleAutoReplyWork._sendAttendeeAutoReply.
    pose proof (missing_resource_lookup self h w0) as L.
    rewrite E in L. specialize (L Hh Hr).
    unfold bind in *.
    destruct (calendarHomeWithResourceID (homeResourceID (row self)) w0) as [[home|e] w1] eqn:E1.
    - rewrite L. reflexivity.
    - discriminate. }
  split; [apply Hrefresh; reflexivity|].
  split; [apply Hreply; reflexivity|].
  split.
  - unfold ScheduleRefreshWork.doWork, ScheduleRefreshWork.select_attendees,
      ScheduleRefreshWork.delete_attendees, enqueue, ScheduleWorkMixin.create,
      ScheduleWorkMixin._enqueued, ScheduleWorkMixin._dequeued.
    txn.
    repeat (first [rewrite Hrefresh by reflexivity | case_match]; txn; simplify_eq).
    all: quiet_run.
  - unfold ScheduleAutoReplyWork.doWork, ScheduleWorkMixin._dequeued.
    txn. rewrite Hreply by reflexivity. txn.
    repeat (case_match; txn; simplify_eq).
    all: quiet_run.
Qed.

Lemma missing_resource_skipped_witness :
  ScheduleRefreshWork._doDelayedRefresh (refresh_item 1 11) ["mailto:a"] gone_world =
    (Return tt,
     set_trace [EvLog "ImplicitProcessing - skipping refresh of missing ID"] gone_world) /\
  ScheduleAutoReplyWork._sendAttendeeAutoReply (refresh_item 1 11) gone_world =
    (Return tt,
     set_trace [EvLog "ImplicitProcessing - skipping auto-reply of missing ID"] gone_world).
Proof.
  destruct (missing_resource_skipped (refresh_item 1 11) ["mailto:a"]
              {| home_uid := "user01"; home_objects := ∅ |} gone_world)
    as (A & B & _).
  - vm_compute. reflexivity.
  - vm_compute. reflexivity.
  - split; [exact A|exact B].
Defined.

(** ** Auto-reply work *)

Section Burst.

Variable rid : Z.

Lemma quietly_refl (w : World) : quietly rid w w.
Proof. repeat split; reflexivity. Qed.

Lemma quietly_trans (w w1 w2 : World) : quietly rid w w1 -> quietly rid w1 w2 -> quietly rid w w2.
Proof.
  intros (A & B & C) (A' & B' & C'). repeat split.
  - etrans; eauto.
  - congruence.
  - congruence.
Qed.

Lemma repliesSent_emit (e : Event) (w : World) :
  repliesSent rid (set_trace (trace w ++ [e]) w) =
    (repliesSent rid w + (if isReplyFor rid e then 1 else 0))%nat.
Proof.
  unfold repliesSent. simpl. rewrite filter_app, length_app. f_equal.
  destruct (isReplyFor rid e) eqn:E.
  - rewrite filter_cons_True by exact E. reflexivity.
  - rewrite filter_cons_False by congruence. reflexivity.
Qed.

Lemma quietly_emit (e : Event) (w : World) :
  isReplyFor rid e = false -> quietly rid w (set_trace (trace w ++ [e]) w).
Proof.
  intros E. repeat split; simpl; try reflexivity.
  rewrite repliesSent_emit, E. lia.
Qed.

Lemma ScheduleWork_delete_quietly (b : ScheduleWork) (w : World) :
  exists r w1, ScheduleWork_delete b w = (r, w1) /\ quietly rid w w1.
Proof.
  unfold ScheduleWork_delete. txn. case_match.
  - eexists. eexists. split; [reflexivity|]. repeat split; simpl.
    + apply sublist_filter.
    + unfold repliesSent. simpl. rewrite filter_app. simpl.
      rewrite filter_cons_False by (simpl; congruence). rewrite filter_nil, app_nil_r.
      reflexivity.
  - eexists. eexists. split; [reflexivity|]. apply quietly_refl.
Qed.

Lemma loadForJob_step (cls : WorkType) (w : World) (acc : Txn (list WorkItem))
    (baseItem : ScheduleWork) :
  loading rid cls w acc ->
  loading rid cls w
    (let* workItems := acc in
     emit (EvSelect (T_WORK cls)) >>
     let* workItem := gets (fun w => filter (fun r => workID r = sw_workID baseItem)
                                            (rowsOf cls w)) in
     match workItem with
     | [] => ScheduleWork_delete baseItem >> ret workItems
     | r :: _ => ret (workItems ++ [{| row := r; baseWork := baseItem |}])
     end).
Proof.
  intros (r & w1 & E & Q & Hitems).
  unfold loading. unfold bind at 1. rewrite E.
  destruct r as [items|e].
  2:{ eexists. eexists. split; [reflexivity|]. split; [exact Q|]. intros ? [=]. }
  specialize (Hitems items eq_refl).
  txn.
  destruct (filter (fun r => workID r = sw_workID baseItem) (rowsOf cls w1)) as [|r0 rs] eqn:F.
  - destruct (ScheduleWork_delete_quietly baseItem
                (set_trace (trace w1 ++ [EvSelect (T_WORK cls)]) w1)) as (r & w2 & E2 & Q2).
    unfold rowsOf in F. simpl. unfold rowsOf. simpl. rewrite F. rewrite E2.
    assert (quietly rid w w2) as Q'.
    { eapply quietly_trans; [exact Q|]. eapply quietly_trans; [|exact Q2].
      apply quietly_emit. reflexivity. }
    destruct r as [[]|e]; eexists; eexists; (split; [reflexivity|]); (split; [exact Q'|]).
    + intros ? [= <-]. exact Hitems.
    + intros ? [=].
  - unfold rowsOf in F. simpl. unfold rowsOf. simpl. rewrite F.
    eexists. eexists. split; [reflexivity|]. split.
    + eapply quietly_trans; [exact Q|]. apply quietly_emit. reflexivity.
    + intros ? [= <-]. apply Forall_app. split; [exact Hitems|].
      constructor; [|constructor]. simpl.
      assert (r0 ∈ filter (fun r => workID r = sw_workID baseItem)
                     (filter (fun r => tableOf (fields r) = cls) (WORK w1))) as Hin
        by (rewrite F; left).
      apply list_elem_of_filter in Hin. destruct Hin as [_ Hin].
      apply list_elem_of_filter in Hin. destruct Hin as [Ht Hin].
      split; [|exact Ht].
      destruct Q as (Hsub & _). eapply sublist_subseteq; eauto.
Qed.

Lemma loadForJob_fold (cls : WorkType) (w : World) (l : list ScheduleWork) :
  forall acc, loading rid cls w acc ->
    loading rid cls w
      (foldl (fun acc baseItem =>
                let* workItems := acc in
                emit (EvSelect (T_WORK cls)) >>
                let* workItem := gets (fun w => filter (fun r => workID r = sw_workID baseItem)
                                                       (rowsOf cls w)) in
                match workItem with
                | [] => ScheduleWork_delete baseItem >> ret workItems
                | r :: _ => ret (workItems ++ [{| row := r; baseWork := baseItem |}])
                end) acc l).
Proof.
  induction l as [|b l IH]; intros acc Hacc; simpl; [exact Hacc|].
  apply IH. apply loadForJob_step. exact Hacc.
Qed.

Lemma loadForJob_quietly (cls : WorkType) (jid : Z) (w : World) :
  exists r w1, ScheduleWorkMixin.loadForJob cls jid w = (r, w1) /\ quietly rid w w1 /\
    forall items, r = Return items ->
      Forall (fun it => row it ∈ WORK w /\ tableOf (fields (row it)) = cls) items.
Proof.
  unfold ScheduleWorkMixin.loadForJob.
  unfold bind at 1. unfold emit at 1, modify at 1.
  unfold bind at 1. unfold gets at 1.
  set (w0 := set_trace (trace w ++ [EvSelect T_SCHEDULE_WORK]) w).
  destruct (loadForJob_fold cls w0
              (filter (fun b => sw_jobID b = jid) (SCHEDULE_WORK w0)) (ret []))
    as (r & w1 & E & Q & Hitems).
  { eexists. eexists. split; [reflexivity|]. split; [apply quietly_refl|].
    intros ? [= <-]. constructor. }
  exists r, w1. split; [exact E|]. split.
  - eapply quietly_trans; [|exact Q]. apply quietly_emit. reflexivity.
  - exact Hitems.
Qed.

Lemma runlock_quietly (self : WorkItem) (w : World) :
  exists g w1, ScheduleWorkMixin.runlock self w = (Return g, w1) /\ quietly rid w w1.
Proof.
  unfold ScheduleWorkMixin.runlock, ScheduleWork_trylock, WorkItem_trylock. txn.
  repeat case_match; simplify_eq; eexists; eexists; (split; [reflexivity|]);
    repeat split; simpl; try reflexivity;
    unfold repliesSent; simpl; rewrite ?filter_app; simpl;
    rewrite ?filter_cons_False by (simpl; congruence);
    rewrite ?filter_nil, ?app_nil_r; reflexivity.
Qed.

(** [doWork] of an auto-reply: the rows of its resource go; it sends at
    most one reply, for its own resource, and then it returns. *)
Lemma autoReply_doWork_effect (self : WorkItem) (w : World) :
  exists r w1 (sent : bool),
    ScheduleAutoReplyWork.doWork self w = (r, w1) /\
    WORK w1 = filter (fun r => ~ (tableOf (fields r) = SCHEDULE_AUTO_REPLY_WORK
                                  /\ resourceID r = resourceID (row self))) (WORK w) /\
    repliesSent rid w1 = (repliesSent rid w + (if sent then 1 else 0))%nat /\
    (sent = true -> r = Return tt /\ resourceID (row self) = Some rid).
Proof.
  unfold ScheduleAutoReplyWork.doWork, ScheduleAutoReplyWork._sendAttendeeAutoReply,
    ScheduleWorkMixin._dequeued, calendarHomeWithResourceID, objectResourceWithID,
    NamedLock_acquire.
  txn.
  destruct (homes w !! homeResourceID (row self)) as [h|] eqn:Hh; txn.
  2:{ exists (Raise AttributeError). eexists. exists false.
      split; [reflexivity|]. simpl. split; [reflexivity|]. split; [|discriminate].
      unfold repliesSent. simpl. rewrite !filter_app. simpl.
      rewrite !filter_cons_False by (simpl; congruence).
      rewrite !filter_nil, !app_nil_r. lia. }
  destruct (resourceID (row self)) as [r0|] eqn:Hr; txn.
  2:{ repeat case_match; simplify_eq; exists (Return tt); eexists; exists false;
      (split; [reflexivity|]); simpl; (split; [reflexivity|]); (split; [|discriminate]);
      unfold repliesSent; simpl; rewrite !filter_app; simpl;
      rewrite !filter_cons_False by (simpl; congruence);
      rewrite !filter_nil, !app_nil_r; lia. }
  destruct (home_objects h !! r0) as [o|] eqn:Ho; txn.
  2:{ repeat case_match; simplify_eq; exists (Return tt); eexists; exists false;
      (split; [reflexivity|]); simpl; (split; [reflexivity|]); (split; [|discriminate]);
      unfold repliesSent; simpl; rewrite !filter_app; simpl;
      rewrite !filter_cons_False by (simpl; congruence);
      rewrite !filter_nil, !app_nil_r; lia. }
  destruct (decide (r0 = rid)) as [->|Hne].
  - repeat case_match; simplify_eq; exists (Return tt); eexists; exists true;
      (split; [reflexivity|]); simpl; (split; [reflexivity|]); (split; [|auto]);
      unfold repliesSent; simpl; rewrite !filter_app; simpl;
      rewrite ?filter_cons_False by (simpl; congruence);
      rewrite (filter_cons_True _ (EvAttendeeReply _ rid))
        by (simpl; apply bool_decide_eq_true; reflexivity);
      rewrite ?filter_cons_False by (simpl; congruence);
      rewrite !filter_nil, ?app_nil_r; simpl; rewrite ?length_app; simpl; lia.
  - repeat case_match; simplify_eq; exists (Return tt); eexists; exists false;
      (split; [reflexivity|]); simpl; (split; [reflexivity|]); (split; [|discriminate]);
      unfold repliesSent; simpl; rewrite !filter_app; simpl;
      rewrite ?filter_cons_False
        by (simpl; try congruence; rewrite bool_decide_eq_true; congruence);
      rewrite !filter_nil, !app_nil_r; lia.
Qed.

Lemma settled_subseteq (n : nat) (w w1 : World) :
  WORK w1 ⊆ WORK w -> repliesSent rid w1 = repliesSent rid w ->
  settled rid n w -> settled rid n w1.
Proof.
  intros Hsub Hsent [H|[H Hq]]; [left; congruence|right].
  split; [congruence|].
  unfold queuedFor in *. apply filter_none. intros x Hx.
  eapply (proj1 (filter_none _ _) Hq). apply Hsub. exact Hx.
Qed.

Lemma settled_quietly (n : nat) (w w1 : World) :
  quietly rid w w1 -> settled rid n w -> settled rid n w1.
Proof.
  intros (Hsub & Hsent & _). apply settled_subseteq; [|exact Hsent].
  apply sublist_subseteq. exact Hsub.
Qed.

Lemma settled_rollback (n : nat) (w w1 : World) :
  repliesSent rid w1 = repliesSent rid w ->
  settled rid n w -> settled rid n (JobItem.rollback w w1).
Proof.
  intros Hsent. apply settled_subseteq; [reflexivity|exact Hsent].
Qed.

Lemma settled_commit (n : nat) (w : World) : settled rid n w -> settled rid n (JobItem.commit w).
Proof. apply settled_subseteq; reflexivity. Qed.

Lemma afterWork_other_kind (self : WorkItem) (w : World) :
  workType self <> SCHEDULE_ORGANIZER_SEND_WORK ->
  ScheduleWorkMixin.afterWork self w = (Return tt, w).
Proof.
  intros H. unfold ScheduleWorkMixin.afterWork.
  rewrite decide_False by exact H. reflexivity.
Qed.

(** One job of the burst, in its transaction. *)
Lemma run_settled (n : nat) (jid : Z) (w : World) :
  settled rid n w -> settled rid n (JobItem.inTransaction (JobItem.run jid) w).
Proof.
  intros Hs. unfold JobItem.inTransaction, JobItem.run.
  unfold bind at 1.
  destruct (loadForJob_quietly SCHEDULE_AUTO_REPLY_WORK jid w) as (r & w1 & E & Q & Hitems).
  rewrite E. destruct r as [items|e].
  2:{ apply settled_rollback; [apply Q|exact Hs]. }
  specialize (Hitems items eq_refl).
  destruct items as [|item [|item' items]].
  1,3: apply settled_commit; eapply settled_quietly; eauto.
  apply Forall_cons in Hitems. destruct Hitems as [[Hin Htable] _].
  unfold bind at 1.
  destruct (runlock_quietly item w1) as (g & w2 & E2 & Q2). rewrite E2.
  pose proof (quietly_trans _ _ _ Q Q2) as Q02.
  destruct g.
  2:{ apply settled_rollback; [apply Q02|exact Hs]. }
  unfold bind at 1. unfold ScheduleWorkMixin.delete.
  destruct (ScheduleWork_delete_quietly (baseWork item) w2) as (r3 & w3 & E3 & Q3).
  rewrite E3.
  pose proof (quietly_trans _ _ _ Q02 Q3) as Q03.
  destruct r3 as [[]|e].
  2:{ apply settled_rollback; [apply Q03|exact Hs]. }
  unfold bind at 1.
  destruct (autoReply_doWork_effect item w3) as (r4 & w4 & sent & E4 & Hwork & Hsent & Hret).
  rewrite E4.
  destruct Q03 as (Hsub & Hsame & _).
  destruct sent.
  - destruct (Hret eq_refl) as [-> Hrid].
    rewrite afterWork_other_kind by (unfold workType; rewrite Htable; discriminate).
    apply settled_commit.
    destruct Hs as [Hn|[_ Hq]].
    + right. split; [rewrite Hsent, Hsame, Hn; lia|].
      unfold queuedFor. rewrite Hwork. apply filter_none.
      intros x Hx [Ht Hr]. apply list_elem_of_filter in Hx. destruct Hx as [Hx _].
      apply Hx. split; [exact Ht|congruence].
    + exfalso. unfold queuedFor in Hq.
      eapply (proj1 (filter_none _ _) Hq); [exact Hin|]. split; assumption.
  - assert (repliesSent rid w4 = repliesSent rid w) as Hsame4 by (rewrite Hsent, Hsame; lia).
    assert (WORK w4 ⊆ WORK w) as Hsub4.
    { rewrite Hwork. intros x Hx. apply list_elem_of_filter in Hx. destruct Hx as [_ Hx].
      eapply sublist_subseteq; eauto. }
    destruct r4 as [[]|e].
    + rewrite afterWork_other_kind by (unfold workType; rewrite Htable; discriminate).
      apply settled_commit. eapply settled_subseteq; eauto.
    + apply settled_rollback; [exact Hsame4|exact Hs].
Qed.

Lemma runAll_settled (n : nat) (jobs : list Z) :
  forall w, settled rid n w -> settled rid n (JobItem.runAll jobs w).
Proof.
  unfold JobItem.runAll.
  induction jobs as [|jid jobs IH]; intros w Hs; simpl; [exact Hs|].
  apply IH. apply run_settled. exact Hs.
Qed.

End Burst.

Lemma autoReply_doWork_trace (self : WorkItem) (w : World) :
  exists rest,
    trace (ScheduleAutoReplyWork.doWork self w).2 =
      trace w ++ [EvLog "ScheduleAutoReplyWork - running";
                  EvDelete (T_WORK SCHEDULE_AUTO_REPLY_WORK)] ++ rest.
Proof.
  unfold ScheduleAutoReplyWork.doWork, ScheduleAutoReplyWork._sendAttendeeAutoReply,
    ScheduleWorkMixin._dequeued, calendarHomeWithResourceID, objectResourceWithID,
    NamedLock_acquire.
  txn.
  repeat (case_match; txn; simplify_eq); eexists; trace_tail.
Qed.

(** C10.  [doWork] of an auto-reply first logs and deletes, and only then
    goes on to the reply: what it leaves of the work tables is what it found
    without the auto-reply rows of its own resource, so no auto-reply row of
    that resource remains, and it sends at most one reply.  Of a burst of
    jobs run one after the other, each in its transaction, at most one sends
    a reply for a given resource. *)
Theorem autoReply_coalesces (self : WorkItem) (w : World) (jobs : list Z) (rid : Z) :
  (exists r w' rest,
     ScheduleAutoReplyWork.doWork self w = (r, w') /\
     trace w' = trace w ++ [EvLog "ScheduleAutoReplyWork - running";
                            EvDelete (T_WORK SCHEDULE_AUTO_REPLY_WORK)] ++ rest /\
     WORK w' = filter (fun x => ~ (tableOf (fields x) = SCHEDULE_AUTO_REPLY_WORK
                                   /\ resourceID x = resourceID (row self))) (WORK w) /\
     (forall x, x ∈ rowsOf SCHEDULE_AUTO_REPLY_WORK w' ->
                resourceID x <> resourceID (row self)) /\
     (length (filter (fun e => isReplyFor rid e = true) rest) <= 1)%nat) /\
  (repliesSent rid (JobItem.runAll jobs w) <= repliesSent rid w + 1)%nat.
Proof.
  split.
  - destruct (autoReply_doWork_effect rid self w) as (r & w' & sent & E & Hwork & Hsent & _).
    destruct (autoReply_doWork_trace self w) as (rest & Htrace).
    rewrite E in Htrace. simpl in Htrace.
    exists r, w', rest. split; [exact E|]. split; [exact Htrace|]. split; [exact Hwork|].
    split.
    + intros x Hx Hr. unfold rowsOf in Hx. rewrite Hwork in Hx.
      apply list_elem_of_filter in Hx. destruct Hx as [Ht Hx].
      apply list_elem_of_filter in Hx. destruct Hx as [Hn _].
      apply Hn. split; assumption.
    + unfold repliesSent in Hsent. rewrite Htrace in Hsent.
      rewrite !filter_app, !length_app in Hsent.
      rewrite filter_cons_False in Hsent by (simpl; congruence).
      rewrite filter_cons_False in Hsent by (simpl; congruence).
      simpl in Hsent. destruct sent; lia.
  - pose proof (runAll_settled rid (repliesSent rid w) jobs w (or_introl eq_refl)) as [H|[H _]];
      rewrite H; lia.
Qed.

Example burst_sends_one_reply :
  repliesSent 1 (JobItem.runAll [11; 12; 13] burst_world) = 1%nat /\
  WORK (JobItem.runAll [11; 12; 13] burst_world) = [] /\
  SCHEDULE_WORK (JobItem.runAll [11; 12; 13] burst_world) = [].
Proof. repeat split; vm_compute; reflexivity. Qed.

(** ** Chaining *)

#[local] Instance workID_le_trans : Transitive workID_le.
Proof. intros a b c. unfold workID_le. lia. Qed.

#[local] Instance workID_le_total : Total workID_le.
Proof. intros a b. unfold workID_le. lia. Qed.

(** The first row in the order of the work ids is the row with the least
    work id. *)
Lemma first_by_workID (l : list ScheduleWork) (s : ScheduleWork) :
  s ∈ l ->
  (forall r, r ∈ l -> r = s \/ sw_workID s < sw_workID r) ->
  take 1 (merge_sort workID_le l) = [s].
Proof.
  intros Hin Hmin.
  pose proof (merge_sort_Permutation workID_le l) as Hperm.
  pose proof (StronglySorted_merge_sort workID_le l) as Hsorted.
  destruct (merge_sort workID_le l) as [|h t].
  - rewrite <- Hperm in Hin. inversion Hin.
  - simpl. rewrite take_0. f_equal.
    assert (h ∈ l) as Hh by (rewrite <- Hperm; left).
    destruct (Hmin h Hh) as [->|Hlt]; [reflexivity|].
    rewrite <- Hperm in Hin. apply elem_of_cons in Hin. destruct Hin as [->|Hin]; [reflexivity|].
    apply StronglySorted_inv in Hsorted. destruct Hsorted as [_ Hall].
    rewrite Forall_forall in Hall. specialize (Hall s Hin). unfold workID_le in Hall. lia.
Qed.

(** C6.  [afterWork] of an organizer-send item looks up the oldest other row
    of SCHEDULE_WORK with its iCalendar UID; when there is one and it is an
    organizer-send row too, the [notBefore] of its job becomes the current
    time, whatever it was, and nothing else in the tables changes; when there
    is none or it is of another kind, only the query shows.  [afterWork] of
    an item of any other kind leaves the world as it is. *)
Theorem afterWork_promotes_next_send (self : WorkItem) (w : World) (o : option ScheduleWork) :
  oldestSibling self w o ->
  ScheduleWorkMixin.afterWork self w =
    if decide (workType self = SCHEDULE_ORGANIZER_SEND_WORK) then
      match o with
      | Some s =>
          if decide (sw_workType s = SCHEDULE_ORGANIZER_SEND_WORK) then
            match JOB w !! sw_jobID s with
            | Some job => (Return tt, promoted (sw_jobID s) job w)
            | None => (Raise NoSuchRecord,
                       set_trace (trace w ++ [EvSelect T_SCHEDULE_WORK; EvSelect T_JOB]) w)
            end
          else (Return tt, set_trace (trace w ++ [EvSelect T_SCHEDULE_WORK]) w)
      | None => (Return tt, set_trace (trace w ++ [EvSelect T_SCHEDULE_WORK]) w)
      end
    else (Return tt, w).
Proof.
  intros Ho. unfold ScheduleWorkMixin.afterWork.
  destruct (decide (workType self = SCHEDULE_ORGANIZER_SEND_WORK)) as [Hsend|Hother];
    [|reflexivity].
  unfold ScheduleWorkMixin.query_next. txn.
  destruct o as [s|]; simpl in Ho.
  - destruct Ho as (Hin & Hs & Hmin).
    rewrite (first_by_workID _ s).
    2:{ apply list_elem_of_filter. split; assumption. }
    2:{ intros r Hr. apply list_elem_of_filter in Hr. destruct Hr as [Hr Hr']. auto. }
    rewrite Hsend.
    destruct (decide (sw_workType s = SCHEDULE_ORGANIZER_SEND_WORK)) as [Hs'|Hs'];
      [|reflexivity].
    unfold JobItem_load, JobItem_update_notBefore. txn.
    destruct (JOB w !! sw_jobID s) as [job|] eqn:Hjob; txn.
    + f_equal. unfold promoted. apply world_eq; simpl; auto.
      rewrite <- !app_assoc. reflexivity.
    + f_equal. apply world_eq; simpl; auto. rewrite <- !app_assoc. reflexivity.
  - replace (filter _ (SCHEDULE_WORK w)) with (@nil ScheduleWork).
    + reflexivity.
    + symmetry. apply filter_none. exact Ho.
Qed.

Lemma afterWork_promotes_next_send_witness :
  ScheduleWorkMixin.afterWork (send_item 1 11) chain_world =
    (Return tt, promoted 12 (send_job 5000 0) chain_world) /\
  JOB (promoted 12 (send_job 5000 0) chain_world) !! 12 = Some (send_job 1000 0).
Proof.
  split; [|vm_compute; reflexivity].
  rewrite (afterWork_promotes_next_send (send_item 1 11) chain_world (Some (send_base 2 12))).
  - reflexivity.
  - split; [right; left|]. split; [split; [reflexivity|discriminate]|].
    intros r Hr _.
    apply elem_of_cons in Hr. destruct Hr as [->|Hr]; [right; simpl; lia|].
    apply elem_of_cons in Hr. destruct Hr as [->|Hr]; [left; reflexivity|].
    inversion Hr.
Defined.

(** ** Migration *)






(** ** Responses and retries *)

Lemma all_pending_forallb (results : list (string * string)) :
  Forall (fun result => result.2 = iTIPRequestStatus.MESSAGE_PENDING_CODE) results ->
  forallb (fun result => bool_decide (result.2 = iTIPRequestStatus.MESSAGE_PENDING_CODE))
          results = true.
Proof.
  induction 1 as [|r rs Hr _ IH]; [reflexivity|].
  simpl. rewrite bool_decide_eq_true_2 by exact Hr. exact IH.
Qed.

(** [checkTemporaryFailure] on results that are all pending: the failures of
    the job decide between the retry and the rewritten results. *)
Lemma checkTemporaryFailure_all_pending (self : WorkItem) (results : list (string * string))
    (job : JobItem) (w : World) :
  Forall (fun result => result.2 = iTIPRequestStatus.MESSAGE_PENDING_CODE) results ->
  JOB w !! jobID self = Some job ->
  ScheduleWorkMixin.checkTemporaryFailure self results w =
    if decide (failed job >= MaxTemporaryFailures (config w))
    then (Return (unavailable results), set_trace (trace w ++ [EvSelect T_JOB]) w)
    else (Raise (JobTemporaryError (TemporaryFailureDelay (config w))),
          set_trace (trace w ++ [EvSelect T_JOB]) w).
Proof.
  intros Hp Hj. unfold ScheduleWorkMixin.checkTemporaryFailure.
  rewrite all_pending_forallb by exact Hp.
  unfold JobItem_load. txn. rewrite Hj. txn.
  destruct (decide (failed job >= MaxTemporaryFailures (config w))); reflexivity.
Qed.

(** What [handleSchedulingResponse] makes of results that all carry the code
    [code], a code other than the delivered one: every property whose value
    is a recipient of the results has its SCHEDULE-STATUS set to [code]. *)
Lemma handleSchedulingResponse_one_code (code : string) (recipients : list string)
    (calendar : Component) (is_organizer : bool) :
  code <> iTIPRequestStatus.MESSAGE_DELIVERED_CODE ->
  ScheduleWorkMixin.handleSchedulingResponse ((fun r => (r, code)) <$> recipients)
    calendar is_organizer =
    (bool_decide (Exists (fun p => value p ∈ recipients)
                         (ScheduleWorkMixin.propertiesFor is_organizer calendar)),
     ScheduleWorkMixin.withProperties is_organizer
       ((fun p => if decide (value p ∈ recipients)
                  then setParameter "SCHEDULE-STATUS" code p else p)
          <$> ScheduleWorkMixin.propertiesFor is_organizer calendar)
       calendar).
Proof.
  intros Hcode. unfold ScheduleWorkMixin.handleSchedulingResponse.
  set (step := fun '(changed, ps) '(recipient, statusCode) => _).
  assert (forall rs changed (ps : list Property),
            foldl step (changed, ps) ((fun r => (r, code)) <$> rs) =
              (changed || bool_decide (Exists (fun p => value p ∈ rs) ps),
               (fun p => if decide (value p ∈ rs)
                         then setParameter "SCHEDULE-STATUS" code p else p) <$> ps)) as Hfold.
  { induction rs as [|r rs IH]; intros changed ps.
    - simpl. f_equal.
      + rewrite bool_decide_eq_false_2; [symmetry; apply orb_false_r|].
        intros H. apply Exists_exists in H. destruct H as (p & _ & H). inversion H.
      + rewrite <- (list_fmap_id ps) at 1. apply list_fmap_ext. intros i p _. simpl.
        destruct (decide (value p ∈ @nil string)) as [H|]; [inversion H|reflexivity].
    - rewrite fmap_cons. simpl. rewrite decide_True by exact Hcode.
      rewrite IH. f_equal.
      + rewrite <- orb_assoc. f_equal.
        apply eq_true_iff_eq. rewrite orb_true_iff, !bool_decide_eq_true.
        rewrite !Exists_exists. split.
        * intros [(p & Hp & Hv)|(p' & Hp' & Hv)].
          -- exists p. split; [exact Hp|]. rewrite Hv. left.
          -- apply list_elem_of_fmap in Hp'. destruct Hp' as (p & -> & Hp).
             exists p. split; [exact Hp|]. right.
             destruct (decide (value p = r)); exact Hv.
        * intros (p & Hp & Hv). apply elem_of_cons in Hv. destruct Hv as [Hv|Hv].
          -- left. exists p. split; assumption.
          -- right. exists (if decide (value p = r)
                           then setParameter "SCHEDULE-STATUS" code p else p).
             split; [apply list_elem_of_fmap; exists p; split; [reflexivity|exact Hp]|].
             destruct (decide (value p = r)); exact Hv.
      + rewrite <- list_fmap_compose. apply list_fmap_ext. intros i p _. simpl.
        destruct (decide (value p = r)) as [Hr|Hr].
        * rewrite (decide_True (P := value p ∈ r :: rs)) by (rewrite Hr; left).
          simpl. destruct (decide (value p ∈ rs)); [|reflexivity].
          unfold setParameter. simpl. rewrite insert_insert_eq. reflexivity.
        * destruct (decide (value p ∈ rs)) as [Hin|Hin].
          -- rewrite decide_True by (right; exact Hin). reflexivity.
          -- rewrite decide_False; [reflexivity|].
             intros H. apply elem_of_cons in H. destruct H; contradiction. }
  rewrite Hfold. reflexivity.
Qed.

Lemma unavailable_recipients (results : list (string * string)) :
  unavailable results =
    (fun r => (r, iTIPRequestStatus.SERVICE_UNAVAILABLE_CODE)) <$> results.*1.
Proof. unfold unavailable. rewrite <- list_fmap_compose. reflexivity. Qed.

Ltac no_write :=
  split; [reflexivity|]; eexists; split; [trace_tail|];
  repeat (constructor; [reflexivity|]); constructor.

Ltac find_event :=
  first [ apply list_elem_of_here | apply list_elem_of_further; find_event ].

Lemma setComponent_homes (resource : Resource) (calendar : Component)
    (state : ComponentUpdateState) (w w0 : World) :
  homes w0 = homes w ->
  homes (_setComponentInternal resource calendar state w0).2 =
    homes (_setComponentInternal resource calendar state w).2.
Proof.
  intros E. unfold _setComponentInternal. txn. rewrite E.
  repeat case_match; simpl; congruence.
Qed.

Lemma organizerSend_retry (self : WorkItem) (results : list (string * string))
    (job : JobItem) (resource : Resource) (w : World)
    (scheduler : ImplicitScheduler) (h : CalendarHome)
    (action : ScheduleAction) (attendee : string) (itipmsg : Component) (noRefresh : bool) :
  Forall (fun result => result.2 = iTIPRequestStatus.MESSAGE_PENDING_CODE) results ->
  JOB w !! jobID self = Some job ->
  fields (row self) = OrganizerSendFields action attendee (Some itipmsg) noRefresh ->
  homes w !! homeResourceID (row self) = Some h ->
  sch_resource scheduler = Some resource ->
  ScheduleWorkMixin.extractSchedulingResponse (queuedResponses scheduler) = (results, false) ->
  retryOutcome results job resource true ORGANIZER_ITIP_UPDATE w
    (ScheduleOrganizerSendWork.doWork self scheduler w).
Proof.
  intros Hp Hj Hf Hh Hs He.
  unfold retryOutcome, ScheduleOrganizerSendWork.doWork.
  rewrite Hf, Hs, He. simpl negb. cbv iota.
  unfold calendarHomeWithResourceID, objectResourceWithID, Component_fromString,
    home_uid_of, NamedLock_acquire.
  txn. rewrite Hh. txn.
  erewrite checkTemporaryFailure_all_pending; [|exact Hp|exact Hj]. simpl.
  destruct (decide (failed job >= MaxTemporaryFailures (config w))) as [Hmax|Hmax].
  - destruct (ScheduleWorkMixin.handleSchedulingResponse (unavailable results)
                (componentForUser resource) true) as [changed calendar] eqn:Hc.
    destruct changed.
    + unfold _setComponentInternal, ScheduleWorkMixin._dequeued. txn.
      repeat (case_match; txn; simplify_eq);
        (eexists; split; [reflexivity|]; simpl; split; [reflexivity|]);
        rewrite <- ?app_assoc; apply elem_of_app; right; simpl; find_event.
    + unfold ScheduleWorkMixin._dequeued. txn.
      repeat (case_match; txn; simplify_eq); (eexists; split; [reflexivity|]); no_write.
  - eexists. split; [reflexivity|]. no_write.
Qed.

Lemma reply_retry (self : WorkItem) (results : list (string * string))
    (job : JobItem) (resource : Resource) (w : World)
    (response : ScheduleResponse) (h : CalendarHome) (itipmsg : Component) :
  Forall (fun result => result.2 = iTIPRequestStatus.MESSAGE_PENDING_CODE) results ->
  JOB w !! jobID self = Some job ->
  fields (row self) = ReplyFields (Some itipmsg) ->
  homes w !! homeResourceID (row self) = Some h ->
  objectResourceWithID (Some (homeResourceID (row self), h)) (resourceID (row self)) w =
    (Return (Some resource), w) ->
  ScheduleWorkMixin.extractSchedulingResponse [response] = (results, false) ->
  retryOutcome results job resource false ATTENDEE_ITIP_UPDATE w
    (ScheduleReplyWork.doWork self response w).
Proof.
  intros Hp Hj Hf Hh Hres He.
  unfold retryOutcome, ScheduleReplyWork.doWork.
  rewrite Hf.
  unfold calendarHomeWithResourceID, Component_fromString.
  txn. rewrite Hh. rewrite Hres. cbv iota.
  unfold ScheduleReplyWork.sendToOrganizer, home_uid_of, NamedLock_acquire.
  txn. rewrite He. txn.
  erewrite checkTemporaryFailure_all_pending; [|exact Hp|exact Hj]. simpl.
  destruct (decide (failed job >= MaxTemporaryFailures (config w))) as [Hmax|Hmax].
  - destruct (ScheduleWorkMixin.handleSchedulingResponse (unavailable results)
                (componentForUser resource) false) as [changed calendar] eqn:Hc.
    destruct changed.
    + unfold _setComponentInternal, ScheduleWorkMixin._dequeued. txn.
      repeat (case_match; txn; simplify_eq);
        (eexists; split; [reflexivity|]; simpl; split; [reflexivity|]);
        rewrite <- ?app_assoc; apply elem_of_app; right; simpl; find_event.
    + unfold ScheduleWorkMixin._dequeued. txn.
      repeat (case_match; txn; simplify_eq); (eexists; split; [reflexivity|]); no_write.
  - eexists. split; [reflexivity|]. no_write.
Qed.

(** C1 (as the code has it).  For an organizer-send or attendee-reply work
    item whose extracted results are not all delivered and are every one of
    them pending: [checkTemporaryFailure] raises the temporary error with the
    configured delay while the failures of the job are below the maximum, and
    [doWork] ends with that error without having written calendar data; from
    the maximum on [checkTemporaryFailure] gives the results with every code
    replaced by the code for an unavailable service, and [doWork] records
    these in the calendar and returns. *)
Theorem retry_while_all_pending (self : WorkItem) (results : list (string * string))
    (job : JobItem) (resource : Resource) (w : World) :
  Forall (fun result => result.2 = iTIPRequestStatus.MESSAGE_PENDING_CODE) results ->
  JOB w !! jobID self = Some job ->
  ScheduleWorkMixin.checkTemporaryFailure self results w =
    (if decide (failed job >= MaxTemporaryFailures (config w))
     then (Return (unavailable results), set_trace (trace w ++ [EvSelect T_JOB]) w)
     else (Raise (JobTemporaryError (TemporaryFailureDelay (config w))),
           set_trace (trace w ++ [EvSelect T_JOB]) w)) /\
  (forall scheduler h action attendee itipmsg noRefresh,
     fields (row self) = OrganizerSendFields action attendee (Some itipmsg) noRefresh ->
     homes w !! homeResourceID (row self) = Some h ->
     sch_resource scheduler = Some resource ->
     ScheduleWorkMixin.extractSchedulingResponse (queuedResponses scheduler)
       = (results, false) ->
     retryOutcome results job resource true ORGANIZER_ITIP_UPDATE w
       (ScheduleOrganizerSendWork.doWork self scheduler w)) /\
  (forall response h itipmsg,
     fields (row self) = ReplyFields (Some itipmsg) ->
     homes w !! homeResourceID (row self) = Some h ->
     objectResourceWithID (Some (homeResourceID (row self), h)) (resourceID (row self)) w =
       (Return (Some resource), w) ->
     ScheduleWorkMixin.extractSchedulingResponse [response] = (results, false) ->
     retryOutcome results job resource false ATTENDEE_ITIP_UPDATE w
       (ScheduleReplyWork.doWork self response w)) /\
  (forall (calendar : Component) (is_organizer : bool) (p : Property),
     p ∈ ScheduleWorkMixin.propertiesFor is_organizer
           (ScheduleWorkMixin.handleSchedulingResponse (unavailable results)
              calendar is_organizer).2 ->
     value p ∈ results.*1 ->
     parameters p !! "SCHEDULE-STATUS" = Some iTIPRequestStatus.SERVICE_UNAVAILABLE_CODE).
Proof.
  intros Hp Hj.
  split; [apply checkTemporaryFailure_all_pending; assumption|].
  split; [intros; eapply organizerSend_retry; eauto|].
  split; [intros; eapply reply_retry; eauto|].
  intros calendar is_organizer p Hin Hv.
  rewrite unavailable_recipients, handleSchedulingResponse_one_code in Hin by discriminate.
  simpl in Hin.
  assert (forall ps, ScheduleWorkMixin.propertiesFor is_organizer
                       (ScheduleWorkMixin.withProperties is_organizer ps calendar) = ps) as Hps
    by (intros ps; destruct is_organizer; reflexivity).
  rewrite Hps in Hin. apply list_elem_of_fmap in Hin. destruct Hin as (q & -> & _).
  destruct (decide (value q ∈ results.*1)) as [_|Hn].
  - simpl. apply lookup_insert_eq.
  - simpl in Hv. contradiction.
Qed.

Lemma retry_while_all_pending_witness :
  retryOutcome [("mailto:a", "1.0")] (send_job 1000 0) example_resource true
    ORGANIZER_ITIP_UPDATE (retry_world 0)
    (ScheduleOrganizerSendWork.doWork (send_item 1 11) pending_scheduler (retry_world 0)) /\
  retryOutcome [("mailto:a", "1.0")] (send_job 1000 10) example_resource true
    ORGANIZER_ITIP_UPDATE (retry_world 10)
    (ScheduleOrganizerSendWork.doWork (send_item 1 11) pending_scheduler (retry_world 10)).
Proof.
  split.
  - destruct (retry_while_all_pending (send_item 1 11) [("mailto:a", "1.0")]
                (send_job 1000 0) example_resource (retry_world 0)) as (_ & Hsend & _).
    + repeat constructor.
    + vm_compute. reflexivity.
    + eapply Hsend; [reflexivity|vm_compute; reflexivity|reflexivity|vm_compute; reflexivity].
  - destruct (retry_while_all_pending (send_item 1 11) [("mailto:a", "1.0")]
                (send_job 1000 10) example_resource (retry_world 10)) as (_ & Hsend & _).
    + repeat constructor.
    + vm_compute. reflexivity.
    + eapply Hsend; [reflexivity|vm_compute; reflexivity|reflexivity|vm_compute; reflexivity].
Defined.

(** The same two runs, computed: the retry below the maximum, and at the
    maximum the code 5.1 recorded for the attendee. *)
Example retry_runs :
  (ScheduleOrganizerSendWork.doWork (send_item 1 11) pending_scheduler (retry_world 0)).1
    = Raise (JobTemporaryError 60) /\
  storedAttendeeStatus
    (ScheduleOrganizerSendWork.doWork (send_item 1 11) pending_scheduler (retry_world 0)).2
    10 1 = [("mailto:a", None); ("mailto:b", None)] /\
  (ScheduleOrganizerSendWork.doWork (send_item 1 11) pending_scheduler (retry_world 10)).1
    = Return tt /\
  storedAttendeeStatus
    (ScheduleOrganizerSendWork.doWork (send_item 1 11) pending_scheduler (retry_world 10)).2
    10 1 = [("mailto:a", Some "5.1"); ("mailto:b", None)].
Proof. repeat split; vm_compute; reflexivity. Qed.

(** One response delivered and one pending: the results are not all
    delivered, every result that is not delivered is pending and the job has
    not failed before, and still nothing is raised: the pending code is
    written to the calendar.  With the failures at the maximum the code
    written is the pending one too, not the one for an unavailable
    service. *)
Lemma retry_not_taken_when_some_delivered :
  ScheduleWorkMixin.extractSchedulingResponse (queuedResponses mixed_scheduler)
    = ([("mailto:a", "1.2"); ("mailto:b", "1.0")], false) /\
  Forall (fun result => result.2 <> iTIPRequestStatus.MESSAGE_DELIVERED_CODE ->
                        result.2 = iTIPRequestStatus.MESSAGE_PENDING_CODE)
         [("mailto:a", "1.2"); ("mailto:b", "1.0")] /\
  JOB (retry_world 0) !! jobID (send_item 1 11) = Some (send_job 1000 0) /\
  failed (send_job 1000 0) < MaxTemporaryFailures (config (retry_world 0)) /\
  ScheduleWorkMixin.checkTemporaryFailure (send_item 1 11)
    [("mailto:a", "1.2"); ("mailto:b", "1.0")] (retry_world 0)
    = (Return [("mailto:a", "1.2"); ("mailto:b", "1.0")], retry_world 0) /\
  (ScheduleOrganizerSendWork.doWork (send_item 1 11) mixed_scheduler (retry_world 0)).1
    = Return tt /\
  trace (ScheduleOrganizerSendWork.doWork (send_item 1 11) mixed_scheduler (retry_world 0)).2
    = [ EvLog "ScheduleOrganizerSendWork - running"; EvNamedLock "uid1";
        EvOrganizerSending "uid1" "mailto:a";
        EvSetComponent 10 1 ORGANIZER_ITIP_UPDATE;
        EvLog "ScheduleOrganizerSendWork - done" ] /\
  storedAttendeeStatus
    (ScheduleOrganizerSendWork.doWork (send_item 1 11) mixed_scheduler (retry_world 0)).2
    10 1 = [("mailto:a", None); ("mailto:b", Some "1.0")] /\
  storedAttendeeStatus
    (ScheduleOrganizerSendWork.doWork (send_item 1 11) mixed_scheduler (retry_world 10)).2
    10 1 = [("mailto:a", None); ("mailto:b", Some "1.0")].
Proof.
  split; [vm_compute; reflexivity|].
  split.
  { constructor; [intros H; exfalso; apply H; reflexivity|].
    constructor; [intros _; reflexivity|]. constructor. }
  split; [vm_compute; reflexivity|].
  split; [reflexivity|].
  repeat split; vm_compute; reflexivity.
Qed.

(** * Further properties of work.py *)

(** ** Status codes and responses *)

Lemma split_first_no_separator (sep : ascii) (s : string) :
  ~ occurs sep (split_first sep s).
Proof.
  induction s as [|a s IH]; simpl; [tauto|].
  destruct (Ascii.eqb a sep) eqn:E; simpl; [tauto|].
  intros [H|H]; [|tauto]. subst a. rewrite Ascii.eqb_refl in E. discriminate.
Qed.

Lemma split_first_whole (sep : ascii) (s : string) :
  ~ occurs sep s -> split_first sep s = s.
Proof.
  induction s as [|a s IH]; simpl; [reflexivity|].
  intros H. destruct (Ascii.eqb a sep) eqn:E.
  - apply Ascii.eqb_eq in E. tauto.
  - f_equal. apply IH. tauto.
Qed.

Lemma split_first_append (sep : ascii) (code rest : string) :
  ~ occurs sep code -> split_first sep (code +:+ String sep rest) = code.
Proof.
  induction code as [|a code IH]; simpl.
  - intros _. rewrite Ascii.eqb_refl. reflexivity.
  - intros H. destruct (Ascii.eqb a sep) eqn:E.
    + apply Ascii.eqb_eq in E. tauto.
    + f_equal. apply IH. tauto.
Qed.

(** X1.  The status code taken from a request status is the text before
    the first separator: for a status "code;text" whose code has no
    separator it is the code, and for a status without separator it is the
    whole status.  What is taken never has a separator in it. *)
Theorem statusCode_is_the_prefix (sep : ascii) (code text : string) :
  ~ occurs sep code ->
  split_first sep (code +:+ String sep text) = code /\
  split_first sep code = code /\
  (forall s, ~ occurs sep (split_first sep s)).
Proof.
  intros H. split; [apply split_first_append; exact H|].
  split; [apply split_first_whole; exact H|].
  intros s. apply split_first_no_separator.
Qed.

Lemma statusCode_is_the_prefix_witness :
  split_first ";" ("3.7" +:+ String ";" "Invalid calendar user;extra") = "3.7" /\
  split_first ";" "3.7" = "3.7".
Proof.
  destruct (statusCode_is_the_prefix ";" "3.7" "Invalid calendar user;extra") as (A & B & _).
  - simpl. intros [H|[H|[H|[]]]]; discriminate H.
  - split; [exact A|exact B].
Defined.

Lemma extract_inner (items : list ResponseItem) :
  forall (results : list (string * string)) (all_delivered : bool),
    foldl (fun '(results, all_delivered) item =>
             let statusCode := split_first ";" (reqstatus item) in
             (results ++ [(recipient item, statusCode)],
              if decide (statusCode <> iTIPRequestStatus.MESSAGE_DELIVERED_CODE)
              then false else all_delivered))
          (results, all_delivered) items =
      (results ++ ((fun item => (recipient item, split_first ";" (reqstatus item))) <$> items),
       all_delivered &&
       forallb (fun item => bool_decide (split_first ";" (reqstatus item)
                                         = iTIPRequestStatus.MESSAGE_DELIVERED_CODE)) items).
Proof.
  induction items as [|item items IH]; intros results all_delivered; simpl.
  - rewrite app_nil_r, andb_true_r. reflexivity.
  - rewrite IH. rewrite <- app_assoc. simpl. f_equal.
    destruct (decide (split_first ";" (reqstatus item)
                      <> iTIPRequestStatus.MESSAGE_DELIVERED_CODE)) as [Hne|He].
    + rewrite bool_decide_eq_false_2 by exact Hne. simpl. rewrite andb_false_r. reflexivity.
    + rewrite bool_decide_eq_true_2 by (destruct (decide (split_first ";" (reqstatus item)
                      = iTIPRequestStatus.MESSAGE_DELIVERED_CODE)); tauto).
      reflexivity.
Qed.

Lemma extract_closed_form (queued : list ScheduleResponse) :
  ScheduleWorkMixin.extractSchedulingResponse queued =
    ((fun item => (recipient item, split_first ";" (reqstatus item)))
       <$> concat (responses <$> queued),
     forallb (fun item => bool_decide (split_first ";" (reqstatus item)
                                       = iTIPRequestStatus.MESSAGE_DELIVERED_CODE))
             (concat (responses <$> queued))).
Proof.
  unfold ScheduleWorkMixin.extractSchedulingResponse.
  assert (forall results all_delivered,
            foldl (fun acc response =>
                     foldl (fun '(results, all_delivered) item =>
                              let statusCode := split_first ";" (reqstatus item) in
                              (results ++ [(recipient item, statusCode)],
                               if decide (statusCode <> iTIPRequestStatus.MESSAGE_DELIVERED_CODE)
                               then false else all_delivered))
                           acc (responses response))
                  (results, all_delivered) queued =
              (results ++ ((fun item => (recipient item, split_first ";" (reqstatus item)))
                             <$> concat (responses <$> queued)),
               all_delivered &&
               forallb (fun item => bool_decide (split_first ";" (reqstatus item)
                                                 = iTIPRequestStatus.MESSAGE_DELIVERED_CODE))
                       (concat (responses <$> queued)))) as H.
  { induction queued as [|q queued IH]; intros results all_delivered; simpl.
    - rewrite app_nil_r, andb_true_r. reflexivity.
    - rewrite extract_inner, IH. rewrite fmap_app, forallb_app, app_assoc, andb_assoc.
      reflexivity. }
  rewrite H. reflexivity.
Qed.

Lemma forallb_decide_Forall {A} (P : A -> Prop) `{!forall x, Decision (P x)} (l : list A) :
  forallb (fun x => bool_decide (P x)) l = true <-> Forall P l.
Proof.
  induction l as [|x l IH]; simpl.
  - split; [constructor|reflexivity].
  - rewrite andb_true_iff, bool_decide_eq_true, IH. split.
    + intros [? ?]. constructor; assumption.
    + intros Hall. inversion Hall; subst. split; assumption.
Qed.

(** X2.  [extractSchedulingResponse] lists one pair for every item of every
    response, in the order of the responses, with the recipient and the
    status code before the separator; its flag is [True] exactly when every
    code listed is the delivered code, so it is [True] for no responses at
    all. *)
Theorem extractSchedulingResponse_lists_all (queued : list ScheduleResponse) :
  (ScheduleWorkMixin.extractSchedulingResponse queued).1 =
    (fun item => (recipient item, split_first ";" (reqstatus item)))
      <$> concat (responses <$> queued) /\
  ((ScheduleWorkMixin.extractSchedulingResponse queued).2 = true <->
   Forall (fun result => result.2 = iTIPRequestStatus.MESSAGE_DELIVERED_CODE)
          (ScheduleWorkMixin.extractSchedulingResponse queued).1) /\
  ScheduleWorkMixin.extractSchedulingResponse [] = ([], true).
Proof.
  rewrite extract_closed_form. simpl. split; [reflexivity|]. split; [|reflexivity].
  rewrite forallb_decide_Forall, Forall_fmap. reflexivity.
Qed.

Lemma lastFailure_snoc (v recipient statusCode : string) (response : list (string * string)) :
  lastFailure v (response ++ [(recipient, statusCode)]) =
    if decide (recipient = v /\ statusCode <> iTIPRequestStatus.MESSAGE_DELIVERED_CODE)
    then Some statusCode else lastFailure v response.
Proof.
  unfold lastFailure. rewrite filter_app.
  destruct (decide (recipient = v /\ statusCode <> iTIPRequestStatus.MESSAGE_DELIVERED_CODE))
    as [H|H].
  - rewrite (filter_cons_True _ (recipient, statusCode)) by exact H.
    rewrite filter_nil, last_snoc. reflexivity.
  - rewrite (filter_cons_False _ (recipient, statusCode)) by exact H.
    rewrite filter_nil, app_nil_r. reflexivity.
Qed.

Lemma setParameter_twice (name v v' : string) (p : Property) :
  setParameter name v' (setParameter name v p) = setParameter name v' p.
Proof. unfold setParameter. simpl. rewrite insert_insert_eq. reflexivity. Qed.

Lemma withLastFailure_value (response : list (string * string)) (p : Property) :
  value (withLastFailure response p) = value p.
Proof. unfold withLastFailure. destruct (lastFailure (value p) response); reflexivity. Qed.

(** The loop of [handleSchedulingResponse], from the properties [ps]. *)
Lemma handle_loop (ps : list Property) (response : list (string * string)) :
  foldl (fun '(changed, ps) '(recipient, statusCode) =>
           if decide (statusCode <> iTIPRequestStatus.MESSAGE_DELIVERED_CODE) then
             (changed || bool_decide (Exists (fun p => value p = recipient) ps),
              (fun p => if decide (value p = recipient)
                        then setParameter "SCHEDULE-STATUS" statusCode p else p) <$> ps)
           else (changed, ps))
        (false, ps) response =
    (bool_decide (Exists (fun p => is_Some (lastFailure (value p) response)) ps),
     withLastFailure response <$> ps).
Proof.
  induction response as [|[recipient statusCode] response IH] using rev_ind.
  - simpl. f_equal.
    + symmetry. apply bool_decide_eq_false_2. intros H. apply Exists_exists in H.
      destruct H as (p & _ & [c Hc]). discriminate Hc.
    + rewrite <- (list_fmap_id ps) at 1. apply list_fmap_ext. intros i p _. reflexivity.
  - rewrite foldl_app, IH. simpl.
    destruct (decide (statusCode <> iTIPRequestStatus.MESSAGE_DELIVERED_CODE)) as [Hne|He].
    + f_equal.
      * apply eq_true_iff_eq. rewrite orb_true_iff, !bool_decide_eq_true, !Exists_exists.
        split.
        -- intros [(p & Hp & Hs)|(p' & Hp' & Hv)].
           ++ exists p. split; [exact Hp|]. rewrite lastFailure_snoc.
              destruct (decide _); [eexists; reflexivity|exact Hs].
           ++ apply list_elem_of_fmap in Hp'. destruct Hp' as (p & -> & Hp).
              rewrite withLastFailure_value in Hv.
              exists p. split; [exact Hp|]. rewrite lastFailure_snoc.
              rewrite decide_True by (split; [symmetry; exact Hv|exact Hne]).
              eexists; reflexivity.
        -- intros (p & Hp & Hs). rewrite lastFailure_snoc in Hs.
           destruct (decide (recipient = value p /\ _)) as [[Hr _]|Hn].
           ++ right. exists (withLastFailure response p).
              split; [apply list_elem_of_fmap; exists p; split; [reflexivity|exact Hp]|].
              rewrite withLastFailure_value. symmetry. exact Hr.
           ++ left. exists p. split; assumption.
      * rewrite <- list_fmap_compose. apply list_fmap_ext. intros i p _. simpl.
        rewrite withLastFailure_value. unfold withLastFailure at 3.
        rewrite lastFailure_snoc.
        destruct (decide (value p = recipient)) as [Hv|Hv].
        -- rewrite decide_True by (split; [symmetry; exact Hv|exact Hne]).
           unfold withLastFailure. destruct (lastFailure (value p) response);
             [apply setParameter_twice|reflexivity].
        -- rewrite decide_False by (intros [Hr _]; apply Hv; symmetry; exact Hr).
           reflexivity.
    + f_equal.
      * apply bool_decide_ext. rewrite !Exists_exists. 
        split; intros (p & Hp & Hs); exists p; (split; [exact Hp|]);
          rewrite lastFailure_snoc in *;
          rewrite decide_False in * by (intros [_ Hc]; apply Hc;
            destruct (decide (statusCode = iTIPRequestStatus.MESSAGE_DELIVERED_CODE)); tauto);
          exact Hs.
      * apply list_fmap_ext. intros i p _. unfold withLastFailure.
        rewrite lastFailure_snoc.
        rewrite decide_False by (intros [_ Hc]; apply Hc;
            destruct (decide (statusCode = iTIPRequestStatus.MESSAGE_DELIVERED_CODE)); tauto).
        reflexivity.
Qed.

Lemma handle_closed_form (response : list (string * string)) (calendar : Component)
    (is_organizer : bool) :
  ScheduleWorkMixin.handleSchedulingResponse response calendar is_organizer =
    (bool_decide (Exists (fun p => is_Some (lastFailure (value p) response))
                         (ScheduleWorkMixin.propertiesFor is_organizer calendar)),
     ScheduleWorkMixin.withProperties is_organizer
       (withLastFailure response <$> ScheduleWorkMixin.propertiesFor is_organizer calendar)
       calendar).
Proof.
  unfold ScheduleWorkMixin.handleSchedulingResponse. rewrite handle_loop. reflexivity.
Qed.

Lemma withProperties_same (is_organizer : bool) (calendar : Component) :
  ScheduleWorkMixin.withProperties is_organizer
    (ScheduleWorkMixin.propertiesFor is_organizer calendar) calendar = calendar.
Proof. destruct calendar, is_organizer; reflexivity. Qed.

Lemma propertiesFor_withProperties (is_organizer : bool) (ps : list Property)
    (calendar : Component) :
  ScheduleWorkMixin.propertiesFor is_organizer
    (ScheduleWorkMixin.withProperties is_organizer ps calendar) = ps.
Proof. destruct is_organizer; reflexivity. Qed.

Lemma lastFailure_Some (v : string) (response : list (string * string)) (c : string) :
  lastFailure v response = Some c ->
  (v, c) ∈ response /\ c <> iTIPRequestStatus.MESSAGE_DELIVERED_CODE.
Proof.
  unfold lastFailure. intros H.
  destruct (last (filter _ response)) as [[r c']|] eqn:E; [|discriminate].
  simpl in H. injection H as ->.
  apply last_Some_elem_of in E. apply list_elem_of_filter in E.
  destruct E as [[Hr Hc] Hin]. simpl in *. subst r. split; assumption.
Qed.

Lemma lastFailure_None (v : string) (response : list (string * string)) :
  lastFailure v response = None <->
  forall c, (v, c) ∈ response -> c = iTIPRequestStatus.MESSAGE_DELIVERED_CODE.
Proof.
  unfold lastFailure. split.
  - intros H c Hin.
    destruct (last (filter _ response)) eqn:E; [discriminate|].
    apply last_None in E.
    destruct (decide (c = iTIPRequestStatus.MESSAGE_DELIVERED_CODE)) as [|Hne]; [assumption|].
    exfalso. eapply (filter_nil_not_elem_of _ _ (v, c) E); [|exact Hin].
    split; [reflexivity|exact Hne].
  - intros H. destruct (last (filter _ response)) as [[r c]|] eqn:E; [|reflexivity].
    apply last_Some_elem_of in E. apply list_elem_of_filter in E.
    destruct E as [[Hr Hc] Hin]. simpl in *. subst r. destruct (Hc (H c Hin)).
Qed.

(** X3.  [handleSchedulingResponse] leaves every ATTENDEE property (for the
    organizer; every ORGANIZER property otherwise) with the status code of
    the last result for its value that is not delivered as its
    SCHEDULE-STATUS, and as it was when there is no such result; its flag is
    [True] exactly when some property has such a result. *)
Theorem handleSchedulingResponse_last_failure_wins (response : list (string * string))
    (calendar : Component) (is_organizer : bool) :
  let ps := ScheduleWorkMixin.propertiesFor is_organizer calendar in
  let result := ScheduleWorkMixin.handleSchedulingResponse response calendar is_organizer in
  ScheduleWorkMixin.propertiesFor is_organizer result.2 = withLastFailure response <$> ps /\
  (forall p c, lastFailure (value p) response = Some c ->
               parameters (withLastFailure response p) !! "SCHEDULE-STATUS" = Some c) /\
  (forall p, lastFailure (value p) response = None -> withLastFailure response p = p) /\
  (result.1 = true <->
   exists p c, p ∈ ps /\ (value p, c) ∈ response /\
               c <> iTIPRequestStatus.MESSAGE_DELIVERED_CODE).
Proof.
  intros ps result. unfold result. rewrite handle_closed_form. simpl.
  split; [apply propertiesFor_withProperties|].
  split; [intros p c H; unfold withLastFailure; rewrite H; apply lookup_insert_eq|].
  split; [intros p H; unfold withLastFailure; rewrite H; reflexivity|].
  rewrite bool_decide_eq_true, Exists_exists. fold ps. split.
  - intros (p & Hp & [c Hc]). apply lastFailure_Some in Hc. destruct Hc as [Hin Hne].
    exists p, c. auto.
  - intros (p & c & Hp & Hin & Hne). exists p. split; [exact Hp|].
    destruct (lastFailure (value p) response) eqn:E; [eexists; reflexivity|].
    exfalso. apply Hne. eapply lastFailure_None; eauto.
Qed.

(** X4.  Results that are all delivered change nothing:
    [handleSchedulingResponse] gives [False] and the calendar it was
    given. *)
Theorem handleSchedulingResponse_delivered_only (response : list (string * string))
    (calendar : Component) (is_organizer : bool) :
  Forall (fun result => result.2 = iTIPRequestStatus.MESSAGE_DELIVERED_CODE) response ->
  ScheduleWorkMixin.handleSchedulingResponse response calendar is_organizer
    = (false, calendar).
Proof.
  intros Hall. rewrite handle_closed_form.
  assert (forall v, lastFailure v response = None) as Hnone.
  { intros v. apply lastFailure_None. intros c Hin.
    rewrite Forall_forall in Hall. apply (Hall _ Hin). }
  f_equal.
  - apply bool_decide_eq_false_2. intros H. apply Exists_exists in H.
    destruct H as (p & _ & [c Hc]). rewrite Hnone in Hc. discriminate.
  - replace (withLastFailure response <$> ScheduleWorkMixin.propertiesFor is_organizer calendar)
      with (ScheduleWorkMixin.propertiesFor is_organizer calendar);
      [apply withProperties_same|].
    symmetry. etrans; [|apply list_fmap_id].
    apply list_fmap_ext. intros i p _. unfold withLastFailure. rewrite Hnone. reflexivity.
Qed.

Lemma handleSchedulingResponse_delivered_only_witness :
  ScheduleWorkMixin.handleSchedulingResponse
    [("mailto:a", "1.2"); ("mailto:b", "1.2")] example_component true
    = (false, example_component).
Proof.
  apply (handleSchedulingResponse_delivered_only
           [("mailto:a", "1.2"); ("mailto:b", "1.2")] example_component true).
  repeat constructor.
Defined.

(** X5.  When [handleSchedulingResponse] gives [False], the calendar it
    gives is the calendar it was given, whatever the results were (no
    recipient that failed is in the calendar). *)
Theorem handleSchedulingResponse_unchanged_flag (response : list (string * string))
    (calendar : Component) (is_organizer : bool) :
  (ScheduleWorkMixin.handleSchedulingResponse response calendar is_organizer).1 = false ->
  (ScheduleWorkMixin.handleSchedulingResponse response calendar is_organizer).2 = calendar.
Proof.
  rewrite handle_closed_form. simpl. intros H.
  apply bool_decide_eq_false in H.
  replace (withLastFailure response <$> ScheduleWorkMixin.propertiesFor is_organizer calendar)
    with (ScheduleWorkMixin.propertiesFor is_organizer calendar);
    [apply withProperties_same|].
  symmetry. etrans; [|apply list_fmap_id].
  apply list_fmap_ext. intros i p Hp. unfold withLastFailure.
  destruct (lastFailure (value p) response) eqn:E; [|reflexivity].
  exfalso. apply H. apply Exists_exists. exists p.
  split; [eapply list_elem_of_lookup_2; exact Hp|]. rewrite E. eexists; reflexivity.
Qed.

Lemma handleSchedulingResponse_unchanged_flag_witness :
  (ScheduleWorkMixin.handleSchedulingResponse
     [("mailto:nobody", "5.3")] example_component true).2 = example_component.
Proof.
  apply (handleSchedulingResponse_unchanged_flag
           [("mailto:nobody", "5.3")] example_component true).
  vm_compute. reflexivity.
Defined.

(** X6.  [handleSchedulingResponse] only sets SCHEDULE-STATUS: the calendar
    it gives has the same UID and organizer, the properties of the other
    role as they were, and at each place a property with the value it had
    and with every other parameter as it was. *)
Theorem handleSchedulingResponse_frame (response : list (string * string))
    (calendar : Component) (is_organizer : bool) :
  let after := (ScheduleWorkMixin.handleSchedulingResponse response calendar is_organizer).2 in
  resourceUID after = resourceUID calendar /\
  validOrganizerForScheduling after = validOrganizerForScheduling calendar /\
  ScheduleWorkMixin.propertiesFor (negb is_organizer) after =
    ScheduleWorkMixin.propertiesFor (negb is_organizer) calendar /\
  value <$> ScheduleWorkMixin.propertiesFor is_organizer after =
    value <$> ScheduleWorkMixin.propertiesFor is_organizer calendar /\
  (forall i p, ScheduleWorkMixin.propertiesFor is_organizer calendar !! i = Some p ->
     exists p', ScheduleWorkMixin.propertiesFor is_organizer after !! i = Some p' /\
                forall name, name <> "SCHEDULE-STATUS" ->
                             parameters p' !! name = parameters p !! name).
Proof.
  intros after. unfold after. rewrite handle_closed_form. simpl.
  split; [destruct is_organizer; reflexivity|].
  split; [destruct is_organizer; reflexivity|].
  split; [destruct is_organizer; reflexivity|].
  rewrite propertiesFor_withProperties.
  split.
  - rewrite <- list_fmap_compose. apply list_fmap_ext. intros i p _. simpl.
    apply withLastFailure_value.
  - intros i p Hp. exists (withLastFailure response p). split.
    + rewrite list_lookup_fmap, Hp. reflexivity.
    + intros name Hname. unfold withLastFailure.
      destruct (lastFailure (value p) response); [|reflexivity].
      simpl. apply lookup_insert_ne. congruence.
Qed.

(** ** The check for a temporary failure *)

Lemma not_all_pending_forallb (results : list (string * string)) :
  Exists (fun result => result.2 <> iTIPRequestStatus.MESSAGE_PENDING_CODE) results ->
  forallb (fun result => bool_decide (result.2 = iTIPRequestStatus.MESSAGE_PENDING_CODE))
          results = false.
Proof.
  intros H.
  destruct (forallb _ results) eqn:E; [|reflexivity].
  apply forallb_decide_Forall in E. apply Exists_exists in H.
  destruct H as (r & Hin & Hne). rewrite Forall_forall in E. destruct (Hne (E r Hin)).
Qed.

Lemma checkTemporaryFailure_not_all_pending (self : WorkItem)
    (results : list (string * string)) (w : World) :
  Exists (fun result => result.2 <> iTIPRequestStatus.MESSAGE_PENDING_CODE) results ->
  ScheduleWorkMixin.checkTemporaryFailure self results w = (Return results, w).
Proof.
  intros H. unfold ScheduleWorkMixin.checkTemporaryFailure.
  rewrite not_all_pending_forallb by exact H. reflexivity.
Qed.

(** X7.  When some result is not pending, [checkTemporaryFailure] returns
    with the results as they are and does not look at the job: nothing is
    raised however often the job has failed, and the world is as it was. *)
Theorem checkTemporaryFailure_permanent (self : WorkItem)
    (results : list (string * string)) (w : World) :
  Exists (fun result => result.2 <> iTIPRequestStatus.MESSAGE_PENDING_CODE) results ->
  ScheduleWorkMixin.checkTemporaryFailure self results w = (Return results, w).
Proof. apply checkTemporaryFailure_not_all_pending. Qed.

Lemma checkTemporaryFailure_permanent_witness :
  ScheduleWorkMixin.checkTemporaryFailure (send_item 1 11)
    [("mailto:a", "1.0"); ("mailto:b", "3.7")] (retry_world 0)
    = (Return [("mailto:a", "1.0"); ("mailto:b", "3.7")], retry_world 0).
Proof.
  apply (checkTemporaryFailure_permanent (send_item 1 11)
           [("mailto:a", "1.0"); ("mailto:b", "3.7")] (retry_world 0)).
  right. left. simpl. discriminate.
Defined.

(** X8.  Whatever [checkTemporaryFailure] returns has the recipients of the
    results it was given, in their order: the results themselves, or the
    results with every code replaced by the code for an unavailable
    service. *)
Theorem checkTemporaryFailure_keeps_recipients (self : WorkItem)
    (results results' : list (string * string)) (w w' : World) :
  ScheduleWorkMixin.checkTemporaryFailure self results w = (Return results', w') ->
  results'.*1 = results.*1 /\ (results' = results \/ results' = unavailable results).
Proof.
  unfold ScheduleWorkMixin.checkTemporaryFailure, JobItem_load. txn.
  destruct (forallb _ results); [|intros [= <- <-]; auto].
  destruct (JOB w !! jobID self) as [job|]; txn; [|discriminate].
  destruct (decide (failed job >= MaxTemporaryFailures (config w))); [|discriminate].
  intros [= <- <-]. split; [|right; reflexivity].
  rewrite <- list_fmap_compose. reflexivity.
Qed.

Lemma checkTemporaryFailure_keeps_recipients_witness :
  (unavailable [("mailto:a", "1.0")]).*1 = ["mailto:a"].
Proof.
  destruct (checkTemporaryFailure_keeps_recipients (send_item 1 11)
              [("mailto:a", "1.0")] (unavailable [("mailto:a", "1.0")])
              (retry_world 10)
              (set_trace [EvSelect T_JOB] (retry_world 10))) as [H _].
  - vm_compute. reflexivity.
  - exact H.
Defined.

(** X9.  When every result is pending, and also when there is no result,
    [checkTemporaryFailure] loads the job, and without a row for the job it
    fails with [NoSuchRecord]. *)
Theorem checkTemporaryFailure_without_job (self : WorkItem)
    (results : list (string * string)) (w : World) :
  Forall (fun result => result.2 = iTIPRequestStatus.MESSAGE_PENDING_CODE) results ->
  JOB w !! jobID self = None ->
  ScheduleWorkMixin.checkTemporaryFailure self results w =
    (Raise NoSuchRecord, set_trace (trace w ++ [EvSelect T_JOB]) w).
Proof.
  intros Hp Hj. unfold ScheduleWorkMixin.checkTemporaryFailure.
  rewrite all_pending_forallb by exact Hp.
  unfold JobItem_load. txn. rewrite Hj. reflexivity.
Qed.

Lemma checkTemporaryFailure_without_job_witness :
  ScheduleWorkMixin.checkTemporaryFailure (send_item 1 12) [] (retry_world 0) =
    (Raise NoSuchRecord, set_trace [EvSelect T_JOB] (retry_world 0)).
Proof.
  apply (checkTemporaryFailure_without_job (send_item 1 12) [] (retry_world 0)).
  - constructor.
  - vm_compute. reflexivity.
Defined.

(** ** Runs that send and have nothing to retry *)

Lemma organizerSend_quiet_run (self : WorkItem) (scheduler : ImplicitScheduler)
    (h : CalendarHome) (action : ScheduleAction) (attendee : string)
    (itipmsg : Component) (noRefresh : bool) (w : World) :
  fields (row self) = OrganizerSendFields action attendee (Some itipmsg) noRefresh ->
  homes w !! homeResourceID (row self) = Some h ->
  sch_resource scheduler = None \/
    (ScheduleWorkMixin.extractSchedulingResponse (queuedResponses scheduler)).2 = true ->
  ScheduleOrganizerSendWork.doWork self scheduler w =
    (Return tt,
     dequeuedWith ([EvLog "ScheduleOrganizerSendWork - running";
                    EvNamedLock (icalendarUID self);
                    EvOrganizerSending (icalendarUID self) attendee]
                   ++ lastDequeue w ++ [EvLog "ScheduleOrganizerSendWork - done"]) w).
Proof.
  intros Hf Hh Hd.
  unfold ScheduleOrganizerSendWork.doWork. rewrite Hf.
  unfold calendarHomeWithResourceID, objectResourceWithID, Component_fromString,
    home_uid_of, NamedLock_acquire.
  txn. rewrite Hh. txn.
  unfold ScheduleWorkMixin._dequeued, lastDequeue, dequeuedWith.
  destruct (sch_resource scheduler) as [resource|].
  - destruct Hd as [Hd|Hd]; [discriminate|].
    destruct (ScheduleWorkMixin.extractSchedulingResponse (queuedResponses scheduler))
      as [responses all_delivered].
    simpl in Hd. rewrite Hd. txn.
    repeat (case_match; txn; simplify_eq); f_equal; apply world_eq; simpl;
      rewrite <- ?app_assoc; reflexivity.
  - txn.
    repeat (case_match; txn; simplify_eq); f_equal; apply world_eq; simpl;
      rewrite <- ?app_assoc; reflexivity.
Qed.

(** X10.  An organizer-send work item whose scheduler has no resource, or
    whose responses were all delivered (none at all among them), sends its
    message and is done: it takes the lock of the UID, calls the scheduler,
    counts itself off the queue and returns.  It reads no job, writes no
    calendar data and leaves the tables as they were. *)
Theorem organizerSend_delivered (self : WorkItem) (scheduler : ImplicitScheduler)
    (h : CalendarHome) (action : ScheduleAction) (attendee : string)
    (itipmsg : Component) (noRefresh : bool) (w : World) :
  fields (row self) = OrganizerSendFields action attendee (Some itipmsg) noRefresh ->
  homes w !! homeResourceID (row self) = Some h ->
  sch_resource scheduler = None \/
    (ScheduleWorkMixin.extractSchedulingResponse (queuedResponses scheduler)).2 = true ->
  ScheduleOrganizerSendWork.doWork self scheduler w =
    (Return tt,
     dequeuedWith ([EvLog "ScheduleOrganizerSendWork - running";
                    EvNamedLock (icalendarUID self);
                    EvOrganizerSending (icalendarUID self) attendee]
                   ++ lastDequeue w ++ [EvLog "ScheduleOrganizerSendWork - done"]) w).
Proof. apply organizerSend_quiet_run. Qed.

Lemma organizerSend_delivered_witness :
  ScheduleOrganizerSendWork.doWork (send_item 1 11) delivered_scheduler (retry_world 0) =
    (Return tt,
     dequeuedWith [EvLog "ScheduleOrganizerSendWork - running"; EvNamedLock "uid1";
                   EvOrganizerSending "uid1" "mailto:a";
                   EvLog "ScheduleOrganizerSendWork - done"] (retry_world 0)).
Proof.
  apply (organizerSend_delivered (send_item 1 11) delivered_scheduler
           {| home_uid := "user01";
              home_objects := {[ 1 := {| obj_uid := "uid1";
                                         obj_component := example_component |} ]} |}
           ActionModify "mailto:a" example_component false (retry_world 0)).
  - reflexivity.
  - vm_compute. reflexivity.
  - right. vm_compute. reflexivity.
Defined.

Lemma storedResource_lookup (self : WorkItem) (h : CalendarHome) :
  objectResourceWithID (Some (homeResourceID (row self), h)) (resourceID (row self)) =
    ret (storedResource self h).
Proof.
  unfold objectResourceWithID, storedResource.
  destruct (resourceID (row self)); [|reflexivity].
  destruct (home_objects h !! z); reflexivity.
Qed.

(** X11.  An attendee-reply work item whose resource is no longer in the
    home, or whose response was delivered, sends its reply and is done: it
    takes the lock of the UID of the message, sends, counts itself off the
    queue and returns.  It reads no job, writes no calendar data and leaves
    the tables as they were. *)
Theorem reply_delivered (self : WorkItem) (response : ScheduleResponse)
    (h : CalendarHome) (itipmsg : Component) (w : World) :
  fields (row self) = ReplyFields (Some itipmsg) ->
  homes w !! homeResourceID (row self) = Some h ->
  storedResource self h = None \/
    (ScheduleWorkMixin.extractSchedulingResponse [response]).2 = true ->
  ScheduleReplyWork.doWork self response w =
    (Return tt,
     dequeuedWith ([EvLog "ScheduleReplyWork - running";
                    EvNamedLock (resourceUID itipmsg);
                    EvLog "Implicit REPLY";
                    EvReplyToOrganizer (resourceUID itipmsg)
                      (validOrganizerForScheduling itipmsg)]
                   ++ lastDequeue w ++ [EvLog "ScheduleReplyWork - done"]) w).
Proof.
  intros Hf Hh Hd.
  unfold ScheduleReplyWork.doWork. rewrite Hf.
  unfold calendarHomeWithResourceID, Component_fromString.
  txn. rewrite Hh. rewrite storedResource_lookup. txn.
  unfold ScheduleReplyWork.sendToOrganizer, home_uid_of, NamedLock_acquire.
  unfold ScheduleWorkMixin._dequeued, lastDequeue, dequeuedWith.
  destruct (storedResource self h) as [resource|].
  - destruct Hd as [Hd|Hd]; [discriminate|].
    destruct (ScheduleWorkMixin.extractSchedulingResponse [response])
      as [responses all_delivered].
    simpl in Hd. rewrite Hd. txn.
    repeat (case_match; txn; simplify_eq); f_equal; apply world_eq; simpl;
      rewrite <- ?app_assoc; reflexivity.
  - txn.
    repeat (case_match; txn; simplify_eq); f_equal; apply world_eq; simpl;
      rewrite <- ?app_assoc; reflexivity.
Qed.

Lemma reply_delivered_witness :
  ScheduleReplyWork.doWork (reply_item 1 11) refused_response gone_world =
    (Return tt,
     dequeuedWith [EvLog "ScheduleReplyWork - running"; EvNamedLock "uid1";
                   EvLog "Implicit REPLY"; EvReplyToOrganizer "uid1" "mailto:org";
                   EvLog "ScheduleReplyWork - done"] gone_world).
Proof.
  apply (reply_delivered (reply_item 1 11) refused_response
           {| home_uid := "user01"; home_objects := ∅ |} example_component gone_world).
  - reflexivity.
  - vm_compute. reflexivity.
  - left. vm_compute. reflexivity.
Defined.

(** ** Runs that record a failure for good *)

Lemma setComponent_run (resource : Resource) (calendar : Component)
    (state : ComponentUpdateState) (w0 w : World) :
  homes w0 = homes w ->
  _setComponentInternal resource calendar state w0 =
    (Return tt,
     set_homes (homes (_setComponentInternal resource calendar state w).2)
       (set_trace (trace w0 ++ [EvSetComponent (res_home resource) (res_id resource) state])
          w0)).
Proof.
  intros E. unfold _setComponentInternal. txn. rewrite E.
  repeat case_match; simpl; f_equal; apply world_eq; simpl; congruence.
Qed.

(** X12.  An organizer-send work item with a result that is neither
    delivered nor pending among its responses is not retried: whatever the
    count of failures, [doWork] reads no job and returns, having recorded
    each status other than delivered in the calendar of the scheduler's
    resource (one write, and none when no attendee took a status) and
    counted itself off the queue. *)
Theorem organizerSend_permanent_failure (self : WorkItem) (scheduler : ImplicitScheduler)
    (results : list (string * string)) (resource : Resource)
    (h : CalendarHome) (action : ScheduleAction) (attendee : string)
    (itipmsg : Component) (noRefresh : bool) (w : World) :
  fields (row self) = OrganizerSendFields action attendee (Some itipmsg) noRefresh ->
  homes w !! homeResourceID (row self) = Some h ->
  sch_resource scheduler = Some resource ->
  ScheduleWorkMixin.extractSchedulingResponse (queuedResponses scheduler)
    = (results, false) ->
  Exists (fun result => result.2 <> iTIPRequestStatus.MESSAGE_PENDING_CODE) results ->
  ScheduleOrganizerSendWork.doWork self scheduler w =
    (Return tt,
     recorded results resource true ORGANIZER_ITIP_UPDATE
       [EvLog "ScheduleOrganizerSendWork - running"; EvNamedLock (icalendarUID self);
        EvOrganizerSending (icalendarUID self) attendee]
       [EvLog "ScheduleOrganizerSendWork - done"] w).
Proof.
  intros Hf Hh Hs He Hx.
  unfold ScheduleOrganizerSendWork.doWork, recorded.
  rewrite Hf, Hs, He. simpl negb. cbv iota.
  unfold calendarHomeWithResourceID, objectResourceWithID, Component_fromString,
    home_uid_of, NamedLock_acquire.
  txn. rewrite Hh. txn.
  rewrite checkTemporaryFailure_not_all_pending by exact Hx.
  destruct (ScheduleWorkMixin.handleSchedulingResponse results
              (componentForUser resource) true) as [changed calendar].
  unfold ScheduleWorkMixin._dequeued, lastDequeue, dequeuedWith.
  destruct changed.
  - erewrite (setComponent_run resource calendar ORGANIZER_ITIP_UPDATE _ w) by reflexivity.
    txn.
    repeat (case_match; txn; simplify_eq); f_equal; apply world_eq; simpl;
      rewrite <- ?app_assoc; reflexivity.
  - txn.
    repeat (case_match; txn; simplify_eq); f_equal; apply world_eq; simpl;
      rewrite <- ?app_assoc; reflexivity.
Qed.

Lemma organizerSend_permanent_failure_witness :
  ScheduleOrganizerSendWork.doWork (send_item 1 11) mixed_scheduler (retry_world 0) =
    (Return tt,
     recorded [("mailto:a", "1.2"); ("mailto:b", "1.0")] example_resource true
       ORGANIZER_ITIP_UPDATE
       [EvLog "ScheduleOrganizerSendWork - running"; EvNamedLock "uid1";
        EvOrganizerSending "uid1" "mailto:a"]
       [EvLog "ScheduleOrganizerSendWork - done"] (retry_world 0)).
Proof.
  apply (organizerSend_permanent_failure (send_item 1 11) mixed_scheduler
           [("mailto:a", "1.2"); ("mailto:b", "1.0")] example_resource
           {| home_uid := "user01";
              home_objects := {[ 1 := {| obj_uid := "uid1";
                                         obj_component := example_component |} ]} |}
           ActionModify "mailto:a" example_component false (retry_world 0)).
  - reflexivity.
  - vm_compute. reflexivity.
  - reflexivity.
  - vm_compute. reflexivity.
  - left. simpl. discriminate.
Defined.

(** X13.  An attendee-reply work item whose resource is in the home and whose
    response has a result that is neither delivered nor pending is not
    retried: [doWork] reads no job and returns, having recorded each status
    other than delivered on the ORGANIZER properties of the stored calendar
    (one write, and none when no property took a status) and counted itself
    off the queue. *)
Theorem reply_permanent_failure (self : WorkItem) (response : ScheduleResponse)
    (results : list (string * string)) (resource : Resource)
    (h : CalendarHome) (itipmsg : Component) (w : World) :
  fields (row self) = ReplyFields (Some itipmsg) ->
  homes w !! homeResourceID (row self) = Some h ->
  storedResource self h = Some resource ->
  ScheduleWorkMixin.extractSchedulingResponse [response] = (results, false) ->
  Exists (fun result => result.2 <> iTIPRequestStatus.MESSAGE_PENDING_CODE) results ->
  ScheduleReplyWork.doWork self response w =
    (Return tt,
     recorded results resource false ATTENDEE_ITIP_UPDATE
       [EvLog "ScheduleReplyWork - running"; EvNamedLock (resourceUID itipmsg);
        EvLog "Implicit REPLY";
        EvReplyToOrganizer (resourceUID itipmsg) (validOrganizerForScheduling itipmsg)]
       [EvLog "ScheduleReplyWork - done"] w).
Proof.
  intros Hf Hh Hs He Hx.
  unfold ScheduleReplyWork.doWork, recorded. rewrite Hf.
  unfold calendarHomeWithResourceID, Component_fromString.
  txn. rewrite Hh. rewrite storedResource_lookup, Hs. txn.
  unfold ScheduleReplyWork.sendToOrganizer, home_uid_of, NamedLock_acquire.
  txn. rewrite He. txn.
  rewrite checkTemporaryFailure_not_all_pending by exact Hx.
  destruct (ScheduleWorkMixin.handleSchedulingResponse results
              (componentForUser resource) false) as [changed calendar].
  unfold ScheduleWorkMixin._dequeued, lastDequeue, dequeuedWith.
  destruct changed.
  - erewrite (setComponent_run resource calendar ATTENDEE_ITIP_UPDATE _ w) by reflexivity.
    txn.
    repeat (case_match; txn; simplify_eq); f_equal; apply world_eq; simpl;
      rewrite <- ?app_assoc; reflexivity.
  - txn.
    repeat (case_match; txn; simplify_eq); f_equal; apply world_eq; simpl;
      rewrite <- ?app_assoc; reflexivity.
Qed.

Lemma reply_permanent_failure_witness :
  storedAttendeeStatus
    (ScheduleReplyWork.doWork (reply_item 1 11) refused_response (retry_world 0)).2 10 1
    = [("mailto:a", None); ("mailto:b", None)] /\
  ScheduleReplyWork.doWork (reply_item 1 11) refused_response (retry_world 0) =
    (Return tt,
     recorded [("mailto:org", "3.7")] example_resource false ATTENDEE_ITIP_UPDATE
       [EvLog "ScheduleReplyWork - running"; EvNamedLock "uid1";
        EvLog "Implicit REPLY"; EvReplyToOrganizer "uid1" "mailto:org"]
       [EvLog "ScheduleReplyWork - done"] (retry_world 0)).
Proof.
  split; [vm_compute; reflexivity|].
  apply (reply_permanent_failure (reply_item 1 11) refused_response
           [("mailto:org", "3.7")] example_resource
           {| home_uid := "user01";
              home_objects := {[ 1 := {| obj_uid := "uid1";
                                         obj_component := example_component |} ]} |}
           example_component (retry_world 0)).
  - reflexivity.
  - vm_compute. reflexivity.
  - vm_compute. reflexivity.
  - vm_compute. reflexivity.
  - left. simpl. discriminate.
Defined.

(** ** Runs that fail before they send *)

(** X14.  An attendee-reply work item whose home is gone, or whose message
    is missing, ends in [UnboundLocalError]: the handler of the exception
    reads the message, which was never bound, so the error of the lookup is
    lost, nothing is logged, nothing is sent and the item is not counted off
    the queue. *)
Theorem reply_failure_is_masked (self : WorkItem) (response : ScheduleResponse)
    (itipMsg : option Component) (w : World) :
  fields (row self) = ReplyFields itipMsg ->
  homes w !! homeResourceID (row self) = None \/ itipMsg = None ->
  ScheduleReplyWork.doWork self response w = (Raise UnboundLocalError, w).
Proof.
  intros Hf Hd.
  unfold ScheduleReplyWork.doWork. rewrite Hf.
  unfold calendarHomeWithResourceID, Component_fromString.
  txn.
  destruct (homes w !! homeResourceID (row self)) as [h|] eqn:Hh.
  - destruct Hd as [Hd|Hd]; [discriminate|]. subst itipMsg.
    rewrite storedResource_lookup. txn. reflexivity.
  - reflexivity.
Qed.

Lemma reply_failure_is_masked_witness :
  ScheduleReplyWork.doWork (reply_item 1 11) delivered_response homeless_world =
    (Raise UnboundLocalError, homeless_world).
Proof.
  apply (reply_failure_is_masked (reply_item 1 11) delivered_response
           (Some example_component) homeless_world).
  - reflexivity.
  - left. vm_compute. reflexivity.
Defined.

(** X15.  An organizer-send work item whose home is gone fails with
    [AttributeError] at the lookup of the resource, before anything is
    sent: the handler logs the exception and the traceback, and the item is
    not counted off the queue. *)
Theorem organizerSend_without_home (self : WorkItem) (scheduler : ImplicitScheduler)
    (action : ScheduleAction) (attendee : string) (itipMsg : option Component)
    (noRefresh : bool) (w : World) :
  fields (row self) = OrganizerSendFields action attendee itipMsg noRefresh ->
  homes w !! homeResourceID (row self) = None ->
  ScheduleOrganizerSendWork.doWork self scheduler w =
    (Raise AttributeError,
     set_trace (trace w ++ [EvLog "ScheduleOrganizerSendWork - exception";
                            EvLog "traceback"]) w).
Proof.
  intros Hf Hh.
  unfold ScheduleOrganizerSendWork.doWork. rewrite Hf.
  unfold calendarHomeWithResourceID, objectResourceWithID.
  txn. rewrite Hh. reflexivity.
Qed.

Lemma organizerSend_without_home_witness :
  ScheduleOrganizerSendWork.doWork (send_item 1 11) delivered_scheduler homeless_world =
    (Raise AttributeError,
     set_trace [EvLog "ScheduleOrganizerSendWork - exception"; EvLog "traceback"]
       homeless_world).
Proof.
  apply (organizerSend_without_home (send_item 1 11) delivered_scheduler
           ActionModify "mailto:a" (Some example_component) false homeless_world).
  - reflexivity.
  - vm_compute. reflexivity.
Defined.

(** X16.  An organizer work item hands the change to the scheduler under
    the lock of its UID, with the home and the resource it looked up (the
    resource may be missing).  When the scheduler returns, the item is
    counted off the queue and the end of the run is logged; when the
    scheduler raises, the exception is logged with its traceback and
    raised again, and the item is not counted off. *)
Theorem organizerWork_passes_on (self : WorkItem)
    (queuedOrganizerProcessing :
       ScheduleAction -> option (Z * CalendarHome) -> option Resource -> string ->
       option Component -> option Component -> bool -> Txn unit)
    (h : CalendarHome) (action : ScheduleAction)
    (calendar_old calendar_new : option Component) (attendeeCount : Z)
    (smartMerge : bool) (w : World) :
  fields (row self) =
    OrganizerFields action calendar_old calendar_new attendeeCount smartMerge ->
  homes w !! homeResourceID (row self) = Some h ->
  ScheduleOrganizerWork.doWork self queuedOrganizerProcessing w =
    match queuedOrganizerProcessing action (Some (homeResourceID (row self), h))
            (storedResource self h) (icalendarUID self) calendar_old calendar_new
            smartMerge
            (set_trace (trace w ++ [EvLog "ScheduleOrganizerWork - running";
                                    EvNamedLock (icalendarUID self)]) w) with
    | (Return _, w1) =>
        (Return tt, dequeuedWith (lastDequeue w1 ++ [EvLog "ScheduleOrganizerWork - done"]) w1)
    | (Raise e, w1) =>
        (Raise e, set_trace (trace w1 ++ [EvLog "ScheduleOrganizerWork - exception";
                                          EvLog "traceback"]) w1)
    end.
Proof.
  intros Hf Hh.
  unfold ScheduleOrganizerWork.doWork. rewrite Hf.
  unfold calendarHomeWithResourceID.
  txn. rewrite Hh. rewrite storedResource_lookup.
  unfold home_uid_of, NamedLock_acquire. txn.
  rewrite <- app_assoc. simpl.
  destruct (queuedOrganizerProcessing _ _ _ _ _ _ _ _) as [[[]|e] w1]; [|reflexivity].
  unfold ScheduleWorkMixin._dequeued, lastDequeue, dequeuedWith. txn.
  repeat (case_match; txn; simplify_eq); f_equal; apply world_eq; simpl;
    rewrite <- ?app_assoc; reflexivity.
Qed.

Lemma organizerWork_passes_on_witness :
  ScheduleOrganizerWork.doWork (organizer_item 1 11)
    (fun _ _ _ _ _ _ _ => raise NoSuchRecord) (retry_world 0) =
    (Raise NoSuchRecord,
     set_trace [EvLog "ScheduleOrganizerWork - running"; EvNamedLock "uid1";
                EvLog "ScheduleOrganizerWork - exception"; EvLog "traceback"]
       (retry_world 0)).
Proof.
  apply (organizerWork_passes_on (organizer_item 1 11)
           (fun _ _ _ _ _ _ _ => raise NoSuchRecord)
           {| home_uid := "user01";
              home_objects := {[ 1 := {| obj_uid := "uid1";
                                         obj_component := example_component |} ]} |}
           ActionModify (Some example_component) (Some example_component) 2 false
           (retry_world 0)).
  - reflexivity.
  - vm_compute. reflexivity.
Defined.

(** ** The tables of work *)

Lemma enqueue_run (uid : string) (hid : Z) (rid : option Z) (f : Payload)
    (nb paused : Z) (w : World) :
  enqueue uid hid rid f nb paused w =
    (Return (filedItem uid hid rid f w), filed uid hid rid f nb paused w).
Proof.
  unfold enqueue, ScheduleWorkMixin.create, filed, filedItem. txn.
  f_equal. apply world_eq; simpl; try reflexivity; [lia|].
  rewrite <- !app_assoc. reflexivity.
Qed.

Lemma filter_all_out {A} (P : A -> Prop) `{!forall x, Decision (P x)} (l : list A) :
  Forall (fun x => ~ P x) l -> filter P l = [].
Proof.
  induction 1 as [|x l Hx _ IH]; [reflexivity|].
  rewrite filter_cons_False by exact Hx. exact IH.
Qed.

Lemma filter_all_in {A} (P : A -> Prop) `{!forall x, Decision (P x)} (l : list A) :
  Forall P l -> filter P l = l.
Proof.
  induction 1 as [|x l Hx _ IH]; [reflexivity|].
  rewrite filter_cons_True by exact Hx. rewrite IH. reflexivity.
Qed.

Lemma loadForJob_last_filed (uid : string) (hid : Z) (rid : option Z) (f : Payload)
    (w w1 : World) :
  unused w ->
  SCHEDULE_WORK w1 = SCHEDULE_WORK w ++ [baseWork (filedItem uid hid rid f w)] ->
  WORK w1 = WORK w ++ [row (filedItem uid hid rid f w)] ->
  ScheduleWorkMixin.loadForJob (tableOf f) (next_id w) w1 =
    (Return [filedItem uid hid rid f w],
     set_trace (trace w1 ++ [EvSelect T_SCHEDULE_WORK; EvSelect (T_WORK (tableOf f))]) w1).
Proof.
  intros [Hsw Hwork] Esw Ework.
  unfold ScheduleWorkMixin.loadForJob. txn. rewrite Esw.
  rewrite filter_app.
  rewrite (filter_all_out (fun b => sw_jobID b = next_id w)).
  2:{ eapply Forall_impl; [exact Hsw|]. intros b [Hb _]. exact Hb. }
  rewrite filter_cons_True by reflexivity. simpl.
  unfold rowsOf. simpl. rewrite Ework. rewrite !filter_app.
  rewrite (filter_all_out (fun r => workID r = next_id w + 1)).
  2:{ apply Forall_forall. intros r Hr. apply list_elem_of_filter in Hr.
      destruct Hr as [_ Hr]. rewrite Forall_forall in Hwork. apply Hwork. exact Hr. }
  rewrite (filter_cons_True (fun r => tableOf (fields r) = tableOf f)) by reflexivity.
  simpl. rewrite filter_cons_True by reflexivity. simpl.
  f_equal. apply world_eq; simpl; try reflexivity.
  rewrite <- !app_assoc. reflexivity.
Qed.

(** X17.  What [enqueue] files, [loadForJob] finds: when the ids the
    sequence gives next are not in the tables, [enqueue] files a job that has
    not failed, with the time and the pause it was given, and one work item,
    and [loadForJob] of the class of the item for that job gives that item
    and no other, with its base row attached; [hasWork] of the class is
    then true. *)
Theorem enqueue_then_loadForJob (uid : string) (hid : Z) (rid : option Z) (f : Payload)
    (nb paused : Z) (w : World) :
  unused w ->
  exists item w1,
    enqueue uid hid rid f nb paused w = (Return item, w1) /\
    JOB w1 !! jobID item = Some (filedJob f nb paused) /\
    workType item = tableOf f /\
    ScheduleWorkMixin.loadForJob (tableOf f) (jobID item) w1 =
      (Return [item],
       set_trace (trace w1 ++ [EvSelect T_SCHEDULE_WORK; EvSelect (T_WORK (tableOf f))]) w1) /\
    (ScheduleWorkMixin.hasWork (tableOf f) w1).1 = Return true.
Proof.
  intros Hun.
  exists (filedItem uid hid rid f w), (filed uid hid rid f nb paused w).
  split; [apply enqueue_run|].
  split; [simpl; apply lookup_insert_eq|].
  split; [reflexivity|].
  split.
  - apply (loadForJob_last_filed uid hid rid f w); [exact Hun|reflexivity|reflexivity].
  - unfold ScheduleWorkMixin.hasWork. txn. f_equal.
    apply bool_decide_eq_true. unfold rowsOf. simpl.
    rewrite filter_app, length_app.
    rewrite (filter_cons_True (fun r => tableOf (fields r) = tableOf f)) by reflexivity.
    simpl. lia.
Qed.

Lemma enqueue_then_loadForJob_witness :
  exists item w1,
    enqueue "uid1" 10 (Some 1) (AutoReplyFields "ACCEPTED") 1005 0 burst_world
      = (Return item, w1) /\
    ScheduleWorkMixin.loadForJob SCHEDULE_AUTO_REPLY_WORK 20 w1 =
      (Return [item],
       set_trace (trace w1 ++ [EvSelect T_SCHEDULE_WORK;
                               EvSelect (T_WORK SCHEDULE_AUTO_REPLY_WORK)]) w1).
Proof.
  destruct (enqueue_then_loadForJob "uid1" 10 (Some 1) (AutoReplyFields "ACCEPTED")
              1005 0 burst_world) as (item & w1 & E & _ & _ & L & _).
  - split; repeat (constructor; [vm_compute; intuition congruence|]); constructor.
  - exists item, w1. split; [exact E|].
    replace 20 with (jobID item); [exact L|].
    rewrite enqueue_run in E. injection E as <- _. reflexivity.
Defined.



Lemma filter_drop_more {A} (f : A -> Z) (D : list Z) (i : Z) (l : list A) :
  filter (fun x => f x <> i) (filter (fun x => f x ∉ D) l) =
    filter (fun x => f x ∉ D ++ [i]) l.
Proof.
  rewrite list_filter_filter. apply list_filter_iff. intros x.
  rewrite elem_of_app, list_elem_of_singleton. tauto.
Qed.

Lemma filter_same_id (cls : WorkType) (D : list Z) (i : Z) (l : list WorkRow) :
  i ∉ D ->
  filter (fun r => workID r = i)
    (filter (fun r => tableOf (fields r) = cls) (filter (fun r => workID r ∉ D) l)) =
  filter (fun r => workID r = i) (filter (fun r => tableOf (fields r) = cls) l).
Proof.
  intros Hi. rewrite !list_filter_filter. apply list_filter_iff. intros r.
  split; [tauto|]. intros [E Hc]. repeat split; try assumption. rewrite E. exact Hi.
Qed.

Lemma loadForJob_loop (cls : WorkType) (w : World) :
  forall (l : list ScheduleWork) (D : list Z) (acc : Txn (list WorkItem))
         (w0 wk : World) (items : list WorkItem),
    acc w0 = (Return items, wk) ->
    SCHEDULE_WORK wk = filter (fun b => sw_workID b ∉ D) (SCHEDULE_WORK w) ->
    WORK wk = filter (fun r => workID r ∉ D) (WORK w) ->
    NoDup (sw_workID <$> l) ->
    Forall (fun b => b ∈ SCHEDULE_WORK w /\ sw_workID b ∉ D) l ->
    exists w',
      foldl (fun acc baseItem =>
               let* workItems := acc in
               emit (EvSelect (T_WORK cls)) >>
               let* workItem := gets (fun w => filter (fun r => workID r = sw_workID baseItem)
                                                      (rowsOf cls w)) in
               match workItem with
               | [] => ScheduleWork_delete baseItem >> ret workItems
               | r :: _ => ret (workItems ++ [{| row := r; baseWork := baseItem |}])
               end) acc l w0 =
        (Return (items ++ omap (found cls w) l), w') /\
      SCHEDULE_WORK w' =
        filter (fun b => sw_workID b ∉ D ++ orphans cls w l) (SCHEDULE_WORK w) /\
      WORK w' = filter (fun r => workID r ∉ D ++ orphans cls w l) (WORK w) /\
      JOB w' = JOB wk /\ homes w' = homes wk.
Proof.
  induction l as [|b l IH]; intros D acc w0 wk items Hacc Hsw Hwork Hnd Hall.
  - exists wk. simpl. rewrite !app_nil_r. repeat split; assumption.
  - simpl foldl.
    rewrite fmap_cons in Hnd. apply NoDup_cons in Hnd. destruct Hnd as [Hb Hnd].
    apply Forall_cons_1 in Hall. destruct Hall as [[Hin HbD] Hall].
    assert (filter (fun r => workID r = sw_workID b)
              (filter (fun r => tableOf (fields r) = cls) (WORK wk)) =
            filter (fun r => workID r = sw_workID b)
              (filter (fun r => tableOf (fields r) = cls) (WORK w))) as Hlook.
    { rewrite Hwork. apply filter_same_id. exact HbD. }
    destruct (filter (fun r => workID r = sw_workID b) (rowsOf cls w)) as [|r rs] eqn:Ef;
      pose proof Ef as Ef'; unfold rowsOf in Ef'.
    + (* no row of the class: the base row goes *)
      destruct (IH (D ++ [sw_workID b])
                  (let* workItems := acc in
                   emit (EvSelect (T_WORK cls)) >>
                   let* workItem := gets (fun w => filter (fun r => workID r = sw_workID b)
                                                          (rowsOf cls w)) in
                   match workItem with
                   | [] => ScheduleWork_delete b >> ret workItems
                   | r :: _ => ret (workItems ++ [{| row := r; baseWork := b |}])
                   end)
                  w0
                  (set_WORK (filter (fun r => workID r <> sw_workID b) (WORK wk))
                     (set_SCHEDULE_WORK
                        (filter (fun r => sw_workID r <> sw_workID b) (SCHEDULE_WORK wk))
                        (set_trace (trace wk ++ [EvSelect (T_WORK cls);
                                                 EvDelete T_SCHEDULE_WORK]) wk)))
                  items) as (w' & E & Hsw' & Hwork' & Hjob' & Hhomes').
      * unfold ScheduleWork_delete, bind, emit, modify, gets, ret. rewrite Hacc. simpl.
        unfold rowsOf. simpl. rewrite Hlook, Ef'.
        rewrite bool_decide_eq_true_2.
        2:{ apply Exists_exists. exists b. split; [|reflexivity].
            simpl. rewrite Hsw. apply list_elem_of_filter. split; assumption. }
        simpl. f_equal. apply world_eq; simpl; rewrite <- ?app_assoc; reflexivity.
      * simpl. rewrite Hsw. apply filter_drop_more.
      * simpl. rewrite Hwork. apply filter_drop_more.
      * exact Hnd.
      * apply Forall_forall. intros b' Hb'. rewrite Forall_forall in Hall.
        destruct (Hall b' Hb') as [Hin' HD']. split; [exact Hin'|].
        rewrite elem_of_app, list_elem_of_singleton. intros [H|H]; [contradiction|].
        apply Hb. rewrite <- H. apply list_elem_of_fmap. exists b'. split; [reflexivity|exact Hb'].
      * exists w'. unfold orphans, found in *. simpl.
        rewrite Ef. simpl. rewrite filter_cons_True by (rewrite Ef; reflexivity).
        simpl. rewrite <- app_assoc in Hsw', Hwork'. simpl in Hsw', Hwork'.
        repeat split; assumption.
    + (* a row of the class: the item is loaded *)
      destruct (IH D
                  (let* workItems := acc in
                   emit (EvSelect (T_WORK cls)) >>
                   let* workItem := gets (fun w => filter (fun r => workID r = sw_workID b)
                                                          (rowsOf cls w)) in
                   match workItem with
                   | [] => ScheduleWork_delete b >> ret workItems
                   | r :: _ => ret (workItems ++ [{| row := r; baseWork := b |}])
                   end)
                  w0 (set_trace (trace wk ++ [EvSelect (T_WORK cls)]) wk)
                  (items ++ [{| row := r; baseWork := b |}]))
        as (w' & E & Hsw' & Hwork' & Hjob' & Hhomes').
      * unfold bind, emit, modify, gets, ret. rewrite Hacc. simpl.
        unfold rowsOf. simpl. rewrite Hlook, Ef'. reflexivity.
      * exact Hsw.
      * exact Hwork.
      * exact Hnd.
      * exact Hall.
      * exists w'. unfold orphans, found in *. simpl.
        rewrite Ef. simpl. rewrite filter_cons_False by (rewrite Ef; discriminate).
        rewrite <- app_assoc in E. simpl in E.
        repeat split; assumption.
Qed.

(** X19.  With the work ids of SCHEDULE_WORK distinct, [loadForJob] gives,
    for the base rows of the job in their order, the work items of the class
    that have one, each with its base row attached, and deletes the base rows
    that have none (and, by cascade, what other rows had their work id); the
    other rows of the two tables stay, and so does the job.  It never
    raises. *)
Theorem loadForJob_items_and_orphans (cls : WorkType) (jid : Z) (w : World) :
  NoDup (sw_workID <$> SCHEDULE_WORK w) ->
  let baseItems := filter (fun b => sw_jobID b = jid) (SCHEDULE_WORK w) in
  exists w',
    ScheduleWorkMixin.loadForJob cls jid w = (Return (omap (found cls w) baseItems), w') /\
    SCHEDULE_WORK w' =
      filter (fun b => sw_workID b ∉ orphans cls w baseItems) (SCHEDULE_WORK w) /\
    WORK w' = filter (fun r => workID r ∉ orphans cls w baseItems) (WORK w) /\
    JOB w' = JOB w /\ homes w' = homes w.
Proof.
  intros Hnd baseItems.
  unfold ScheduleWorkMixin.loadForJob.
  unfold bind at 1. unfold emit at 1, modify at 1.
  unfold bind at 1. unfold gets at 1. simpl.
  destruct (loadForJob_loop cls w baseItems [] (ret [])
              (set_trace (trace w ++ [EvSelect T_SCHEDULE_WORK]) w)
              (set_trace (trace w ++ [EvSelect T_SCHEDULE_WORK]) w) [])
    as (w' & E & Hsw & Hwork & Hjob & Hhomes).
  - reflexivity.
  - simpl. symmetry. apply filter_all_in. apply Forall_forall. intros b _. apply not_elem_of_nil.
  - simpl. symmetry. apply filter_all_in. apply Forall_forall. intros b _. apply not_elem_of_nil.
  - eapply sublist_NoDup; [exact Hnd|]. apply fmap_sublist. apply sublist_filter.
  - apply Forall_forall. intros b Hb. apply list_elem_of_filter in Hb.
    destruct Hb as [_ Hb]. split; [exact Hb|apply not_elem_of_nil].
  - exists w'. split; [exact E|]. repeat split; assumption.
Qed.

Lemma loadForJob_items_and_orphans_witness :
  exists w',
    ScheduleWorkMixin.loadForJob SCHEDULE_REPLY_WORK 12 chain_world = (Return [], w') /\
    SCHEDULE_WORK w' = [send_base 3 13] /\ WORK w' = [send_row 3].
Proof.
  destruct (loadForJob_items_and_orphans SCHEDULE_REPLY_WORK 12 chain_world)
    as (w' & E & Hsw & Hwork & _).
  - apply (bool_decide_unpack _). vm_compute. exact I.
  - exists w'. split; [exact E|]. split; [rewrite Hsw|rewrite Hwork]; reflexivity.
Defined.

(** ** The count of queued work *)





(** ** From the schedule to the run *)

(** X21.  A message the organizer schedules for an attendee is what the job
    sends: [schedule] files a job that is not due before the current time
    plus [RequestDelaySeconds] plus the stagger and has the pause it was
    given; [loadForJob] for that job gives one work item, under the UID of
    the message; and [doWork] of that item, when the responses were all
    delivered or the scheduler has no resource, sends to the attendee the
    message was scheduled for under the lock of that UID, after which the
    count of queued work is what it was before [schedule]. *)
Theorem scheduled_send_runs (action : ScheduleAction) (hid : Z) (h : CalendarHome)
    (resource : option Resource) (organizer attendee : string) (itipmsg : Component)
    (no_refresh : bool) (stagger paused : Z) (scheduler : ImplicitScheduler) (w : World) :
  unused w ->
  homes w !! hid = Some h ->
  sch_resource scheduler = None \/
    (ScheduleWorkMixin.extractSchedulingResponse (queuedResponses scheduler)).2 = true ->
  exists item w1 w2 w3,
    ScheduleOrganizerSendWork.schedule action (Some (hid, h)) resource organizer attendee
      itipmsg no_refresh stagger paused w = (Return tt, w1) /\
    JOB w1 !! jobID item =
      Some {| job_workType := SCHEDULE_ORGANIZER_SEND_WORK;
              notBefore := utcnow w + (RequestDelaySeconds (config w) + stagger);
              failed := 0; pause := paused |} /\
    ScheduleWorkMixin.loadForJob SCHEDULE_ORGANIZER_SEND_WORK (jobID item) w1 =
      (Return [item], w2) /\
    icalendarUID item = resourceUID itipmsg /\
    ScheduleOrganizerSendWork.doWork item scheduler w2 = (Return tt, w3) /\
    trace w3 = trace w2 ++ [EvLog "ScheduleOrganizerSendWork - running";
                            EvNamedLock (resourceUID itipmsg);
                            EvOrganizerSending (resourceUID itipmsg) attendee]
                 ++ lastDequeue w2 ++ [EvLog "ScheduleOrganizerSendWork - done"] /\
    _queued w3 = _queued w.
Proof.
  intros Hun Hh Hd.
  set (f := OrganizerSendFields action attendee (Some itipmsg) no_refresh).
  set (item := filedItem (resourceUID itipmsg) hid (resource_id_or_None resource) f w).
  exists item.
  unfold ScheduleOrganizerSendWork.schedule, home_id_of.
  unfold bind at 1. unfold gets at 1. unfold bind at 1. unfold gets at 1.
  unfold bind at 1. unfold ret at 1. unfold bind at 1.
  rewrite enqueue_run. fold f.
  unfold ScheduleWorkMixin._enqueued. txn.
  eexists. eexists. eexists.
  split; [reflexivity|].
  split; [simpl; apply lookup_insert_eq|].
  split.
  { apply (loadForJob_last_filed (resourceUID itipmsg) hid (resource_id_or_None resource)
             f w); [exact Hun|reflexivity|reflexivity]. }
  split; [reflexivity|].
  split.
  { apply (organizerSend_quiet_run item scheduler h action attendee itipmsg no_refresh);
      [reflexivity|exact Hh|exact Hd]. }
  split; [reflexivity|].
  simpl. lia.
Qed.

Lemma scheduled_send_runs_witness :
  exists item w1 w2 w3,
    ScheduleOrganizerSendWork.schedule ActionModify
      (Some (10, {| home_uid := "user01";
                    home_objects := {[ 1 := {| obj_uid := "uid1";
                                               obj_component := example_component |} ]} |}))
      (Some example_resource) "urn:x-uid:user01" "mailto:a" example_component false 3 0
      chain_world = (Return tt, w1) /\
    notBefore <$> JOB w1 !! jobID item = Some 1008 /\
    ScheduleWorkMixin.loadForJob SCHEDULE_ORGANIZER_SEND_WORK (jobID item) w1 =
      (Return [item], w2) /\
    ScheduleOrganizerSendWork.doWork item delivered_scheduler w2 = (Return tt, w3) /\
    _queued w3 = _queued chain_world.
Proof.
  destruct (scheduled_send_runs ActionModify 10
              {| home_uid := "user01";
                 home_objects := {[ 1 := {| obj_uid := "uid1";
                                            obj_component := example_component |} ]} |}
              (Some example_resource) "urn:x-uid:user01" "mailto:a" example_component
              false 3 0 delivered_scheduler chain_world)
    as (item & w1 & w2 & w3 & E1 & Hj & E2 & _ & E3 & _ & Hq).
  - split; repeat (constructor; [vm_compute; intuition congruence|]); constructor.
  - vm_compute. reflexivity.
  - right. vm_compute. reflexivity.
  - exists item, w1, w2, w3. split; [exact E1|]. split; [rewrite Hj; reflexivity|].
    split; [exact E2|]. split; [exact E3|exact Hq].
Defined.

(** ** Refresh work *)


Lemma list_of_set_nil (l : list string) : l = [] -> list_of_set l = [].
Proof. intros ->. unfold list_of_set. simpl. apply elements_empty. Qed.

(** X22.  A refresh work item that is not superseded and finds no attendee
    pending for its resource does nothing: after its two queries and the log
    line it returns, with the tables as they were, nothing locked and
    nothing sent.  It does not count itself off the queue either. *)
Theorem refresh_nothing_pending (self : WorkItem) (w : World) :
  notSuperseded self w ->
  Forall (fun r => Some r.1 <> resourceID (row self)) (SCHEDULE_REFRESH_ATTENDEES w) ->
  ScheduleRefreshWork.doWork self w =
    (Return tt,
     set_trace (trace w ++ [EvSelect (T_WORK SCHEDULE_REFRESH_WORK);
                            EvLog "ScheduleRefreshWork - running";
                            EvSelect T_SCHEDULE_REFRESH_ATTENDEES]) w).
Proof.
  intros Hsup Hnone. unfold notSuperseded in Hsup.
  unfold ScheduleRefreshWork.doWork, ScheduleRefreshWork.select_attendees. txn.
  unfold rowsOf in *. simpl. rewrite Hsup. simpl.
  rewrite (filter_all_out (fun r : Z * string => Some r.1 = resourceID (row self)))
    by exact Hnone.
  simpl. rewrite list_of_set_nil by reflexivity. simpl.
  f_equal. apply world_eq; simpl; rewrite <- ?app_assoc; reflexivity.
Qed.

Lemma refresh_nothing_pending_witness :
  ScheduleRefreshWork.doWork (refresh_item 1 11) (retry_world 0) =
    (Return tt,
     set_trace [EvSelect (T_WORK SCHEDULE_REFRESH_WORK);
                EvLog "ScheduleRefreshWork - running";
                EvSelect T_SCHEDULE_REFRESH_ATTENDEES] (retry_world 0)).
Proof.
  apply (refresh_nothing_pending (refresh_item 1 11) (retry_world 0)).
  - reflexivity.
  - constructor.
Defined.



(** X24.  What a refresh work item is serialized with is what its migration
    files: [serializeWithAncillaryData] adds the attendees pending for the
    resource of the item to the attributes of its row, [deserialize] gives
    the row and those attendees back, and [migrate] of a record with that
    row and those attendees, when the callback finds the resource on the
    destination, merges them into the attendees pending for the new resource
    and files a paused refresh for it that counts them. *)
Theorem refresh_migration_carries_pending (self : WorkItem) (rid : Z)
    (mapIDsCallback : MapIDs) (new_resource : Resource) (w dest : World) :
  resourceID (row self) = Some rid ->
  (mapIDsCallback (resourceID (row self))).2 = Some new_resource ->
  exists attrmap w1 attendees dest',
    ScheduleRefreshWork.serializeWithAncillaryData self w = (Return attrmap, w1) /\
    ScheduleRefreshWork.deserialize attrmap = Some (row self, attendees) /\
    list_to_set attendees = pendingSet rid w /\
    (forall record, row record = row self ->
       ScheduleRefreshWork.migrate record attendees mapIDsCallback dest
         = (Return true, dest')) /\
    pendingSet (res_id new_resource) dest' =
      pendingSet (res_id new_resource) dest ∪ pendingSet rid w /\
    WORK dest' = WORK dest ++
      [ {| workID := next_id dest + 1; homeResourceID := res_home new_resource;
           resourceID := Some (res_id new_resource);
           fields := RefreshFields (Z.of_nat (length attendees)) |} ] /\
    pause <$> JOB dest' !! next_id dest = Some 1.
Proof.
  intros Hrid Hcb.
  destruct (refreshAttendees_spec new_resource
              (snd <$> filter (fun r : Z * string => Some r.1 = resourceID (row self))
                              (SCHEDULE_REFRESH_ATTENDEES w)) 1 dest)
    as (dest' & E & Hsra & Hwork & _ & Hjob).
  assert (list_to_set (snd <$> filter (fun r : Z * string => Some r.1 = resourceID (row self))
                                      (SCHEDULE_REFRESH_ATTENDEES w))
          = pendingSet rid w) as Hset.
  { unfold pendingSet. f_equal. f_equal. apply list_filter_iff. intros x.
    rewrite Hrid. split; congruence. }
  eexists. eexists. eexists. exists dest'.
  split.
  { unfold ScheduleRefreshWork.serializeWithAncillaryData,
      ScheduleRefreshWork.select_attendees. txn. reflexivity. }
  split; [reflexivity|].
  split; [exact Hset|].
  split.
  { intros record Hrow. unfold ScheduleRefreshWork.migrate. rewrite Hrow.
    destruct (mapIDsCallback (resourceID (row self))) as [new_home r]. simpl in Hcb.
    subst r. unfold bind. rewrite E. reflexivity. }
  split.
  { rewrite (pendingSet_after_insert (res_id new_resource) (res_id new_resource) _ dest dest'
               Hsra), decide_True by reflexivity.
    rewrite list_to_set_elements_L, Hset.
    apply set_eq. intros x. rewrite !elem_of_union, elem_of_difference.
    destruct (decide (x ∈ pendingSet (res_id new_resource) dest)); tauto. }
  split; [exact Hwork|].
  rewrite Hjob, lookup_insert_eq. reflexivity.
Qed.

Lemma refresh_migration_carries_pending_witness :
  exists attrmap w1 attendees dest',
    ScheduleRefreshWork.serializeWithAncillaryData (refresh_item 1 11) drain_world
      = (Return attrmap, w1) /\
    ScheduleRefreshWork.deserialize attrmap = Some (row (refresh_item 1 11), attendees) /\
    ScheduleRefreshWork.migrate (refresh_item 1 11) attendees maps_to_resource gone_world
      = (Return true, dest') /\
    pendingSet 7 dest' = pendingSet 7 gone_world ∪ pendingSet 1 drain_world.
Proof.
  destruct (refresh_migration_carries_pending (refresh_item 1 11) 1 maps_to_resource
              {| res_id := 7; res_home := 50; res_uid := "uid1";
                 componentForUser := example_component |} drain_world gone_world)
    as (attrmap & w1 & attendees & dest' & E1 & E2 & _ & E3 & HP & _).
  - reflexivity.
  - reflexivity.
  - exists attrmap, w1, attendees, dest'.
    split; [exact E1|]. split; [exact E2|]. split; [apply E3; reflexivity|exact HP].
Defined.

(** ** Auto-reply work *)

Lemma autoReply_run (self : WorkItem) (h : CalendarHome) (resource : Resource) (w : World) :
  homes w !! homeResourceID (row self) = Some h ->
  storedResource self h = Some resource ->
  ScheduleAutoReplyWork.doWork self w =
    (Return tt,
     dequeuedWith ([EvLog "ScheduleAutoReplyWork - running";
                    EvDelete (T_WORK SCHEDULE_AUTO_REPLY_WORK);
                    EvNamedLock (res_uid resource);
                    EvLog "ImplicitProcessing - recipient processing UID - auto-reply";
                    EvAttendeeReply (res_home resource) (res_id resource)]
                   ++ lastDequeue w ++ [EvLog "ScheduleAutoReplyWork - done"])
       (set_WORK (filter (fun r => ~ (tableOf (fields r) = SCHEDULE_AUTO_REPLY_WORK
                                      /\ resourceID r = resourceID (row self)))
                         (WORK w)) w)).
Proof.
  intros Hh Hs.
  unfold ScheduleAutoReplyWork.doWork, ScheduleAutoReplyWork._sendAttendeeAutoReply,
    calendarHomeWithResourceID.
  txn. rewrite Hh. rewrite storedResource_lookup, Hs.
  unfold NamedLock_acquire, ScheduleWorkMixin._dequeued, lastDequeue, dequeuedWith. txn.
  repeat (case_match; txn; simplify_eq); f_equal; apply world_eq; simpl;
    rewrite <- ?app_assoc; reflexivity.
Qed.

(** X25.  An auto-reply work item whose resource is in its home deletes the
    auto-reply rows of the resource, then takes the lock of the UID of the
    resource and has the attendee's reply sent for that resource, once, and
    counts itself off the queue; it writes no other table. *)
Theorem autoReply_sends_one (self : WorkItem) (h : CalendarHome) (resource : Resource)
    (w : World) :
  homes w !! homeResourceID (row self) = Some h ->
  storedResource self h = Some resource ->
  ScheduleAutoReplyWork.doWork self w =
    (Return tt,
     dequeuedWith ([EvLog "ScheduleAutoReplyWork - running";
                    EvDelete (T_WORK SCHEDULE_AUTO_REPLY_WORK);
                    EvNamedLock (res_uid resource);
                    EvLog "ImplicitProcessing - recipient processing UID - auto-reply";
                    EvAttendeeReply (res_home resource) (res_id resource)]
                   ++ lastDequeue w ++ [EvLog "ScheduleAutoReplyWork - done"])
       (set_WORK (filter (fun r => ~ (tableOf (fields r) = SCHEDULE_AUTO_REPLY_WORK
                                      /\ resourceID r = resourceID (row self)))
                         (WORK w)) w)).
Proof. apply autoReply_run. Qed.

Lemma autoReply_sends_one_witness :
  exists w',
    ScheduleAutoReplyWork.doWork
      {| row := {| workID := 1; homeResourceID := 10; resourceID := Some 1;
                   fields := AutoReplyFields "ACCEPTED" |};
         baseWork := {| sw_workID := 1; sw_jobID := 11; sw_icalendarUID := "uid1";
                        sw_workType := SCHEDULE_AUTO_REPLY_WORK |} |}
      burst_world = (Return tt, w') /\
    WORK w' = [] /\ repliesSent 1 w' = 1%nat.
Proof.
  eexists. split.
  - apply (autoReply_sends_one
             {| row := {| workID := 1; homeResourceID := 10; resourceID := Some 1;
                          fields := AutoReplyFields "ACCEPTED" |};
                baseWork := {| sw_workID := 1; sw_jobID := 11; sw_icalendarUID := "uid1";
                               sw_workType := SCHEDULE_AUTO_REPLY_WORK |} |}
             {| home_uid := "user01";
                home_objects := {[ 1 := {| obj_uid := "uid1";
                                           obj_component := example_component |} ]} |}
             example_resource burst_world).
    + vm_compute. reflexivity.
    + vm_compute. reflexivity.
  - split; vm_compute; reflexivity.
Defined.

Lemma filter_snoc_out {A} (P : A -> Prop) `{!forall x, Decision (P x)} (l : list A) (x : A) :
  Forall P l -> ~ P x -> filter P (l ++ [x]) = l.
Proof.
  intros Hl Hx. rewrite filter_app, filter_all_in by exact Hl.
  rewrite filter_cons_False by exact Hx. apply app_nil_r.
Qed.

Lemma repliesSent_app (rid : Z) (w w' : World) (t : list Event) :
  trace w' = trace w ++ t ->
  repliesSent rid w' =
    (repliesSent rid w + length (filter (fun e => isReplyFor rid e = true) t))%nat.
Proof.
  intros E. unfold repliesSent. rewrite E, filter_app, length_app. reflexivity.
Qed.

Lemma autoReply_job_run (item : WorkItem) (h : CalendarHome) (resource : Resource)
    (w : World) :
  locked_elsewhere w = (∅, ∅) ->
  Exists (fun r => sw_workID r = sw_workID (baseWork item)) (SCHEDULE_WORK w) ->
  homes w !! homeResourceID (row item) = Some h ->
  storedResource item h = Some resource ->
  workType item <> SCHEDULE_ORGANIZER_SEND_WORK ->
  exists w2,
    (let* locked := ScheduleWorkMixin.runlock item in
     if locked then
       ScheduleWorkMixin.delete item >>
       ScheduleAutoReplyWork.doWork item >>
       ScheduleWorkMixin.afterWork item
     else raise JobRunningError) w = (Return tt, w2) /\
    WORK w2 =
      filter (fun r => ~ (tableOf (fields r) = SCHEDULE_AUTO_REPLY_WORK
                          /\ resourceID r = resourceID (row item)))
             (filter (fun r => workID r <> sw_workID (baseWork item)) (WORK w)) /\
    SCHEDULE_WORK w2 =
      filter (fun r => sw_workID r <> sw_workID (baseWork item)) (SCHEDULE_WORK w) /\
    _queued w2 = _queued w - 1 /\
    repliesSent (res_id resource) w2 = S (repliesSent (res_id resource) w).
Proof.
  intros Hlock Hex Hh Hs Hkind.
  unfold ScheduleWorkMixin.runlock, ScheduleWork_trylock, WorkItem_trylock.
  unfold bind at 1. unfold bind at 1. unfold bind at 1. unfold gets at 1.
  unfold bind at 1. unfold gets at 1. rewrite Hlock. simpl fst. simpl snd.
  rewrite bool_decide_eq_true_2
    by (apply Forall_forall; intros i _; apply not_elem_of_empty).
  txn. rewrite Hlock. simpl.
  rewrite bool_decide_eq_true_2 by apply not_elem_of_empty.
  simpl.
  unfold ScheduleWorkMixin.delete, ScheduleWork_delete. txn.
  rewrite bool_decide_eq_true_2 by exact Hex. simpl.
  erewrite (autoReply_run item h resource); [|exact Hh|exact Hs].
  rewrite afterWork_other_kind by exact Hkind.
  eexists. split; [reflexivity|]. simpl.
  split; [reflexivity|]. split; [reflexivity|]. split; [reflexivity|].
  erewrite repliesSent_app.
  2:{ simpl. rewrite <- !app_assoc. reflexivity. }
  rewrite !filter_app, !length_app. simpl.
  do 4 (rewrite filter_cons_False by (simpl; congruence)).
  rewrite filter_cons_True by (simpl; apply bool_decide_eq_true_2; reflexivity).
  unfold lastDequeue.
  repeat case_match; simpl;
    rewrite ?filter_cons_False by (simpl; congruence); rewrite ?filter_nil; simpl; lia.
Qed.

(** X26.  An auto-reply that is queued and then run is sent once and leaves
    nothing behind: with the next ids unused and no row locked by another
    transaction, [autoReply] for a resource that is in its home, and then
    the run of the job it filed, end with one reply more sent for the
    resource, no auto-reply row of the resource queued, SCHEDULE_WORK as it
    was before the auto-reply was queued, and the count of queued work where
    it was. *)
Theorem autoReply_queued_then_run (resource : Resource) (partstat : string)
    (h : CalendarHome) (o : CalendarObject) (w : World) :
  unused w ->
  locked_elsewhere w = (∅, ∅) ->
  homes w !! res_home resource = Some h ->
  home_objects h !! res_id resource = Some o ->
  exists w1 w2,
    ScheduleAutoReplyWork.autoReply resource partstat 0 w = (Return tt, w1) /\
    JobItem.run (next_id w) w1 = (Return tt, w2) /\
    repliesSent (res_id resource) w2 = S (repliesSent (res_id resource) w) /\
    queuedFor (res_id resource) w2 = [] /\
    SCHEDULE_WORK w2 = SCHEDULE_WORK w /\
    _queued w2 = _queued w.
Proof.
  intros Hun Hlock Hh Ho.
  set (f := AutoReplyFields partstat).
  set (item := filedItem (res_uid resource) (res_home resource) (Some (res_id resource)) f w).
  set (w1 := set_trace (trace w ++ [EvInsert T_JOB; EvInsert T_SCHEDULE_WORK;
                                    EvInsert (T_WORK SCHEDULE_AUTO_REPLY_WORK);
                                    EvLog "ScheduleAutoReplyWork - enqueued"])
               (set_queued (_queued w + 1)
                  (filed (res_uid resource) (res_home resource) (Some (res_id resource)) f
                     (utcnow w + AutoReplyDelaySeconds (config w)) 0 w))).
  set (wA := set_trace (trace w1 ++ [EvSelect T_SCHEDULE_WORK;
                                     EvSelect (T_WORK SCHEDULE_AUTO_REPLY_WORK)]) w1).
  assert (ScheduleAutoReplyWork.autoReply resource partstat 0 w = (Return tt, w1)) as E1.
  { unfold ScheduleAutoReplyWork.autoReply.
    unfold bind at 1. unfold gets at 1. unfold bind at 1. unfold gets at 1.
    unfold bind at 1. rewrite enqueue_run. fold f.
    unfold ScheduleWorkMixin._enqueued. txn.
    f_equal. apply world_eq; simpl; rewrite <- ?app_assoc; reflexivity. }
  assert (ScheduleWorkMixin.loadForJob SCHEDULE_AUTO_REPLY_WORK (next_id w) w1
          = (Return [item], wA)) as E2.
  { apply (loadForJob_last_filed (res_uid resource) (res_home resource)
             (Some (res_id resource)) f w); [exact Hun|reflexivity|reflexivity]. }
  destruct (autoReply_job_run item h
              {| res_id := res_id resource; res_home := res_home resource;
                 res_uid := obj_uid o; componentForUser := obj_component o |} wA)
    as (w2 & E & Hwork & Hsw & Hq & Hsent).
  - exact Hlock.
  - apply Exists_exists. exists (baseWork item). split; [|reflexivity].
    simpl. apply elem_of_app. right. apply list_elem_of_here.
  - exact Hh.
  - unfold storedResource. simpl. rewrite Ho. reflexivity.
  - discriminate.
  - destruct Hun as [Hunsw Hunwork].
    simpl in Hwork, Hsw, Hq, Hsent.
    exists w1, w2.
    split; [exact E1|].
    split.
    { unfold JobItem.run. unfold bind at 1. rewrite E2. exact E. }
    split.
    { rewrite Hsent. f_equal. erewrite repliesSent_app.
      2:{ simpl. rewrite <- !app_assoc. reflexivity. }
      simpl. rewrite ?filter_cons_False by (simpl; congruence). rewrite ?filter_nil.
      simpl. lia. }
    split.
    { unfold queuedFor. rewrite Hwork. apply filter_all_out.
      apply Forall_forall. intros r Hr. apply list_elem_of_filter in Hr.
      destruct Hr as [Hr _]. exact Hr. }
    split.
    { rewrite Hsw. apply filter_snoc_out.
      - eapply Forall_impl; [exact Hunsw|]. intros b [_ Hb]. exact Hb.
      - intros H. apply H. reflexivity. }
    rewrite Hq. lia.
Qed.

Lemma autoReply_queued_then_run_witness :
  exists w1 w2,
    ScheduleAutoReplyWork.autoReply example_resource "ACCEPTED" 0 burst_world
      = (Return tt, w1) /\
    JobItem.run 20 w1 = (Return tt, w2) /\
    repliesSent 1 w2 = 1%nat /\
    queuedFor 1 w2 = [].
Proof.
  destruct (autoReply_queued_then_run example_resource "ACCEPTED"
              {| home_uid := "user01";
                 home_objects := {[ 1 := {| obj_uid := "uid1";
                                            obj_component := example_component |} ]} |}
              {| obj_uid := "uid1"; obj_component := example_component |} burst_world)
    as (w1 & w2 & E1 & E2 & Hs & Hq & _).
  - split; repeat (constructor; [vm_compute; intuition congruence|]); constructor.
  - reflexivity.
  - vm_compute. reflexivity.
  - vm_compute. reflexivity.
  - exists w1, w2. split; [exact E1|]. split; [exact E2|]. split; [exact Hs|exact Hq].
Defined.

(** ** Migration that fails *)



(** ** The entry points *)

(** X28.  Each entry point that is given a home files one work item and
    counts it, and the job is not due before the current time plus the delay
    of its class: [RequestDelaySeconds] for the organizer's work,
    [ReplyDelaySeconds] for a reply, [AutoReplyDelaySeconds] for an
    auto-reply.  A reply is filed under the UID of its message and the home
    it was given, an auto-reply under the UID and the home of its resource;
    the resource may be missing for the first two, and then the row has
    none. *)
Theorem entry_points_file_with_their_delay (hid : Z) (h : CalendarHome)
    (resource : option Resource) (paused : Z) (w : World) :
  (forall uid action calendar_old calendar_new organizer attendee_count smart_merge,
     exists w',
       ScheduleOrganizerWork.schedule uid action (Some (hid, h)) resource
         calendar_old calendar_new organizer attendee_count smart_merge paused w
         = (Return tt, w') /\
       filesOne uid hid (res_id <$> resource)
         (OrganizerFields action calendar_old calendar_new attendee_count smart_merge)
         (utcnow w + RequestDelaySeconds (config w)) paused w w') /\
  (forall itipmsg attendee,
     exists w',
       ScheduleReplyWork.reply (Some (hid, h)) resource itipmsg attendee paused w
         = (Return tt, w') /\
       filesOne (resourceUID itipmsg) hid (res_id <$> resource)
         (ReplyFields (Some itipmsg))
         (utcnow w + ReplyDelaySeconds (config w)) paused w w') /\
  (forall target partstat,
     exists w',
       ScheduleAutoReplyWork.autoReply target partstat paused w = (Return tt, w') /\
       filesOne (res_uid target) (res_home target) (Some (res_id target))
         (AutoReplyFields partstat)
         (utcnow w + AutoReplyDelaySeconds (config w)) paused w w').
Proof.
  split; [|split].
  - intros. unfold ScheduleOrganizerWork.schedule, home_id_of.
    unfold bind at 1. unfold gets at 1. unfold bind at 1. unfold gets at 1.
    unfold bind at 1. unfold ret at 1. unfold bind at 1.
    rewrite enqueue_run. unfold ScheduleWorkMixin._enqueued. txn.
    eexists. split; [reflexivity|]. repeat split.
  - intros. unfold ScheduleReplyWork.reply, home_id_of.
    unfold bind at 1. unfold gets at 1. unfold bind at 1. unfold gets at 1.
    unfold bind at 1. unfold ret at 1. unfold bind at 1.
    rewrite enqueue_run. unfold ScheduleWorkMixin._enqueued. txn.
    eexists. split; [reflexivity|]. repeat split.
  - intros. unfold ScheduleAutoReplyWork.autoReply.
    unfold bind at 1. unfold gets at 1. unfold bind at 1. unfold gets at 1.
    unfold bind at 1.
    rewrite enqueue_run. unfold ScheduleWorkMixin._enqueued. txn.
    eexists. split; [reflexivity|]. repeat split.
Qed.
